(** * The semantic-merge pass of the .lu parser (parseFileContents)

    A shallow embedding of the entity registry, the declaration handlers and
    the utterance/pattern resolver of the lufile parser, and the properties
    of the specification that are stated about them.

    Conventions of the embedding:
    - JavaScript strings are [string]s; [trim] and [toLowerCase] act on the
      ASCII range.
    - arrays are lists; [push] appends at the end, [find] returns the first
      match, [splice(i, 1)] removes position [i].
    - the parser mutates one [parserObj]; a function of the source is a
      [Parser A]: it takes the object and returns it, mutated, together with
      either the returned value or the thrown exception.  A thrown exception
      keeps the mutations made before it.
    - role arrays are modelled by value: a record, an entry of the flat list
      and a handler each have their own list of roles.  The class of the
      entries of the flat list is not among the sources, and its entries are
      taken to keep an array of their own. *)

From Stdlib Require Import List String Ascii Bool Arith ZArith Lia Permutation.
From Stdlib Require OrderedTypeEx.
Import ListNotations.
Local Open Scope string_scope.
Local Open Scope list_scope.
Local Open Scope nat_scope.

Set Implicit Arguments.

(** ** Strings and arrays of the JavaScript runtime *)

Module Js.

(** [String.prototype.trim] removes white space and line terminators. *)
Definition isWhiteSpace (c : ascii) : bool :=
  let n := nat_of_ascii c in (n =? 32) || ((9 <=? n) && (n <=? 13)).

Fixpoint trimStart (s : string) : string :=
  match s with
  | String c t => if isWhiteSpace c then trimStart t else s
  | EmptyString => EmptyString
  end.

Definition reverse (s : string) : string :=
  string_of_list_ascii (rev (list_ascii_of_string s)).

Definition trimEnd (s : string) : string := reverse (trimStart (reverse s)).

Definition trim (s : string) : string := trimEnd (trimStart s).

(** [s.split(sep)] for a separator that matches exactly one character:
    [split(',')] and [split(/[,;]/g)].  The result is never empty. *)
Fixpoint split (sep : ascii -> bool) (s : string) : list string :=
  match s with
  | EmptyString => [EmptyString]
  | String c t =>
      if sep c then EmptyString :: split sep t
      else match split sep t with
           | h :: r => String c h :: r
           | [] => [String c EmptyString]
           end
  end.

Definition isComma (c : ascii) : bool := Ascii.eqb c ",".
Definition isCommaOrSemicolon (c : ascii) : bool :=
  Ascii.eqb c "," || Ascii.eqb c ";".

(** [a.join(',')] *)
Definition join (a : list string) : string := String.concat "," a.

(** [hay.includes(needle)] on strings: substring test. *)
Fixpoint includes (hay needle : string) : bool :=
  if String.prefix needle hay then true
  else match hay with
       | String _ t => includes t needle
       | EmptyString => false
       end.

Definition startsWith (s p : string) : bool := String.prefix p s.
Definition endsWith (s p : string) : bool :=
  String.prefix (reverse p) (reverse s).

Fixpoint drop (n : nat) (s : string) : string :=
  match n, s with
  | S k, String _ t => drop k t
  | _, _ => s
  end.

(** [hay.replace(pat, rep)] with a string pattern: the first occurrence. *)
Fixpoint replace (pat rep hay : string) : string :=
  if String.prefix pat hay then String.append rep (drop (String.length pat) hay)
  else match hay with
       | String c t => String c (replace pat rep t)
       | EmptyString => EmptyString
       end.

(** [s.replace(/{@/g, '{')] *)
Fixpoint replaceAllBraceAt (s : string) : string :=
  match s with
  | String "{" (String "@" t) => String "{" (replaceAllBraceAt t)
  | String c t => String c (replaceAllBraceAt t)
  | EmptyString => EmptyString
  end.

(** [s.replace(/^@/g, '')] *)
Definition dropLeadingAt (s : string) : string :=
  match s with
  | String "@" t => t
  | _ => s
  end.

(** [s.replace(/:$/g, '')] *)
Definition dropTrailingColon (s : string) : string :=
  match reverse s with
  | String ":" t => reverse t
  | _ => s
  end.

Definition isQuote (c : ascii) : bool :=
  Ascii.eqb c "'" || (nat_of_ascii c =? 34).

(** [s.replace(/^[\'\"]|[\'\"]$/g, "")] *)
Definition stripQuotes (s : string) : string :=
  let s1 := match s with
            | String c t => if isQuote c then t else s
            | EmptyString => s
            end in
  match reverse s1 with
  | String c t => if isQuote c then reverse t else s1
  | EmptyString => s1
  end.

(** [s.replace(/[\[\]]/g, '')] *)
Fixpoint dropBrackets (s : string) : string :=
  match s with
  | String c t =>
      if Ascii.eqb c "[" || Ascii.eqb c "]" then dropBrackets t
      else String c (dropBrackets t)
  | EmptyString => EmptyString
  end.

Definition lowerChar (c : ascii) : ascii :=
  let n := nat_of_ascii c in
  if (65 <=? n) && (n <=? 90) then ascii_of_nat (n + 32) else c.

Fixpoint toLowerCase (s : string) : string :=
  match s with
  | String c t => String (lowerChar c) (toLowerCase t)
  | EmptyString => EmptyString
  end.

(** [s.slice(1, s.length - 1)] *)
Definition sliceInner (s : string) : string :=
  String.substring 1 (String.length s - 2) s.

Definition isLineTerminator (c : ascii) : bool :=
  let n := nat_of_ascii c in (n =? 10) || (n =? 13).

Fixpoint closesOnLine (s : string) : bool :=
  match s with
  | String c t =>
      if Ascii.eqb c ")" then true
      else if isLineTerminator c then false
      else closesOnLine t
  | EmptyString => false
  end.

(** [s.split(/\(.*\)/g)[0]]: the text before the first parenthesised
    group. *)
Fixpoint beforeParens (s : string) : string :=
  match s with
  | String c t =>
      if Ascii.eqb c "(" && closesOnLine t then EmptyString
      else String c (beforeParens t)
  | EmptyString => EmptyString
  end.

(** A string is truthy when it is not empty; [undefined] is falsy. *)
Definition truthy (s : option string) : bool :=
  match s with
  | Some s => negb (String.eqb s "")
  | None => false
  end.

(** [a.includes(x)] on arrays of strings. *)
Definition mem (x : string) (a : list string) : bool :=
  existsb (String.eqb x) a.

(** [[...new Set(a)]]: the first occurrence of each element is kept. *)
Fixpoint dedupe (seen a : list string) : list string :=
  match a with
  | x :: t => if mem x seen then dedupe seen t else x :: dedupe (x :: seen) t
  | [] => []
  end.

(** [a.sort()] on an array of strings orders by code units. *)
Fixpoint insert (x : string) (a : list string) : list string :=
  match a with
  | y :: t => if String.leb x y then x :: a else y :: insert x t
  | [] => [x]
  end.

Definition sort (a : list string) : list string := fold_right insert [] a.

(** [JSON.stringify(a) !== JSON.stringify(b)] on arrays of strings is
    inequality of the arrays. *)
Fixpoint sameArray (a b : list string) : bool :=
  match a, b with
  | x :: a', y :: b' => String.eqb x y && sameArray a' b'
  | [], [] => true
  | _, _ => false
  end.

(** The properties that every object inherits from [Object.prototype].
    A property read [map[key]] on an object literal finds them, and each
    of them is truthy. *)
Definition objectPrototypeKeys : list string :=
  [ "constructor"; "hasOwnProperty"; "isPrototypeOf";
    "propertyIsEnumerable"; "toLocaleString"; "toString"; "valueOf";
    "__defineGetter__"; "__defineSetter__"; "__lookupGetter__";
    "__lookupSetter__"; "__proto__" ].

(** [a.find(p)] *)
Definition find {A} (p : A -> bool) (a : list A) : option A := List.find p a.

(** The index [find] stops at. *)
Fixpoint findIndex {A} (p : A -> bool) (a : list A) : option nat :=
  match a with
  | x :: t => if p x then Some 0
              else option_map S (findIndex p t)
  | [] => None
  end.

(** [a.splice(i, 1)] *)
Fixpoint splice {A} (i : nat) (a : list A) : list A :=
  match i, a with
  | 0, _ :: t => t
  | S k, x :: t => x :: splice k t
  | _, [] => []
  end.

End Js.

(** ** Exceptions and the parser monad *)

(** Modelled from the spec: the enumeration [retCode.errorCode] is not among
    the sources; these are the error codes of section 6, under the names
    that the parser uses for them. *)
Inductive errorCode : Type :=
| INVALID_LINE
| INVALID_URI
| INVALID_INPUT
| MISSING_LABELLED_VALUE
| INVALID_COMPOSITE_ENTITY
| SYNONYMS_NOT_A_LIST
| INVALID_REGEX_ENTITY.

(** What a [throw] carries: [new exception(errCode, text)], or an error
    raised by the runtime itself. *)
Inductive thrown : Type :=
| exception (errCode : errorCode) (text : string)
| ReferenceError (identifier : string)
| TypeError (message : string).

Inductive completion (A : Type) : Type :=
| Returned (a : A)
| Threw (e : thrown).
Arguments Returned {A} a.
Arguments Threw {A} e.

(** ** The helper classes ([classes/hclasses]) *)

(** Modelled from the spec: the classes of [classes/hclasses] are not among
    the sources.  Each record below has the attributes that section 3 gives
    to the entity records, the utterances, the patterns and the intents,
    under the names of the properties that the parser passes to the
    constructors and reads back. *)

Module intentObj.
Record t : Type := mk { name : string }.
End intentObj.

(** The object literal [{name, roles}] of the simple and prebuilt
    entities. *)
Module itemObj.
Record t : Type := mk { name : string; roles : list string }.
End itemObj.

Module patternAnyEntity.
Record t : Type :=
  mk { name : string; explicitList : list string; roles : list string }.
End patternAnyEntity.

Module compositeEntity.
Record t : Type :=
  mk { name : string; children : list string; roles : list string }.
End compositeEntity.

Module subList.
Record t : Type := mk { canonicalForm : string; list : list string }.
End subList.

Module closedLists.
Record t : Type :=
  mk { name : string; subLists : list subList.t; roles : list string }.
End closedLists.

Module regExEntity.
Record t : Type :=
  mk { name : string; regexPattern : string; roles : list string }.
End regExEntity.

Module modelObj.
Record t : Type :=
  mk { name : string; mode : bool; words : string; activated : bool }.
End modelObj.

Module pattern.
Record t : Type := mk { pattern : string; intent : string }.
End pattern.

Module utteranceEntity.
Record t : Type :=
  mk { entity : string; startPos : Z; endPos : Z; role : option string }.
End utteranceEntity.

Module uttereances.
Record t : Type :=
  mk { text : string; intent : string; entities : list utteranceEntity.t }.
End uttereances.

Module entityAndRoles.
Record t : Type :=
  mk { name : string; type : string; roles : list string }.
End entityAndRoles.

Module fileToParse.
Record t : Type := mk { filePath : string; includeInCollate : bool }.
End fileToParse.

(** ** The registry *)

(** [parsedContent.LUISJsonStructure] *)
Record LUIS : Type := mkLUIS {
  intents : list intentObj.t;
  entities : list itemObj.t;
  composites : list compositeEntity.t;
  closedLists : list closedLists.t;
  regex_entities : list regExEntity.t;
  model_features : list modelObj.t;
  prebuiltEntities : list itemObj.t;
  patternAnyEntities : list patternAnyEntity.t;
  patterns : list pattern.t;
  utterances : list uttereances.t;
  flatListOfEntityAndRoles : option (list entityAndRoles.t)
}.

(** [parserObj]; of the QnA part only the word alterations are kept. *)
Record parserObj : Type := mkParserObj {
  LUISJsonStructure : LUIS;
  additionalFilesToParse : list fileToParse.t;
  wordAlterations : list (list string)
}.

Definition emptyLUIS : LUIS := mkLUIS [] [] [] [] [] [] [] [] [] [] None.
Definition newParserObj : parserObj := mkParserObj emptyLUIS [] [].

Definition set_intents v (L : LUIS) : LUIS :=
  mkLUIS v (entities L) (composites L) (closedLists L) (regex_entities L)
    (model_features L) (prebuiltEntities L) (patternAnyEntities L)
    (patterns L) (utterances L) (flatListOfEntityAndRoles L).
Definition set_entities v (L : LUIS) : LUIS :=
  mkLUIS (intents L) v (composites L) (closedLists L) (regex_entities L)
    (model_features L) (prebuiltEntities L) (patternAnyEntities L)
    (patterns L) (utterances L) (flatListOfEntityAndRoles L).
Definition set_composites v (L : LUIS) : LUIS :=
  mkLUIS (intents L) (entities L) v (closedLists L) (regex_entities L)
    (model_features L) (prebuiltEntities L) (patternAnyEntities L)
    (patterns L) (utterances L) (flatListOfEntityAndRoles L).
Definition set_closedLists v (L : LUIS) : LUIS :=
  mkLUIS (intents L) (entities L) (composites L) v (regex_entities L)
    (model_features L) (prebuiltEntities L) (patternAnyEntities L)
    (patterns L) (utterances L) (flatListOfEntityAndRoles L).
Definition set_regex_entities v (L : LUIS) : LUIS :=
  mkLUIS (intents L) (entities L) (composites L) (closedLists L) v
    (model_features L) (prebuiltEntities L) (patternAnyEntities L)
    (patterns L) (utterances L) (flatListOfEntityAndRoles L).
Definition set_model_features v (L : LUIS) : LUIS :=
  mkLUIS (intents L) (entities L) (composites L) (closedLists L)
    (regex_entities L) v (prebuiltEntities L) (patternAnyEntities L)
    (patterns L) (utterances L) (flatListOfEntityAndRoles L).
Definition set_prebuiltEntities v (L : LUIS) : LUIS :=
  mkLUIS (intents L) (entities L) (composites L) (closedLists L)
    (regex_entities L) (model_features L) v (patternAnyEntities L)
    (patterns L) (utterances L) (flatListOfEntityAndRoles L).
Definition set_patternAnyEntities v (L : LUIS) : LUIS :=
  mkLUIS (intents L) (entities L) (composites L) (closedLists L)
    (regex_entities L) (model_features L) (prebuiltEntities L) v
    (patterns L) (utterances L) (flatListOfEntityAndRoles L).
Definition set_patterns v (L : LUIS) : LUIS :=
  mkLUIS (intents L) (entities L) (composites L) (closedLists L)
    (regex_entities L) (model_features L) (prebuiltEntities L)
    (patternAnyEntities L) v (utterances L) (flatListOfEntityAndRoles L).
Definition set_utterances v (L : LUIS) : LUIS :=
  mkLUIS (intents L) (entities L) (composites L) (closedLists L)
    (regex_entities L) (model_features L) (prebuiltEntities L)
    (patternAnyEntities L) (patterns L) v (flatListOfEntityAndRoles L).
Definition set_flatListOfEntityAndRoles v (L : LUIS) : LUIS :=
  mkLUIS (intents L) (entities L) (composites L) (closedLists L)
    (regex_entities L) (model_features L) (prebuiltEntities L)
    (patternAnyEntities L) (patterns L) (utterances L) v.

Definition onLUIS (f : LUIS -> LUIS) (pc : parserObj) : parserObj :=
  mkParserObj (f (LUISJsonStructure pc)) (additionalFilesToParse pc)
    (wordAlterations pc).

(** A function of the parser: the object it mutates goes in and comes
    out. *)
Definition Parser (A : Type) : Type := parserObj -> completion A * parserObj.

Definition ret {A} (a : A) : Parser A := fun pc => (Returned a, pc).

Definition throw {A} (e : thrown) : Parser A := fun pc => (Threw e, pc).

Definition bind {A B} (c : Parser A) (k : A -> Parser B) : Parser B :=
  fun pc =>
    match c pc with
    | (Returned a, pc') => k a pc'
    | (Threw e, pc') => (Threw e, pc')
    end.

Definition gets {A} (f : LUIS -> A) : Parser A :=
  fun pc => (Returned (f (LUISJsonStructure pc)), pc).

Definition modify (f : LUIS -> LUIS) : Parser unit :=
  fun pc => (Returned tt, onLUIS f pc).

Declare Scope parser_scope.
Delimit Scope parser_scope with parser.
Notation "x <- c ;; k" := (bind c (fun x => k))
  (at level 61, c at next level, right associativity) : parser_scope.
Notation "c ;; k" := (bind c (fun _ => k))
  (at level 61, right associativity) : parser_scope.
Local Open Scope parser_scope.

(** [a.forEach(f)] for a callback that may throw. *)
Fixpoint forEach {A} (f : A -> Parser unit) (a : list A) : Parser unit :=
  match a with
  | x :: t => f x ;; forEach f t
  | [] => ret tt
  end.

(** ** Names and roles of the records *)

Class Named (T : Type) : Type := nameOf : T -> string.

Class Item (T : Type) : Type := {
  Item_Named :: Named T;
  rolesOf : T -> list string;
  setRoles : list string -> T -> T;
  (** the literal built by [addItemIfNotPresent] and
      [addItemOrRoleIfNotPresent] for a name that is not yet in the
      collection *)
  itemLiteral : string -> list string -> T;
  nameOf_setRoles : forall r x, nameOf (setRoles r x) = nameOf x;
  nameOf_itemLiteral : forall n r, nameOf (itemLiteral n r) = n
}.

#[global] Instance Named_intentObj : Named intentObj.t := intentObj.name.
#[global] Instance Named_modelObj : Named modelObj.t := modelObj.name.

#[global, refine] Instance Item_itemObj : Item itemObj.t := {|
  Item_Named := itemObj.name;
  rolesOf := itemObj.roles;
  setRoles := fun r x => itemObj.mk (itemObj.name x) r;
  itemLiteral := fun n r => itemObj.mk n r |}.
Proof. all: reflexivity. Defined.

#[global, refine] Instance Item_patternAnyEntity : Item patternAnyEntity.t := {|
  Item_Named := patternAnyEntity.name;
  rolesOf := patternAnyEntity.roles;
  setRoles := fun r x =>
    patternAnyEntity.mk (patternAnyEntity.name x)
      (patternAnyEntity.explicitList x) r;
  itemLiteral := fun n r => patternAnyEntity.mk n [] r |}.
Proof. all: reflexivity. Defined.

(** For composites, closed lists and regular expressions the literal of
    the source has the name and the roles only; every call for these
    kinds follows a successful lookup of the name, so that it is the
    merge branch that runs. *)
#[global, refine] Instance Item_compositeEntity : Item compositeEntity.t := {|
  Item_Named := compositeEntity.name;
  rolesOf := compositeEntity.roles;
  setRoles := fun r x =>
    compositeEntity.mk (compositeEntity.name x) (compositeEntity.children x) r;
  itemLiteral := fun n r => compositeEntity.mk n [] r |}.
Proof. all: reflexivity. Defined.

#[global, refine] Instance Item_closedLists : Item closedLists.t := {|
  Item_Named := closedLists.name;
  rolesOf := closedLists.roles;
  setRoles := fun r x =>
    closedLists.mk (closedLists.name x) (closedLists.subLists x) r;
  itemLiteral := fun n r => closedLists.mk n [] r |}.
Proof. all: reflexivity. Defined.

#[global, refine] Instance Item_regExEntity : Item regExEntity.t := {|
  Item_Named := regExEntity.name;
  rolesOf := regExEntity.roles;
  setRoles := fun r x =>
    regExEntity.mk (regExEntity.name x) (regExEntity.regexPattern x) r;
  itemLiteral := fun n r => regExEntity.mk n "" r |}.
Proof. all: reflexivity. Defined.

(** [collection.find(item => item.name == value)] *)
Definition hasName {T} `{Named T} (value : string) (item : T) : bool :=
  String.eqb (nameOf item) value.

Definition findByName {T} `{Named T} (value : string) (c : list T)
  : option T := Js.find (hasName value) c.

(** A mutation of the object that [find] returned. *)
Fixpoint updateFirst {A} (p : A -> bool) (f : A -> A) (a : list A) : list A :=
  match a with
  | x :: t => if p x then f x :: t else x :: updateFirst p f t
  | [] => []
  end.

(** [forEach(role => !roles.includes(role) ? roles.push(role) : undefined)] *)
Definition pushNew (roles more : list string) : list string :=
  fold_left (fun acc role => if Js.mem role acc then acc else acc ++ [role])
    more roles.

(** ** The generic helpers of the registry *)

(** Modelled from the spec: the enumeration [LUISObjNameEnum] is not among
    the sources; its values name the collections of the registry, "a set of
    named entity definitions keyed by name, partitioned by kind" (section
    2), to which the generic helpers and the labels of the front end
    refer. *)
Inductive LUISObjNameEnum : Type :=
| INTENT
| ENTITIES
| PATTERNANYENTITY
| CLOSEDLISTS
| PREBUILT
| REGEX
| COMPOSITES.

Definition LUISObjNameEnum_eqb (a b : LUISObjNameEnum) : bool :=
  match a, b with
  | INTENT, INTENT | ENTITIES, ENTITIES
  | PATTERNANYENTITY, PATTERNANYENTITY | CLOSEDLISTS, CLOSEDLISTS
  | PREBUILT, PREBUILT | REGEX, REGEX | COMPOSITES, COMPOSITES => true
  | _, _ => false
  end.

(** [rolesMap[role]] in [mergeRoles]: [rolesMap] is an object literal that
    has received one property per role of the source array, so the read
    finds those roles and the inherited properties. *)
Definition rolesMapHas (srcEntityRoles : list string) (role : string) : bool :=
  Js.mem role srcEntityRoles || Js.mem role Js.objectPrototypeKeys.

(** [mergeRoles(srcEntityRoles, tgtEntityRoles)]: the map is built once,
    before the loop that pushes. *)
Definition mergeRoles (srcEntityRoles tgtEntityRoles : list string)
  : list string :=
  srcEntityRoles
    ++ filter (fun role => negb (rolesMapHas srcEntityRoles role))
         tgtEntityRoles.

Definition addIfAbsent {T} `{Named T} (itemObj : T) (c : list T) : list T :=
  if existsb (hasName (nameOf itemObj)) c then c else c ++ [itemObj].

Definition upsert {T} `{Item T} (value : string) (roles : list string)
  (c : list T) : list T :=
  if existsb (hasName value) c
  then updateFirst (hasName value)
         (fun item => setRoles (mergeRoles (rolesOf item) roles) item) c
  else c ++ [itemLiteral value roles].

(** [addItemIfNotPresent(collection, type, value)] *)
Definition addItemIfNotPresent (type : LUISObjNameEnum) (value : string)
  (L : LUIS) : LUIS :=
  match type with
  | INTENT => set_intents (addIfAbsent (intentObj.mk value) (intents L)) L
  | ENTITIES =>
      set_entities (addIfAbsent (itemLiteral value []) (entities L)) L
  | PATTERNANYENTITY =>
      set_patternAnyEntities
        (addIfAbsent (itemLiteral value []) (patternAnyEntities L)) L
  | CLOSEDLISTS =>
      set_closedLists (addIfAbsent (itemLiteral value []) (closedLists L)) L
  | PREBUILT =>
      set_prebuiltEntities
        (addIfAbsent (itemLiteral value []) (prebuiltEntities L)) L
  | REGEX =>
      set_regex_entities
        (addIfAbsent (itemLiteral value []) (regex_entities L)) L
  | COMPOSITES =>
      set_composites (addIfAbsent (itemLiteral value []) (composites L)) L
  end.

(** [addItemOrRoleIfNotPresent(collection, type, value, roles)].  It is not
    called for intents, whose records have no roles; that case is given the
    behaviour of [addItemIfNotPresent]. *)
Definition addItemOrRoleIfNotPresent (type : LUISObjNameEnum)
  (value : string) (roles : list string) (L : LUIS) : LUIS :=
  match type with
  | INTENT => set_intents (addIfAbsent (intentObj.mk value) (intents L)) L
  | ENTITIES => set_entities (upsert value roles (entities L)) L
  | PATTERNANYENTITY =>
      set_patternAnyEntities (upsert value roles (patternAnyEntities L)) L
  | CLOSEDLISTS => set_closedLists (upsert value roles (closedLists L)) L
  | PREBUILT =>
      set_prebuiltEntities (upsert value roles (prebuiltEntities L)) L
  | REGEX => set_regex_entities (upsert value roles (regex_entities L)) L
  | COMPOSITES => set_composites (upsert value roles (composites L)) L
  end.

(** The loop
    [for (idx = 0; idx < a.length; idx++) if (a[idx].name === n) a.splice(idx, 1)]:
    after a removal the element that moved into position [idx] is stepped
    over. *)
Fixpoint spliceLoop {T} `{Named T} (n : string) (a : list T) : list T :=
  match a with
  | x :: t =>
      if hasName n x
      then match t with
           | y :: t' => y :: spliceLoop n t'
           | [] => []
           end
      else x :: spliceLoop n t
  | [] => []
  end.

(** ** What the parser takes from the modules that are not part of the
    sources *)

(** An entry of [builtInTypes.perLocaleAvailability[locale]]. *)
Inductive availability : Type :=
| isUndefined
| isNull
| isString (s : string).

Record Externals : Type := {
  (** [BuildDiagnostic({message, context}).toString()] *)
  BuildDiagnostic : string -> option string -> string;
  isUtterancePattern : string -> bool;
  isUtteranceLinkRef : string -> bool;
  (** [helpers.parseLinkURI(utterance).luFile], or what it throws *)
  parseLinkURI : string -> thrown + string;
  (** [helpers.getRolesAndType(entityType)]: roles and entity type *)
  getRolesAndType : string -> list string * string;
  consolidatedList : list string;
  perLocaleAvailability : string -> option (string -> availability);
  QNAALTERATIONS : string
}.

(** Modelled from the spec: the enumeration [lusiEntityTypes] is not among
    the sources; the declarations of the specification ([@ simple s1 sr1],
    [@ list l1 hasRoles lr1,lr2 =]) name a kind by its keyword. *)
Module EntityTypeEnum.
Definition SIMPLE : string := "simple".
Definition LIST : string := "list".
Definition REGEX : string := "regex".
Definition PREBUILT : string := "prebuilt".
Definition COMPOSITE : string := "composite".
Definition ML : string := "ml".
Definition PATTERNANY : string := "patternany".
Definition PHRASELIST : string := "phraselist".
End EntityTypeEnum.

(** Modelled from the spec: the method [addRoles] of [entityAndRoles] is not
    among the sources; the flat index holds a set of roles per name, which
    a successful validation updates (section 4.1). *)
Definition addRoles (roles : list string) (item : entityAndRoles.t)
  : entityAndRoles.t :=
  entityAndRoles.mk (entityAndRoles.name item) (entityAndRoles.type item)
    (pushNew (entityAndRoles.roles item) roles).

(** Modelled from the spec: [helpers.filterMatch] is not among the sources;
    the registry "finds an existing record of the same name" (section
    4.1), and the parser tests the result for emptiness and takes its first
    element. *)
Definition filterMatch {T} (property : T -> string) (searchValue : string)
  (c : list T) : list T :=
  filter (fun item => String.eqb (property item) searchValue) c.

Notation "a +++ b" := (String.append a b)
  (at level 60, right associativity).

(** A double quote and a line feed, for the messages. *)
Definition q : string := String (ascii_of_nat 34) EmptyString.
Definition nl : string := String (ascii_of_nat 10) EmptyString.

(** ** What the lexical front end hands over *)

(** An element of [luResource.NewEntities]; [line] stands for
    [ParseTree.newEntityLine()]. *)
Module NewEntity.
Record t : Type := mk {
  Name : string;
  Type_ : option string;
  Roles : option string;
  CompositeDefinition : option string;
  ListBody : list string;
  RegexDefinition : option string;
  line : string
}.
End NewEntity.

(** An element of [luResource.Entities]; [line] stands for
    [ParseTree.entityLine()]. *)
Module Entity.
Record t : Type := mk {
  Name : string;
  Type_ : string;
  SynonymsOrPhraseList : list string;
  line : string
}.
End Entity.

(** A label of an utterance, as [flattenLists] leaves it. *)
Module parserEntity.
Record t : Type := mk {
  entity : string;
  role : option string;
  type : LUISObjNameEnum;
  value : string;
  startPos : Z;
  endPos : Z
}.
End parserEntity.

(** An element of [intent.UtteranceAndEntitiesMap]; [context] stands for
    the parse tree node, that is, for its text. *)
Module UtteranceAndEntities.
Record t : Type := mk {
  utterance : string;
  entities : list parserEntity.t;
  context : string
}.
End UtteranceAndEntities.

(** An element of [luResource.Intents]. *)
Module Intent.
Record t : Type := mk {
  Name : string;
  UtteranceAndEntitiesMap : list UtteranceAndEntities.t
}.
End Intent.

(** ** The declaration handlers *)

Section Handlers.

Variable X : Externals.

(** [throw (new exception(code, BuildDiagnostic({message, context}).toString()))] *)
Definition throwDiagnostic {A} (code : errorCode) (message : string)
  (context : option string) : Parser A :=
  throw (exception code (BuildDiagnostic X message context)).

(** *** validateAndGetRoles *)

(** [roles ? roles.split(',').map(item => item.trim()) : []], de-duplicated *)
Definition newRolesOf (roles : option string) : list string :=
  Js.dedupe []
    (match roles with
     | Some r => if Js.truthy roles then map Js.trim (Js.split Js.isComma r)
                 else []
     | None => []
     end).

Definition sameNameOtherType (entityName entityType : string)
  (item : entityAndRoles.t) : bool :=
  String.eqb (entityAndRoles.name item) entityName
  && negb (String.eqb (entityAndRoles.type item) entityType).

(** The callback of the first [find]. *)
Definition clashesWithEntity (entityName entityType : string)
  (item : entityAndRoles.t) : bool :=
  sameNameOtherType entityName entityType item
  || Js.mem entityName (entityAndRoles.roles item).

(** The callback of the [find] made for each new role. *)
Definition clashesWithRole (role : string) (item : entityAndRoles.t) : bool :=
  Js.mem role (entityAndRoles.roles item)
  || String.eqb (entityAndRoles.name item) role.

Definition priorDefinition (item : entityAndRoles.t) : string :=
  "Prior definition - '@ " +++ entityAndRoles.type item +++ " "
  +++ entityAndRoles.name item
  +++ (match entityAndRoles.roles item with
       | [] => ""
       | _ :: _ => " hasRoles " +++ Js.join (entityAndRoles.roles item)
       end)
  +++ "'".

Definition matchType (entityName entityType : string)
  (item : entityAndRoles.t) : string :=
  if sameNameOtherType entityName entityType item
  then "Entity names must be unique. Duplicate definition found for "
       +++ q +++ entityName +++ q +++ "."
  else "Entity name cannot be the same as a role name. Duplicate definition found for "
       +++ q +++ entityName +++ q +++ ".".

Definition sameNameAndType (entityName entityType : string)
  (item : entityAndRoles.t) : bool :=
  String.eqb (entityAndRoles.name item) entityName
  && String.eqb (entityAndRoles.type item) entityType.

(** The loop over the new roles: the first role that is a role or a name
    of the flat list, with the entry that holds it. *)
Fixpoint firstRoleClash (flat : list entityAndRoles.t) (newRoles : list string)
  : option entityAndRoles.t :=
  match newRoles with
  | role :: t =>
      match Js.find (clashesWithRole role) flat with
      | Some roleFound => Some roleFound
      | None => firstRoleClash flat t
      end
  | [] => None
  end.

Definition validateAndGetRoles (roles : option string) (line : string)
  (entityName entityType : string) : Parser (list string) :=
  let newRoles := newRolesOf roles in
  flatList <- gets flatListOfEntityAndRoles ;;
  match flatList with
  | Some flat =>
      match Js.find (clashesWithEntity entityName entityType) flat with
      | Some entityFound =>
          throwDiagnostic INVALID_INPUT
            (matchType entityName entityType entityFound +++ " "
             +++ priorDefinition entityFound)
            (Some line)
      | None =>
          match firstRoleClash flat newRoles with
          | Some roleFound =>
              throwDiagnostic INVALID_INPUT
                ("Roles must be unique across entity types. Invalid role definition found "
                 +++ q +++ entityName +++ q +++ ". "
                 +++ priorDefinition roleFound)
                (Some line)
          | None =>
              modify (set_flatListOfEntityAndRoles
                (Some
                  (if existsb (sameNameAndType entityName entityType) flat
                   then updateFirst (sameNameAndType entityName entityType)
                          (addRoles newRoles) flat
                   else flat
                        ++ [entityAndRoles.mk entityName entityType newRoles]))) ;;
              ret newRoles
          end
      end
  | None =>
      modify (set_flatListOfEntityAndRoles
        (Some [entityAndRoles.mk entityName entityType newRoles])) ;;
      ret newRoles
  end.

(** *** RemoveDuplicatePatternAnyEntity *)

Definition RemoveDuplicatePatternAnyEntity (pEntityName entityType : string)
  (entityLine : string) : Parser (list string) :=
  PAs <- gets patternAnyEntities ;;
  match Js.find (hasName pEntityName) PAs, Js.findIndex (hasName pEntityName) PAs with
  | Some PAEntityFound, Some PAIdx =>
      if Js.includes (Js.trim (Js.toLowerCase entityType)) "phraselist"
      then throwDiagnostic INVALID_INPUT
             ("Phrase lists cannot be used as an entity in a pattern "
              +++ q +++ pEntityName +++ q)
             (Some entityLine)
      else
        modify (set_patternAnyEntities (Js.splice PAIdx PAs)) ;;
        ret (patternAnyEntity.roles PAEntityFound)
  | _, _ => ret []
  end.

(** *** VerifyAndUpdateSimpleEntityCollection *)

Definition labelsEntity (entityName : string) (item : uttereances.t) : bool :=
  existsb (fun entity => String.eqb (utteranceEntity.entity entity) entityName)
    (uttereances.entities item).

(** The loop over the labels of the entity in the utterance found: a label
    with a role gives the role, a label without one is an error unless the
    declaration is a phrase list. *)
Fixpoint rolesOfLabels (entityType : string) (labels : list utteranceEntity.t)
  (entityRoles : list string) : option (list string) :=
  match labels with
  | entity :: t =>
      match utteranceEntity.role entity with
      | Some role => rolesOfLabels entityType t (pushNew entityRoles [role])
      | None =>
          if negb (String.eqb entityType "Phrase List") then None
          else rolesOfLabels entityType t entityRoles
      end
  | [] => Some entityRoles
  end.

Definition VerifyAndUpdateSimpleEntityCollection (entityName entityType : string)
  : Parser (list string) :=
  simpleEntityExists <- gets (fun L => findByName entityName (entities L)) ;;
  entityRoles <-
    match simpleEntityExists with
    | Some simple =>
        (if negb (String.eqb entityType "Phrase List")
         then modify (fun L =>
                set_entities (spliceLoop (itemObj.name simple) (entities L)) L)
         else ret tt) ;;
        ret (pushNew [] (itemObj.roles simple))
    | None => ret []
    end ;;
  entityExistsInUtteranceLabel <-
    gets (fun L => Js.find (labelsEntity entityName) (utterances L)) ;;
  match entityExistsInUtteranceLabel with
  | Some utterance =>
      let entityMatch :=
        filter (fun item => String.eqb (utteranceEntity.entity item) entityName)
          (uttereances.entities utterance) in
      match rolesOfLabels entityType entityMatch entityRoles with
      | Some entityRoles' => ret entityRoles'
      | None =>
          throwDiagnostic INVALID_INPUT
            ("'" +++ entityType +++ "' entity: " +++ q +++ entityName +++ q
             +++ " is added as a labelled entity in utterance " +++ q
             +++ uttereances.text utterance +++ q +++ ". " +++ entityType
             +++ " cannot be added with explicit labelled values in utterances.")
            None
      end
  | None => ret entityRoles
  end.

(** *** handlePatternAny *)

(** [PAExists.roles.includes], read and not called, is the method itself: a
    function, which is truthy. *)
Definition includesMethodIsTruthy : bool := true.

Definition handlePatternAny (entityName : string) (entityRoles : list string)
  : Parser unit :=
  rolesImport <- VerifyAndUpdateSimpleEntityCollection entityName "Pattern.Any" ;;
  let entityRoles := pushNew entityRoles rolesImport in
  PAExists <- gets (fun L => findByName entityName (patternAnyEntities L)) ;;
  match PAExists with
  | None =>
      modify (fun L =>
        set_patternAnyEntities
          (patternAnyEntities L
             ++ [patternAnyEntity.mk entityName [] entityRoles]) L)
  | Some _ =>
      modify (fun L =>
        set_patternAnyEntities
          (updateFirst (hasName entityName)
             (fun PA =>
                setRoles
                  (rolesOf PA
                     ++ filter (fun _ => negb includesMethodIsTruthy) entityRoles)
                  PA)
             (patternAnyEntities L)) L)
  end.

(** *** handlePhraseList *)

(** [words += (words !== '' ? ',' : '') + plValueItem] for each value that
    the string [words] does not include. *)
Definition addWords (words : string) (pLValues : list string) : string :=
  fold_left
    (fun words plValueItem =>
       if Js.includes words plValueItem then words
       else words +++ (if String.eqb words "" then "" else ",") +++ plValueItem)
    pLValues words.

Definition handlePhraseList (entityName : string) (entityType : option string)
  (entityRoles : list string) (valuesList : list string) (currentLine : string)
  : Parser unit :=
  match entityRoles with
  | _ :: _ =>
      throwDiagnostic INVALID_INPUT
        ("Phrase list entity " +++ entityName
         +++ " has invalid role definition with roles = "
         +++ String.concat ", " entityRoles
         +++ ". Roles are not supported for Phrase Lists")
        (Some currentLine)
  | [] =>
      _ <- VerifyAndUpdateSimpleEntityCollection entityName "Phrase List" ;;
      let lEntityType :=
        match entityType with
        | Some t => if Js.truthy entityType then t else entityName
        | None => entityName
        end in
      let intc := Js.includes (Js.toLowerCase lEntityType) "interchangeable" in
      let entityName :=
        match entityType with
        | None => if intc then Js.beforeParens lEntityType else entityName
        | Some _ => entityName
        end in
      let pLValues :=
        flat_map (fun phraseListValues =>
                    map Js.trim (Js.split Js.isCommaOrSemicolon phraseListValues))
          valuesList in
      pLEntityExists <- gets (fun L => findByName entityName (model_features L)) ;;
      match pLEntityExists with
      | Some pl =>
          if Bool.eqb (modelObj.mode pl) intc
          then modify (fun L =>
                 set_model_features
                   (updateFirst (hasName entityName)
                      (fun pl => modelObj.mk (modelObj.name pl) (modelObj.mode pl)
                                   (addWords (modelObj.words pl) pLValues)
                                   (modelObj.activated pl))
                      (model_features L)) L)
          else
            (* the diagnostic is built from [entity.ParseTree.entityLine()],
               and no variable [entity] is in scope *)
            throw (ReferenceError "entity")
      | None =>
          modify (fun L =>
            set_model_features
              (model_features L
                 ++ [modelObj.mk entityName intc (Js.join pLValues) true]) L)
      end
  end.

(** *** handlePrebuiltEntity *)

(** The warnings written to the standard output under [log] are not part
    of the model. *)
Definition handlePrebuiltEntity (entityName entityType : string)
  (entityRoles : list string) (locale : option string) (log : bool)
  (currentLine : string) : Parser unit :=
  let locale :=
    match locale with
    | Some l => if Js.truthy locale then Js.toLowerCase l else "en-us"
    | None => "en-us"
    end in
  rolesImport <- VerifyAndUpdateSimpleEntityCollection entityType entityName ;;
  let entityRoles := pushNew entityRoles rolesImport in
  if negb (Js.mem entityType (consolidatedList X))
  then throwDiagnostic INVALID_INPUT
         ("Unknown PREBUILT entity '" +++ entityType
          +++ "'. Available pre-built types are "
          +++ Js.join (consolidatedList X))
         (Some currentLine)
  else
    match perLocaleAvailability X locale with
    | None => throw (TypeError "Cannot read properties of undefined")
    | Some table =>
        match table entityType with
        | isNull =>
            if log then ret tt
            else throwDiagnostic INVALID_INPUT
                   ("PREBUILT entity '" +++ entityType
                    +++ "' is not available for the requested locale '"
                    +++ locale +++ "'")
                   (Some currentLine)
        | isString prebuiltCheck =>
            if negb (String.eqb prebuiltCheck "")
               && Js.includes prebuiltCheck "datetime"
            then modify (addItemOrRoleIfNotPresent PREBUILT prebuiltCheck entityRoles)
            else modify (addItemOrRoleIfNotPresent PREBUILT entityType entityRoles)
        | isUndefined =>
            modify (addItemOrRoleIfNotPresent PREBUILT entityType entityRoles)
        end
    end.

(** *** handleComposite *)

Definition childDefinitionOf (entityType : string) : string :=
  Js.trim (Js.replace "]" "" (Js.replace "[" "" (Js.trim entityType))).

Definition compositeChildrenOf (childDefinition : string) : list string :=
  if negb (String.eqb childDefinition "")
  then map Js.trim (Js.split Js.isCommaOrSemicolon childDefinition)
  else [].

(** The test of the redeclaration; [sort] orders both arrays in place. *)
Definition differentChildren (compositeChildren children : list string) : bool :=
  negb (List.length children =? 0)
  && negb (Js.sameArray (Js.sort compositeChildren) (Js.sort children)).

Definition handleComposite (entityName entityType : string)
  (entityRoles : list string) (currentLine : string)
  (inlineChildRequired : bool) : Parser unit :=
  simpleEntityExists <- gets (fun L => findByName entityName (entities L)) ;;
  entityRoles <-
    match simpleEntityExists with
    | Some simple =>
        modify (fun L =>
          set_entities (spliceLoop (itemObj.name simple) (entities L)) L) ;;
        ret (pushNew entityRoles (itemObj.roles simple))
    | None => ret entityRoles
    end ;;
  let childDefinition := childDefinitionOf entityType in
  if (String.length childDefinition =? 0) && inlineChildRequired
  then throwDiagnostic INVALID_COMPOSITE_ENTITY
         ("Composite entity: " +++ entityName
          +++ " is missing child entity definitions. Child entities are denoted via [entity1, entity2] notation.")
         (Some currentLine)
  else
    let compositeChildren := compositeChildrenOf childDefinition in
    compositeEntity <- gets (fun L => findByName entityName (composites L)) ;;
    match compositeEntity with
    | None =>
        modify (fun L =>
          set_composites
            (composites L
               ++ [compositeEntity.mk entityName compositeChildren entityRoles]) L) ;;
        modify (fun L =>
          set_entities
            (filter (fun entity => negb (hasName entityName entity)) (entities L)) L)
    | Some ce =>
        let children := compositeEntity.children ce in
        if differentChildren compositeChildren children
        then
          modify (fun L =>
            set_composites
              (updateFirst (hasName entityName)
                 (fun ce => compositeEntity.mk (compositeEntity.name ce)
                              (Js.sort children) (compositeEntity.roles ce))
                 (composites L)) L) ;;
          throwDiagnostic INVALID_COMPOSITE_ENTITY
            ("Composite entity: " +++ entityName
             +++ " has multiple definition with different children. " +++ nl
             +++ " 1. " +++ String.concat ", " (Js.sort compositeChildren) +++ nl
             +++ " 2. " +++ String.concat ", " (Js.sort children))
            (Some currentLine)
        else
          let children' :=
            if List.length children =? 0 then children ++ compositeChildren
            else Js.sort children ++ Js.sort compositeChildren in
          modify (fun L =>
            set_composites
              (updateFirst (hasName entityName)
                 (fun ce => compositeEntity.mk (compositeEntity.name ce)
                              children' (compositeEntity.roles ce))
                 (composites L)) L) ;;
          modify (addItemOrRoleIfNotPresent COMPOSITES (compositeEntity.name ce)
                    entityRoles)
    end.

(** *** handleClosedList *)

(** [nvExists] and [addNV]: no sublist yet, a sublist of the closed list
    (found by its canonical form), or a new sublist that is still to be
    pushed. *)
Inductive nvState : Type :=
| nvUndefined
| nvInList (canonicalForm : string)
| nvToAdd (nv : subList.t).

Definition hasCanonicalForm (normalizedValue : string) (item : subList.t) : bool :=
  String.eqb (subList.canonicalForm item) normalizedValue.

Definition pushSynonyms (items : list string) (nv : subList.t) : subList.t :=
  subList.mk (subList.canonicalForm nv) (pushNew (subList.list nv) items).

Definition closeSubList (cl : closedLists.t) (nv : nvState) : closedLists.t :=
  match nv with
  | nvToAdd nvExists =>
      closedLists.mk (closedLists.name cl)
        (closedLists.subLists cl ++ [nvExists]) (closedLists.roles cl)
  | _ => cl
  end.

(** The loop over the lines of the list; on the left the closed list and
    [nvExists] at the end, on the right the closed list at the line that
    has synonyms and no normalized value. *)
Fixpoint listLinesLoop (listLines : list string) (cl : closedLists.t)
  (nv : nvState) : closedLists.t * nvState + closedLists.t * string :=
  match listLines with
  | line :: t =>
      if Js.endsWith (Js.toLowerCase line) ":"
      then
        let cl := closeSubList cl nv in
        let normalizedValue := Js.trim (Js.dropTrailingColon line) in
        if existsb (hasCanonicalForm normalizedValue) (closedLists.subLists cl)
        then listLinesLoop t cl (nvInList normalizedValue)
        else listLinesLoop t cl (nvToAdd (subList.mk normalizedValue []))
      else
        let items := map Js.trim (Js.split Js.isCommaOrSemicolon line) in
        match nv with
        | nvUndefined => inr (cl, line)
        | nvInList normalizedValue =>
            listLinesLoop t
              (closedLists.mk (closedLists.name cl)
                 (updateFirst (hasCanonicalForm normalizedValue)
                    (pushSynonyms items) (closedLists.subLists cl))
                 (closedLists.roles cl))
              nv
        | nvToAdd nvExists => listLinesLoop t cl (nvToAdd (pushSynonyms items nvExists))
        end
  | [] => inl (cl, nv)
  end.

Definition handleClosedList (entityName : string) (listLines : list string)
  (entityRoles : list string) (currentLine : string) : Parser unit :=
  rolesImport <- VerifyAndUpdateSimpleEntityCollection entityName "List" ;;
  let entityRoles := pushNew entityRoles rolesImport in
  found <- gets (fun L => findByName entityName (closedLists L)) ;;
  let addCL := match found with Some _ => false | None => true end in
  let closedListExists :=
    match found with
    | Some cl => cl
    | None => closedLists.mk entityName [] []
    end in
  (* the closed list found is mutated in place *)
  let store (cl : closedLists.t) : Parser unit :=
    if addCL then ret tt
    else modify (fun L =>
           set_closedLists
             (updateFirst (hasName entityName) (fun _ => cl) (closedLists L)) L) in
  match listLinesLoop listLines closedListExists nvUndefined with
  | inr (cl, line) =>
      store cl ;;
      throwDiagnostic SYNONYMS_NOT_A_LIST
        ("Closed list " +++ entityName +++ " has synonyms list " +++ q +++ line
         +++ q +++ " without a normalized value.")
        (Some currentLine)
  | inl (cl, nv) =>
      let cl := closeSubList cl nv in
      let cl := closedLists.mk (closedLists.name cl) (closedLists.subLists cl)
                  (pushNew (closedLists.roles cl) entityRoles) in
      if addCL
      then modify (fun L => set_closedLists (closedLists L ++ [cl]) L)
      else store cl
  end.

(** *** handleRegExEntity *)

(** [regex = ''; if (entityType) regex = entityType.slice(1, entityType.length - 1)] *)
Definition regexOf (entityType : option string) : string :=
  match entityType with
  | Some t => if Js.truthy entityType then Js.sliceInner t else ""
  | None => ""
  end.

Definition handleRegExEntity (entityName : string) (entityType : option string)
  (entityRoles : list string) (entityLine : string) : Parser unit :=
  rolesImport <- VerifyAndUpdateSimpleEntityCollection entityName "RegEx" ;;
  let entityRoles := pushNew entityRoles rolesImport in
  let regex := regexOf entityType in
  if Js.truthy entityType && String.eqb regex ""
  then throwDiagnostic INVALID_REGEX_ENTITY
         ("RegEx entity: " +++ entityName +++ " has empty regex pattern defined.")
         (Some entityLine)
  else
    regExEntity <- gets (fun L => findByName entityName (regex_entities L)) ;;
    match regExEntity with
    | None =>
        modify (fun L =>
          set_regex_entities
            (regex_entities L ++ [regExEntity.mk entityName regex entityRoles]) L)
    | Some re =>
        let regexPattern := regExEntity.regexPattern re in
        if negb (String.eqb regexPattern "") && negb (String.eqb regex "")
           && negb (String.eqb regexPattern regex)
        then throwDiagnostic INVALID_REGEX_ENTITY
               ("RegEx entity: " +++ regExEntity.name re
                +++ " has multiple regex patterns defined. " +++ nl
                +++ " 1. /" +++ regex +++ "/" +++ nl
                +++ " 2. /" +++ regexPattern +++ "/")
               (Some entityLine)
        else
          modify (addItemOrRoleIfNotPresent REGEX (regExEntity.name re) entityRoles) ;;
          if String.eqb regexPattern ""
          then modify (fun L =>
                 set_regex_entities
                   (updateFirst (hasName entityName)
                      (fun re => regExEntity.mk (regExEntity.name re) regex
                                   (regExEntity.roles re))
                      (regex_entities L)) L)
          else ret tt
    end.

(** ** The declarations of the new syntax ([parseAndHandleEntityV2]) *)

Definition getEntityType (entityName : string) (entities : list NewEntity.t)
  : option string :=
  match Js.find (fun item => String.eqb (NewEntity.Name item) entityName) entities with
  | Some entityFound => NewEntity.Type_ entityFound
  | None => None
  end.

Definition childrenOfDefinition (definition : string) : list string :=
  map Js.trim (Js.split Js.isCommaOrSemicolon (Js.dropBrackets definition)).

Definition candidateChildrenOf (entity : NewEntity.t) : list string :=
  (match NewEntity.CompositeDefinition entity with
   | Some d => if Js.truthy (Some d) then childrenOfDefinition d else []
   | None => []
   end)
  ++ flat_map childrenOfDefinition (NewEntity.ListBody entity).

(** Lines 574 to 579 (and 961 to 966): the roles of a pattern.any entity
    of the same name are taken over by the declaration. *)
Definition absorbPatternAny (entityName entityType : string)
  (entityRoles : list string) (line : string) : Parser (list string) :=
  PAEntityRoles <- RemoveDuplicatePatternAnyEntity entityName entityType line ;;
  ret (pushNew entityRoles PAEntityRoles).

(** The body of the loop of [parseAndHandleEntityV2]. *)
Definition handleNewEntity (entities : list NewEntity.t) (log : bool)
  (locale : option string) (entity : NewEntity.t) : Parser unit :=
  let line := NewEntity.line entity in
  let entityName := Js.stripQuotes (NewEntity.Name entity) in
  let entityType :=
    if negb (Js.truthy (NewEntity.Type_ entity))
    then getEntityType (NewEntity.Name entity) entities
    else NewEntity.Type_ entity in
  match entityType with
  | None =>
      throwDiagnostic INVALID_INPUT
        ("No type definition found for entity " +++ q +++ entityName +++ q)
        (Some line)
  | Some entityType =>
      if String.eqb entityType ""
      then throwDiagnostic INVALID_INPUT
             ("No type definition found for entity " +++ q +++ entityName +++ q)
             (Some line)
      else if String.eqb entityType entityName
      then throwDiagnostic INVALID_INPUT
             ("Entity name " +++ q +++ entityName +++ q
              +++ " cannot be the same as entity type " +++ q +++ entityType +++ q)
             (Some line)
      else
        entityRoles <- validateAndGetRoles (NewEntity.Roles entity) line
                         entityName entityType ;;
        entityRoles <- absorbPatternAny entityName entityType entityRoles line ;;
        if String.eqb entityType EntityTypeEnum.SIMPLE
        then modify (addItemOrRoleIfNotPresent ENTITIES entityName entityRoles)
        else if String.eqb entityType EntityTypeEnum.COMPOSITE
        then handleComposite entityName
               ("[" +++ Js.join (candidateChildrenOf entity) +++ "]")
               entityRoles line false
        else if String.eqb entityType EntityTypeEnum.LIST
        then handleClosedList entityName (NewEntity.ListBody entity) entityRoles line
        else if String.eqb entityType EntityTypeEnum.PATTERNANY
        then handlePatternAny entityName entityRoles
        else if String.eqb entityType EntityTypeEnum.PREBUILT
        then handlePrebuiltEntity "prebuilt" entityName entityRoles locale log line
        else if String.eqb entityType EntityTypeEnum.REGEX
        then
          if Js.truthy (hd_error (NewEntity.ListBody entity))
          then handleRegExEntity entityName (hd_error (NewEntity.ListBody entity))
                 entityRoles line
          else handleRegExEntity entityName (NewEntity.RegexDefinition entity)
                 entityRoles line
        else if String.eqb entityType EntityTypeEnum.ML
        then ret tt
        else if String.eqb entityType EntityTypeEnum.PHRASELIST
        then handlePhraseList entityName None entityRoles
               (NewEntity.ListBody entity) line
        else ret tt
  end.

Definition parseAndHandleEntityV2 (NewEntities : list NewEntity.t) (log : bool)
  (locale : option string) : Parser unit :=
  forEach (handleNewEntity NewEntities log locale) NewEntities.

(** ** The declarations of the old syntax ([parseAndHandleEntity]) *)

(** The branch of the list entities ([entityType] ends with [=]). *)
Definition handleListEntity (entityName entityType : string)
  (entityRoles : list string) (synonymsList : list string) : Parser unit :=
  let parsedEntityTypeAndRole := getRolesAndType X entityType in
  let entityType := snd parsedEntityTypeAndRole in
  let entityRoles := pushNew entityRoles (fst parsedEntityTypeAndRole) in
  rolesImport <- VerifyAndUpdateSimpleEntityCollection entityName "List" ;;
  let entityRoles := pushNew entityRoles rolesImport in
  let normalizedValue :=
    Js.trim (String.substring 0 (String.length entityType - 1) entityType) in
  modify (fun L =>
    match filterMatch closedLists.name entityName (closedLists L) with
    | [] =>
        set_closedLists
          (closedLists L
             ++ [closedLists.mk entityName
                   [subList.mk normalizedValue synonymsList] entityRoles]) L
    | cl :: _ =>
        let subLists :=
          match filterMatch subList.canonicalForm normalizedValue
                  (closedLists.subLists cl) with
          | [] => closedLists.subLists cl
                  ++ [subList.mk normalizedValue synonymsList]
          | _ :: _ =>
              updateFirst (hasCanonicalForm normalizedValue)
                (pushSynonyms synonymsList) (closedLists.subLists cl)
          end in
        set_closedLists
          (updateFirst (hasName entityName)
             (fun cl => closedLists.mk (closedLists.name cl) subLists
                          (mergeRoles (closedLists.roles cl) entityRoles))
             (closedLists L)) L
    end).

(** The body of the loop of [parseAndHandleEntity]. *)
Definition handleEntity (log : bool) (locale : option string)
  (entity : Entity.t) : Parser unit :=
  let line := Entity.line entity in
  let entityName := Entity.Name entity in
  let parsedRoleAndType := getRolesAndType X (Entity.Type_ entity) in
  let entityRoles := fst parsedRoleAndType in
  let entityType := snd parsedRoleAndType in
  let pEntityName :=
    if String.eqb (Js.toLowerCase entityName) "prebuilt" then entityType
    else entityName in
  entityRoles <- absorbPatternAny pEntityName entityType entityRoles line ;;
  if Js.mem entityType (consolidatedList X)
  then handlePrebuiltEntity entityName entityType entityRoles locale log line
  else if String.eqb (Js.toLowerCase entityType) "simple"
  then modify (addItemOrRoleIfNotPresent ENTITIES entityName entityRoles)
  else if Js.endsWith entityType "="
  then
    if Js.includes entityType (QNAALTERATIONS X)
    then
      match Entity.SynonymsOrPhraseList entity with
      | _ :: _ =>
          fun pc =>
            (Returned tt,
             mkParserObj (LUISJsonStructure pc) (additionalFilesToParse pc)
               (wordAlterations pc
                  ++ [Entity.Name entity :: Entity.SynonymsOrPhraseList entity]))
      | [] =>
          throwDiagnostic SYNONYMS_NOT_A_LIST
            ("QnA alteration section: " +++ q +++ Entity.Name entity +++ q
             +++ " does not have list decoration. Prefix line with "
             +++ q +++ "-" +++ q +++ " or " +++ q +++ "+" +++ q +++ " or "
             +++ q +++ "*" +++ q)
            (Some line)
      end
    else handleListEntity entityName entityType entityRoles
           (Entity.SynonymsOrPhraseList entity)
  else if Js.startsWith (Js.trim (Js.toLowerCase entityType)) "phraselist"
  then handlePhraseList entityName (Some entityType) entityRoles
         (Entity.SynonymsOrPhraseList entity) line
  else if Js.startsWith entityType "["
  then handleComposite entityName entityType entityRoles line true
  else if Js.startsWith entityType "/"
  then
    if Js.endsWith entityType "/"
    then handleRegExEntity entityName (Some entityType) entityRoles line
    else
      (* the message is built from [regExEntity.name], and no variable
         [regExEntity] is in scope *)
      throw (ReferenceError "regExEntity")
  else ret tt.

Definition parseAndHandleEntity (Entities : list Entity.t) (log : bool)
  (locale : option string) : Parser unit :=
  forEach (handleEntity log locale) Entities.

(** ** The utterance and pattern resolver ([parseAndHandleIntent]) *)

Definition withEntity (entity : string) (role : option string)
  (e : parserEntity.t) : parserEntity.t :=
  parserEntity.mk entity role (parserEntity.type e) (parserEntity.value e)
    (parserEntity.startPos e) (parserEntity.endPos e).

(** [item.entityName == entity.entity]: the entries of the flat list have a
    [name], a [type] and [roles] and no property [entityName]; the
    comparison of [undefined] with a string fails. *)
Definition matchesEntityName (item : entityAndRoles.t) (entity : string) : bool :=
  false.

Definition handleAtPrefix (entity : parserEntity.t)
  (flatEntityAndRoles : option (list entityAndRoles.t)) : parserEntity.t :=
  if Js.startsWith (parserEntity.entity entity) "@"
  then
    let name := Js.trim (Js.dropLeadingAt (parserEntity.entity entity)) in
    let entity := withEntity name (parserEntity.role entity) entity in
    match flatEntityAndRoles with
    | Some flat =>
        match Js.find (fun item => matchesEntityName item name) flat with
        | Some _ => entity
        | None =>
            match Js.find (fun item => Js.mem name (entityAndRoles.roles item)) flat with
            | Some roleMatch =>
                withEntity (entityAndRoles.name roleMatch) (Some name) entity
            | None => entity
            end
        end
    | None => entity
    end
  else entity.

(** The callback of the [forEach] of [handleAtForPattern]; the label is
    mutated in place, so it is returned with the utterance.  The
    replacement text is taken literally (names are assumed to hold no
    dollar sign). *)
Definition rewriteAtReference (flatEntityAndRoles : option (list entityAndRoles.t))
  (acc : string * list parserEntity.t) (entity : parserEntity.t)
  : string * list parserEntity.t :=
  let (utterance, done) := acc in
  if Js.startsWith (parserEntity.entity entity) "@"
  then
    let entity := handleAtPrefix entity flatEntityAndRoles in
    let utterance :=
      match parserEntity.role entity with
      | Some role =>
          if negb (String.eqb (parserEntity.entity entity) "")
             && negb (String.eqb role "")
          then Js.replace ("{" +++ role +++ "}")
                 ("{" +++ parserEntity.entity entity +++ ":" +++ role +++ "}")
                 utterance
          else utterance
      | None => utterance
      end in
    (utterance, done ++ [entity])
  else (utterance, done ++ [entity]).

Definition handleAtForPattern (utterance : string)
  (entitiesFound : list parserEntity.t)
  (flatEntityAndRoles : option (list entityAndRoles.t))
  : string * list parserEntity.t :=
  if Js.includes utterance "{@"
  then fold_left (rewriteAtReference flatEntityAndRoles) entitiesFound
         (Js.replaceAllBraceAt utterance, [])
  else (utterance, entitiesFound).

Definition isPatternAny (item : parserEntity.t) : bool :=
  LUISObjNameEnum_eqb (parserEntity.type item) PATTERNANYENTITY.

(** [[entity.role.trim()]] *)
Definition trimmedRole (role : option string) : list string :=
  match role with
  | Some r => [Js.trim r]
  | None => []
  end.

Definition inCollection {T} `{Named T} (value : string) (c : list T) : bool :=
  existsb (hasName value) c.

(** The callback of the [forEach] of the pattern branch (lines 295 to
    327): a role goes to the record of the kind that has the name, and a
    name without kind becomes a pattern.any entity. *)
Definition registerPatternEntity (entity : parserEntity.t) (L : LUIS) : LUIS :=
  let name := parserEntity.entity entity in
  let role := parserEntity.role entity in
  let add (found : bool) (type : LUISObjNameEnum) (L : LUIS) : LUIS :=
    if found && Js.truthy role
    then addItemOrRoleIfNotPresent type name (trimmedRole role) L
    else L in
  let simpleEntityInMaster := inCollection name (entities L) in
  let L := add simpleEntityInMaster ENTITIES L in
  let compositeInMaster := inCollection name (composites L) in
  let L := add compositeInMaster COMPOSITES L in
  let listEntityInMaster := inCollection name (closedLists L) in
  let L := add listEntityInMaster CLOSEDLISTS L in
  let regexEntityInMaster := inCollection name (regex_entities L) in
  let L := add regexEntityInMaster REGEX L in
  let prebuiltInMaster := inCollection name (prebuiltEntities L) in
  let L := add prebuiltInMaster PREBUILT L in
  if negb simpleEntityInMaster && negb compositeInMaster
     && negb listEntityInMaster && negb regexEntityInMaster
     && negb prebuiltInMaster
  then
    if Js.truthy role
    then addItemOrRoleIfNotPresent PATTERNANYENTITY name (trimmedRole role) L
    else addItemIfNotPresent PATTERNANYENTITY name L
  else L.

Definition samePattern (a b : pattern.t) : bool :=
  String.eqb (pattern.pattern a) (pattern.pattern b)
  && String.eqb (pattern.intent a) (pattern.intent b).

Definition mixedMessage (context : string) : string :=
  "Utterance " +++ q +++ context +++ q
  +++ " has mix of entites with labelled values and ones without. Please update utterance to either include labelled values for all entities or remove labelled values from all entities.".

(** Lines 277 to 327: the line has a label of type pattern.any. *)
Definition handlePatternLine (intentName utterance : string)
  (entitiesFound : list parserEntity.t) (context : string) : Parser unit :=
  flat <- gets flatListOfEntityAndRoles ;;
  let (utterance, entitiesFound) :=
    handleAtForPattern utterance entitiesFound flat in
  let mixedEntity := filter (fun item => negb (isPatternAny item)) entitiesFound in
  match mixedEntity with
  | _ :: _ => throwDiagnostic INVALID_INPUT (mixedMessage context) (Some context)
  | [] =>
      let newPattern := pattern.mk utterance intentName in
      modify (fun L =>
        if existsb (samePattern newPattern) (patterns L) then L
        else set_patterns (patterns L ++ [newPattern]) L) ;;
      forEach (fun entity => modify (registerPatternEntity entity)) entitiesFound
  end.

Definition needsRoleMessage (entity kind : string) : string :=
  entity +++ " has been defined as a " +++ kind
  +++ " entity type. It cannot be explicitly included in a labelled utterance unless the label includes a role.".

(** The callback of the [forEach] of lines 329 to 430; the label, which
    [handleAtPrefix] mutates, is returned. *)
Definition resolveLabel (utterance context : string) (entity : parserEntity.t)
  : Parser parserEntity.t :=
  flat <- gets flatListOfEntityAndRoles ;;
  let entity := handleAtPrefix entity flat in
  let name := parserEntity.entity entity in
  let role := parserEntity.role entity in
  L <- gets (fun L => L) ;;
  (if inCollection name (model_features L)
      && negb (Js.mem name
                 (map itemObj.name (entities L)
                  ++ map itemObj.name (prebuiltEntities L)
                  ++ map closedLists.name (closedLists L)
                  ++ map regExEntity.name (regex_entities L)
                  ++ map modelObj.name (model_features L)
                  ++ map compositeEntity.name (composites L)))
   then throwDiagnostic INVALID_INPUT
          ("Utterance " +++ q +++ utterance +++ q
           +++ " has invalid reference to Phrase List entity " +++ q
           +++ name +++ q
           +++ ". Phrase list entities cannot be given an explicit labelled value.")
          (Some context)
   else ret tt) ;;
  let compositeExists := inCollection name (composites L) in
  let listExists := inCollection name (closedLists L) in
  let prebuiltExists := inCollection name (prebuiltEntities L) in
  let regexExists := inCollection name (regex_entities L) in
  let patternAnyExists := findByName name (patternAnyEntities L) in
  let withRole (type : LUISObjNameEnum) (kind : string) : Parser unit :=
    if Js.truthy role
    then modify (addItemOrRoleIfNotPresent type name (trimmedRole role))
    else throwDiagnostic INVALID_INPUT (needsRoleMessage name kind) (Some context) in
  (if compositeExists
   then
     if Js.truthy role
     then modify (addItemOrRoleIfNotPresent COMPOSITES name (trimmedRole role))
     else ret tt
   else if listExists then withRole CLOSEDLISTS "LIST"
   else if prebuiltExists then withRole PREBUILT "PREBUILT"
   else if regexExists then withRole REGEX "Regex"
   else
     match patternAnyExists with
     | Some PA =>
         if negb (String.eqb (parserEntity.value entity) "")
         then
           let roles :=
             (if Js.truthy role && Js.truthy (option_map Js.trim role)
              then trimmedRole role else [])
             ++ patternAnyEntity.roles PA in
           modify (addItemOrRoleIfNotPresent ENTITIES name roles) ;;
           modify (fun L =>
             match Js.findIndex (hasName name) (patternAnyEntities L) with
             | Some patternAnyIdx =>
                 set_patternAnyEntities
                   (Js.splice patternAnyIdx (patternAnyEntities L)) L
             | None => L
             end)
         else if Js.truthy role
         then modify (addItemOrRoleIfNotPresent PATTERNANYENTITY name
                        (trimmedRole role))
         else ret tt
     | None =>
         if Js.truthy role
         then modify (addItemOrRoleIfNotPresent ENTITIES name (trimmedRole role))
         else modify (addItemIfNotPresent ENTITIES name)
     end) ;;
  ret entity.

Fixpoint mapM {A B} (f : A -> Parser B) (a : list A) : Parser (list B) :=
  match a with
  | x :: t => y <- f x ;; r <- mapM f t ;; ret (y :: r)
  | [] => ret []
  end.

Definition labelOf (item : parserEntity.t) : utteranceEntity.t :=
  utteranceEntity.mk (parserEntity.entity item) (parserEntity.startPos item)
    (parserEntity.endPos item)
    (if Js.truthy (parserEntity.role item)
     then option_map Js.trim (parserEntity.role item) else None).

(** The loop of lines 435 to 451: the labels pushed, and the label that
    has no value, where the loop throws. *)
Fixpoint labelsOf (entitiesFound : list parserEntity.t)
  : list utteranceEntity.t * option parserEntity.t :=
  match entitiesFound with
  | item :: t =>
      if (parserEntity.endPos item <? parserEntity.startPos item)%Z
      then ([], Some item)
      else let (pushed, bad) := labelsOf t in (labelOf item :: pushed, bad)
  | [] => ([], None)
  end.

Definition sameUtterance (utterance intentName : string) (item : uttereances.t)
  : bool :=
  String.eqb (uttereances.text item) utterance
  && String.eqb (uttereances.intent item) intentName.

(** Lines 329 to 452: the line has labels and none is pattern.any. *)
Definition handleLabelledLine (intentName utterance : string)
  (entitiesFound : list parserEntity.t) (context : string) : Parser unit :=
  entitiesFound <- mapM (resolveLabel utterance context) entitiesFound ;;
  utteranceExists <-
    gets (fun L => Js.find (sameUtterance utterance intentName) (utterances L)) ;;
  let (pushed, bad) := labelsOf entitiesFound in
  let missing (item : parserEntity.t) : Parser unit :=
    throwDiagnostic MISSING_LABELLED_VALUE
      ("No labelled value found for entity: " +++ q +++ parserEntity.entity item
       +++ q +++ " in utterance: " +++ q +++ context +++ q)
      (Some context) in
  match utteranceExists with
  | Some _ =>
      modify (fun L =>
        set_utterances
          (updateFirst (sameUtterance utterance intentName)
             (fun u => uttereances.mk (uttereances.text u) (uttereances.intent u)
                         (uttereances.entities u ++ pushed))
             (utterances L)) L) ;;
      match bad with
      | Some item => missing item
      | None => ret tt
      end
  | None =>
      match bad with
      | Some item => missing item
      | None =>
          modify (fun L =>
            set_utterances
              (utterances L ++ [uttereances.mk utterance intentName pushed]) L)
      end
  end.

(** Lines 455 to 466: the line has no label. *)
Definition handleUnlabelledLine (intentName utterance : string) : Parser unit :=
  if isUtterancePattern X utterance
  then modify (fun L =>
         set_patterns (patterns L ++ [pattern.mk utterance intentName]) L)
  else modify (fun L =>
         if existsb (sameUtterance utterance intentName) (utterances L) then L
         else set_utterances
                (utterances L ++ [uttereances.mk utterance intentName []]) L).

(** Lines 267 to 271: a line that is a link is also a file to parse. *)
Definition handleLinkRef (utterance : string) : Parser unit :=
  if isUtteranceLinkRef X utterance
  then
    match parseLinkURI X utterance with
    | inl e => throw e
    | inr luFile =>
        fun pc =>
          (Returned tt,
           mkParserObj (LUISJsonStructure pc)
             (additionalFilesToParse pc ++ [fileToParse.mk luFile false])
             (wordAlterations pc))
    end
  else ret tt.

(** The body of the loop over the lines of an intent. *)
Definition handleUtteranceAndEntities (intentName : string)
  (utteranceAndEntities : UtteranceAndEntities.t) : Parser unit :=
  let utterance := Js.trim (UtteranceAndEntities.utterance utteranceAndEntities) in
  let entitiesFound := UtteranceAndEntities.entities utteranceAndEntities in
  let context := UtteranceAndEntities.context utteranceAndEntities in
  handleLinkRef utterance ;;
  match entitiesFound with
  | _ :: _ =>
      if existsb isPatternAny entitiesFound
      then handlePatternLine intentName utterance entitiesFound context
      else handleLabelledLine intentName utterance entitiesFound context
  | [] => handleUnlabelledLine intentName utterance
  end.

(** The body of the loop of [parseAndHandleIntent]. *)
Definition handleIntent (intent : Intent.t) : Parser unit :=
  let intentName := Intent.Name intent in
  modify (addItemIfNotPresent INTENT intentName) ;;
  forEach (handleUtteranceAndEntities intentName)
    (Intent.UtteranceAndEntitiesMap intent).

Definition parseAndHandleIntent (Intents : list Intent.t) : Parser unit :=
  forEach handleIntent Intents.

(** ** Sequences of operations *)

(** One declaration of either syntax, or one intent section. *)
Inductive operation : Type :=
| declareV2 (siblings : list NewEntity.t) (entity : NewEntity.t)
| resolve (intent : Intent.t)
| declare (entity : Entity.t).

Definition perform (log : bool) (locale : option string) (op : operation)
  : Parser unit :=
  match op with
  | declareV2 siblings entity => handleNewEntity siblings log locale entity
  | resolve intent => handleIntent intent
  | declare entity => handleEntity log locale entity
  end.

(** The operations are performed in order; the first exception ends the
    parse. *)
Definition performAll (log : bool) (locale : option string)
  (ops : list operation) : Parser unit :=
  forEach (perform log locale) ops.

End Handlers.

(** * The vocabulary of the properties *)

(** Sample values of what the parser takes from outside, for the runs on
    concrete inputs: a diagnostic is the context followed by the message; a
    line is a pattern when it has a brace ("contains an unlabelled {name}
    placeholder", section 4.3); no line is a link; no type is prebuilt. *)
Definition sampleExternals : Externals := {|
  BuildDiagnostic := fun message context =>
    match context with
    | Some c => c +++ ": " +++ message
    | None => message
    end;
  isUtterancePattern := fun utterance => Js.includes utterance "{";
  isUtteranceLinkRef := fun _ => false;
  parseLinkURI := fun utterance => inr utterance;
  getRolesAndType := fun entityType => ([], entityType);
  consolidatedList := [];
  perLocaleAvailability := fun _ => None;
  QNAALTERATIONS := "qna-alterations"
|}.

(** The three collisions of a declaration with the flat list: the name is
    there with another type, the name is a role there, or one of the new
    roles is a name or a role there. *)
Definition collides (flat : list entityAndRoles.t)
  (entityName entityType : string) (newRoles : list string) : Prop :=
  (exists item, In item flat /\ entityAndRoles.name item = entityName
                /\ entityAndRoles.type item <> entityType)
  \/ (exists item, In item flat /\ In entityName (entityAndRoles.roles item))
  \/ (exists role item, In role newRoles /\ In item flat
        /\ (entityAndRoles.name item = role
            \/ In role (entityAndRoles.roles item))).

(** A new parser object with the given flat list. *)
Definition flatOf (flat : list entityAndRoles.t) : parserObj :=
  onLUIS (set_flatListOfEntityAndRoles (Some flat)) newParserObj.

(** A label without role. *)
Definition labelOfType (entity : string) (type : LUISObjNameEnum) (value : string)
  : parserEntity.t :=
  parserEntity.mk entity None type value 0%Z 0%Z.

(** A line for which the front end gives no label. *)
Definition unlabelled (utterance : string) : UtteranceAndEntities.t :=
  UtteranceAndEntities.mk utterance [] ("- " +++ utterance).

(** The declaration [@ composite name = definition]. *)
Definition compositeDeclaration (name definition : string) : NewEntity.t :=
  NewEntity.mk name (Some EntityTypeEnum.COMPOSITE) None (Some definition) []
    None ("@ composite " +++ name +++ " = " +++ definition).

(** The declaration [$name:type] with its list of values. *)
Definition phraseList (name type : string) (values : list string) : Entity.t :=
  Entity.mk name type values ("$" +++ name +++ ":" +++ type).

(** The pattern.any entities of the registry. *)
Definition patternAnyOf (pc : parserObj) : list patternAnyEntity.t :=
  patternAnyEntities (LUISJsonStructure pc).

(** The declaration collides with the flat list that the registry has. *)
Definition refusedByRoleValidation (L : LUIS) (entityName entityType : string)
  (newRoles : list string) : Prop :=
  exists flat,
    flatListOfEntityAndRoles L = Some flat
    /\ collides flat entityName entityType newRoles.

(** The type that a declaration of the new syntax is handled with: its
    own, or the one of the first declaration of its name. *)
Definition typeOfDeclaration (siblings : list NewEntity.t) (entity : NewEntity.t)
  : option string :=
  if negb (Js.truthy (NewEntity.Type_ entity))
  then getEntityType (NewEntity.Name entity) siblings
  else NewEntity.Type_ entity.

(** The switch of [parseAndHandleEntityV2] (lines 580 to 619): what is done
    for a declaration once its roles are known. *)
Definition declareKind (X : Externals) (entity : NewEntity.t)
  (entityName entityType : string) (entityRoles : list string)
  (locale : option string) (log : bool) : Parser unit :=
  let line := NewEntity.line entity in
  if String.eqb entityType EntityTypeEnum.SIMPLE
  then modify (addItemOrRoleIfNotPresent ENTITIES entityName entityRoles)
  else if String.eqb entityType EntityTypeEnum.COMPOSITE
  then handleComposite X entityName
         ("[" +++ Js.join (candidateChildrenOf entity) +++ "]")
         entityRoles line false
  else if String.eqb entityType EntityTypeEnum.LIST
  then handleClosedList X entityName (NewEntity.ListBody entity) entityRoles line
  else if String.eqb entityType EntityTypeEnum.PATTERNANY
  then handlePatternAny X entityName entityRoles
  else if String.eqb entityType EntityTypeEnum.PREBUILT
  then handlePrebuiltEntity X "prebuilt" entityName entityRoles locale log line
  else if String.eqb entityType EntityTypeEnum.REGEX
  then
    if Js.truthy (hd_error (NewEntity.ListBody entity))
    then handleRegExEntity X entityName (hd_error (NewEntity.ListBody entity))
           entityRoles line
    else handleRegExEntity X entityName (NewEntity.RegexDefinition entity)
           entityRoles line
  else if String.eqb entityType EntityTypeEnum.ML
  then ret tt
  else if String.eqb entityType EntityTypeEnum.PHRASELIST
  then handlePhraseList X entityName None entityRoles
         (NewEntity.ListBody entity) line
  else ret tt.




(** [entityType.toLowerCase().trim().includes('phraselist')] *)
Definition isPhraseListType (entityType : string) : bool :=
  Js.includes (Js.trim (Js.toLowerCase entityType)) "phraselist".

(** A new parser object with the given pattern.any entities. *)
Definition withPatternAny (PAs : list patternAnyEntity.t) : parserObj :=
  onLUIS (set_patternAnyEntities PAs) newParserObj.

(** The regular expression entities of the registry. *)
Definition regexOfParser (pc : parserObj) : list regExEntity.t :=
  regex_entities (LUISJsonStructure pc).

(** The pattern that a declaration leaves in the record: the pattern held,
    unless it is empty. *)
Definition keptPattern (held : option regExEntity.t) (regex : string) : string :=
  match held with
  | Some re =>
      if String.eqb (regExEntity.regexPattern re) "" then regex
      else regExEntity.regexPattern re
  | None => regex
  end.

(** An intent whose utterances label [city] with two roles. *)
Definition labelledTwice : Intent.t :=
  Intent.mk "book"
    [UtteranceAndEntities.mk "fly from Seattle"
       [parserEntity.mk "city" (Some "from") ENTITIES "Seattle" 9%Z 15%Z]
       "- fly from {city:from=Seattle}";
     UtteranceAndEntities.mk "fly to Portland"
       [parserEntity.mk "city" (Some "constructor") ENTITIES "Portland" 7%Z 14%Z]
       "- fly to {city:constructor=Portland}"].

(** An intent whose utterance labels [zip] without a role. *)
Definition labelledZip : Intent.t :=
  Intent.mk "address"
    [UtteranceAndEntities.mk "my zip is 98052"
       [parserEntity.mk "zip" None ENTITIES "98052" 10%Z 14%Z]
       "- my zip is {zip=98052}"].

(** The declaration [@ patternany name hasRoles roles]. *)
Definition patternAnyDeclaration (name roles : string) : NewEntity.t :=
  NewEntity.mk name (Some EntityTypeEnum.PATTERNANY) (Some roles) None [] None
    ("@ patternany " +++ name +++ " hasRoles " +++ roles).

(** No two records of the collection have the same name. *)
Definition uniq {T} `{Named T} (c : list T) : Prop := NoDup (map nameOf c).

(** In each collection of the registry a name occurs at most once. *)
Definition uniqueNames (L : LUIS) : Prop :=
  uniq (intents L) /\ uniq (entities L) /\ uniq (composites L)
  /\ uniq (closedLists L) /\ uniq (regex_entities L)
  /\ uniq (prebuiltEntities L) /\ uniq (patternAnyEntities L)
  /\ uniq (model_features L).

(** The function keeps the names unique, whether it returns or throws. *)
Definition preserves {A} (c : Parser A) : Prop :=
  forall pc, uniqueNames (LUISJsonStructure pc) ->
             uniqueNames (LUISJsonStructure (snd (c pc))).

(** What is left of a list after removals. *)
Inductive remainder {A} : list A -> list A -> Prop :=
| remainder_nil : remainder [] []
| remainder_keep x a b : remainder a b -> remainder (x :: a) (x :: b)
| remainder_drop x a b : remainder a b -> remainder a (x :: b).

(** ** The vocabulary of the further properties *)

(** The function leaves [f] of the registry as it is, whether it returns or
    throws. *)
Definition leaves {A B} (f : LUIS -> A) (c : Parser B) : Prop :=
  forall pc, f (LUISJsonStructure (snd (c pc))) = f (LUISJsonStructure pc).

(** What the resolver works on and the declaration handlers leave alone:
    the patterns, the utterances and the flat list. *)
Definition resolverState (L : LUIS)
  : list pattern.t * list uttereances.t * option (list entityAndRoles.t) :=
  (patterns L, utterances L, flatListOfEntityAndRoles L).

(** What the intent sections record and the declarations leave alone. *)
Definition patternsAndUtterances (L : LUIS) : list pattern.t * list uttereances.t :=
  (patterns L, utterances L).

(** The function keeps the property [I] of the registry, whether it
    returns or throws. *)
Definition keeps {A} (I : LUIS -> Prop) (c : Parser A) : Prop :=
  forall pc, I (LUISJsonStructure pc) -> I (LUISJsonStructure (snd (c pc))).

(** The roles of the flat list, entry after entry. *)
Definition allRoles (flat : list entityAndRoles.t) : list string :=
  List.concat (map entityAndRoles.roles flat).

(** In the flat list no name is listed twice, no role is listed twice,
    whether under one name or under two, and a role that is also a name is
    a role of the entry of that name. *)
Definition disjoint (flat : list entityAndRoles.t) : Prop :=
  NoDup (map entityAndRoles.name flat)
  /\ NoDup (allRoles flat)
  /\ forall a b, In a flat -> In b flat ->
       In (entityAndRoles.name a) (entityAndRoles.roles b) ->
       entityAndRoles.name a = entityAndRoles.name b.

(** The flat list of the registry, when there is one, keeps names and
    roles apart. *)
Definition flatIsDisjoint (L : LUIS) : Prop :=
  match flatListOfEntityAndRoles L with
  | Some flat => disjoint flat
  | None => True
  end.

(** The declaration with another type. *)
Definition withType (type : option string) (entity : NewEntity.t) : NewEntity.t :=
  NewEntity.mk (NewEntity.Name entity) type (NewEntity.Roles entity)
    (NewEntity.CompositeDefinition entity) (NewEntity.ListBody entity)
    (NewEntity.RegexDefinition entity) (NewEntity.line entity).

(** What the declarations say, the roles apart: the composites with their
    children, the closed lists with their sublists, the regular expression
    entities with their patterns, the names of the prebuilt entities, and
    the phrase lists. *)
Definition declarations (L : LUIS)
  : list (string * list string) * list (string * list subList.t)
    * list (string * string) * list string * list modelObj.t :=
  (map (fun c => (compositeEntity.name c, compositeEntity.children c)) (composites L),
   map (fun c => (closedLists.name c, closedLists.subLists c)) (closedLists L),
   map (fun r => (regExEntity.name r, regExEntity.regexPattern r)) (regex_entities L),
   map itemObj.name (prebuiltEntities L),
   model_features L).

(** The record that a role is merged into is there. *)
Definition held (type : LUISObjNameEnum) (value : string) (L : LUIS) : bool :=
  match type with
  | COMPOSITES => inCollection value (composites L)
  | CLOSEDLISTS => inCollection value (closedLists L)
  | REGEX => inCollection value (regex_entities L)
  | PREBUILT => inCollection value (prebuiltEntities L)
  | _ => true
  end.

(** What identifies an utterance: its text and its intent. *)
Definition utteranceKey (u : uttereances.t) : string * string :=
  (uttereances.text u, uttereances.intent u).

(** No two utterances of the registry have the same text and the same
    intent. *)
Definition uniqueUtterances (L : LUIS) : Prop :=
  NoDup (map utteranceKey (utterances L)).

(** [entityType ? entityType : entityName] *)
Definition phraseListType (entityName : string) (entityType : option string)
  : string :=
  match entityType with
  | Some t => if Js.truthy entityType then t else entityName
  | None => entityName
  end.

(** The flag of the declaration. *)
Definition phraseListFlag (entityName : string) (entityType : option string)
  : bool :=
  Js.includes (Js.toLowerCase (phraseListType entityName entityType))
    "interchangeable".

(** The name under which the declaration is held. *)
Definition phraseListName (entityName : string) (entityType : option string)
  : string :=
  match entityType with
  | None => if phraseListFlag entityName entityType
            then Js.beforeParens (phraseListType entityName entityType)
            else entityName
  | Some _ => entityName
  end.

(** The values of the lines of the declaration. *)
Definition phraseListValues (valuesList : list string) : list string :=
  flat_map (fun phraseListValues =>
              map Js.trim (Js.split Js.isCommaOrSemicolon phraseListValues))
    valuesList.

(** The normalized values of a closed list. *)
Definition canonicalForms (cl : closedLists.t) : list string :=
  map subList.canonicalForm (closedLists.subLists cl).

(** In each closed list of the registry no two sublists have the same
    normalized value. *)
Definition distinctNormalizedValues (L : LUIS) : Prop :=
  Forall (fun cl => NoDup (canonicalForms cl)) (closedLists L).

(** The closed list and the sublist that is still to be pushed. *)
Definition pending (cl : closedLists.t) (nv : nvState) : Prop :=
  NoDup (canonicalForms cl)
  /\ match nv with
     | nvToAdd nvExists =>
         ~ In (subList.canonicalForm nvExists) (canonicalForms cl)
     | _ => True
     end.

(** [entityType.substring(0, entityType.length - 1).trim()] for the type
    that [getRolesAndType] gives. *)
Definition normalizedValueOf (X : Externals) (entityType : string) : string :=
  Js.trim (String.substring 0
             (String.length (snd (getRolesAndType X entityType)) - 1)
             (snd (getRolesAndType X entityType))).

(** The lines of the list start with synonyms. *)
Definition startsWithSynonyms (listLines : list string) : bool :=
  match listLines with
  | line :: _ => negb (Js.endsWith (Js.toLowerCase line) ":")
  | [] => false
  end.

(** The label ends where it starts or after. *)
Definition hasValue (label : utteranceEntity.t) : Prop :=
  (utteranceEntity.startPos label <= utteranceEntity.endPos label)%Z.

(** Every label of every utterance of the registry has a value. *)
Definition labelsHaveValues (L : LUIS) : Prop :=
  Forall (fun u => Forall hasValue (uttereances.entities u)) (utterances L).

(** Lines 131 to 138 of [parseLuAndQnaWithAntlr]: the declarations of the
    new syntax, then the intent sections, then the declarations of the old
    syntax of one file. *)
Definition entityAndIntentPasses (X : Externals) (NewEntities : list NewEntity.t)
  (Intents : list Intent.t) (Entities : list Entity.t) (log : bool)
  (locale : option string) : Parser unit :=
  parseAndHandleEntityV2 X NewEntities log locale ;;
  parseAndHandleIntent X Intents ;;
  parseAndHandleEntity X Entities log locale.

(** * Properties *)

(** ** The runtime functions on examples *)

Example trim_ex : Js.trim "  a b " = "a b".
Proof. reflexivity. Qed.
Example split_ex : Js.split Js.isComma "a,,b" = ["a"; ""; "b"].
Proof. reflexivity. Qed.
Example sort_ex : Js.sort ["b"; "a"; "c"; "a"] = ["a"; "a"; "b"; "c"].
Proof. reflexivity. Qed.
Example strip_ex : Js.stripQuotes "'ab'" = "ab".
Proof. reflexivity. Qed.
Example paren_ex : Js.beforeParens "pl(interchangeable)" = "pl".
Proof. reflexivity. Qed.
Example slice_ex : Js.sliceInner "/ab/" = "ab" /\ Js.sliceInner "/" = "" /\ Js.sliceInner "//" = "".
Proof. repeat split. Qed.

(** ** A scenario of the specification *)

(** [@ simple s1 sr1] followed by [@ list l1 hasRoles lr1,lr2 =] with the
    sublists [one: two,three] and [four: five,six] gives one simple entity
    and one list entity with two sublists. *)
Example simple_then_list :
  let s1 := NewEntity.mk "s1" (Some "simple") (Some "sr1") None [] None
              "@ simple s1 sr1" in
  let l1 := NewEntity.mk "l1" (Some "list") (Some "lr1,lr2") None
              ["one:"; "two,three"; "four:"; "five,six"] None
              "@ list l1 hasRoles lr1,lr2 =" in
  exists pc,
    parseAndHandleEntityV2 sampleExternals [s1; l1] false None newParserObj
    = (Returned tt, pc)
    /\ entities (LUISJsonStructure pc) = [itemObj.mk "s1" ["sr1"]]
    /\ closedLists (LUISJsonStructure pc)
       = [closedLists.mk "l1"
            [subList.mk "one" ["two"; "three"]; subList.mk "four" ["five"; "six"]]
            ["lr1"; "lr2"]].
Proof.
  eexists. repeat split; vm_compute; reflexivity.
Qed.

(** ** Arrays of strings *)

Lemma mem_In (x : string) (a : list string) : Js.mem x a = true <-> In x a.
Proof.
  unfold Js.mem. rewrite existsb_exists. split.
  - intros [y [Hy E]]. apply String.eqb_eq in E. now subst.
  - intros H. exists x. split; [assumption | apply String.eqb_refl].
Qed.

Lemma mem_false (x : string) (a : list string) : Js.mem x a = false <-> ~ In x a.
Proof.
  rewrite <- mem_In. destruct (Js.mem x a); split; congruence.
Qed.

Lemma pushNew_In (more roles : list string) (r : string) :
  In r (pushNew roles more) <-> In r roles \/ In r more.
Proof.
  unfold pushNew. revert roles.
  induction more as [|m more IH]; intros roles; simpl.
  - tauto.
  - rewrite IH. destruct (Js.mem m roles) eqn:E.
    + apply mem_In in E. split; [tauto|].
      intros [H|[H|H]]; subst; auto.
    + rewrite in_app_iff. simpl. tauto.
Qed.

Lemma pushNew_nil (roles : list string) : pushNew roles [] = roles.
Proof. reflexivity. Qed.

Lemma filter_none {A} (p : A -> bool) (a : list A) :
  (forall x, In x a -> p x = false) -> filter p a = [].
Proof.
  induction a as [|y a IH]; simpl; intros H; [reflexivity|].
  rewrite (H y (or_introl eq_refl)). apply IH. intros x Hx. apply H. now right.
Qed.

Lemma mergeRoles_In (src tgt : list string) (r : string) :
  In r (mergeRoles src tgt)
  <-> In r src \/ (In r tgt /\ ~ In r Js.objectPrototypeKeys).
Proof.
  unfold mergeRoles, rolesMapHas.
  rewrite in_app_iff, filter_In, negb_true_iff, orb_false_iff, !mem_false.
  destruct (in_dec string_dec r src); tauto.
Qed.

(** A second merge of the same roles adds nothing. *)
Lemma mergeRoles_idempotent (src tgt : list string) :
  mergeRoles (mergeRoles src tgt) tgt = mergeRoles src tgt.
Proof.
  unfold mergeRoles at 1.
  rewrite filter_none; [apply app_nil_r|].
  intros r Hr.
  rewrite negb_false_iff. unfold rolesMapHas.
  destruct (Js.mem r Js.objectPrototypeKeys) eqn:E; [apply orb_true_r|].
  rewrite orb_false_r. apply mem_In, mergeRoles_In.
  apply mem_false in E. destruct (Js.mem r src) eqn:E'.
  - left. now apply mem_In.
  - right. split; assumption.
Qed.

Lemma find_None {A} (p : A -> bool) (a : list A) :
  Js.find p a = None <-> forall x, In x a -> p x = false.
Proof.
  unfold Js.find. split.
  - intros H x. now apply find_none.
  - induction a as [|y a IH]; simpl; intros H; [reflexivity|].
    rewrite (H y (or_introl eq_refl)). apply IH. intros x Hx. apply H. now right.
Qed.

Lemma find_exists {A} (p : A -> bool) (a : list A) (x : A) :
  In x a -> p x = true -> exists y, Js.find p a = Some y.
Proof.
  intros Hin Hp. destruct (Js.find p a) eqn:E; [eauto|].
  rewrite find_None in E. rewrite (E x Hin) in Hp. discriminate.
Qed.

(** ** Sample values of what the parser takes from outside *)

(** ** Role validation (C1) *)

Lemma firstRoleClash_None (flat : list entityAndRoles.t) (newRoles : list string) :
  firstRoleClash flat newRoles = None ->
  forall role item, In role newRoles -> In item flat ->
    clashesWithRole role item = false.
Proof.
  induction newRoles as [|r t IH]; simpl; intros H role item Hr Hi; [contradiction|].
  destruct (Js.find (clashesWithRole r) flat) eqn:E; [discriminate|].
  destruct Hr as [->|Hr].
  - rewrite find_None in E. now apply E.
  - now apply IH.
Qed.

Lemma validateAndGetRoles_throw_keeps (X : Externals) (roles : option string)
  (line entityName entityType : string) (pc pc' : parserObj) (e : thrown) :
  validateAndGetRoles X roles line entityName entityType pc = (Threw e, pc') ->
  pc' = pc /\ exists text, e = exception INVALID_INPUT text.
Proof.
  unfold validateAndGetRoles, bind, gets, throwDiagnostic, throw, modify, ret.
  destruct (flatListOfEntityAndRoles (LUISJsonStructure pc)) as [flat|];
    [|discriminate].
  destruct (Js.find _ flat).
  - intros H. inversion H. eauto.
  - destruct (firstRoleClash flat (newRolesOf roles)).
    + intros H. inversion H. eauto.
    + discriminate.
Qed.

(** C1.  A declaration that collides with the flat list of entities and
    roles (its name is listed with another type, its name is a listed
    role, or one of its roles is a listed name or a listed role of any
    entity) is refused with an [INVALID_INPUT] exception that leaves the
    parser object as it was; and whenever role validation throws, the
    parser object, hence the flat list, is unchanged. *)
Theorem validateAndGetRoles_refuses_collisions (X : Externals)
  (roles : option string) (line entityName entityType : string)
  (pc : parserObj) (flat : list entityAndRoles.t) :
  flatListOfEntityAndRoles (LUISJsonStructure pc) = Some flat ->
  collides flat entityName entityType (newRolesOf roles) ->
  (exists text,
      validateAndGetRoles X roles line entityName entityType pc
      = (Threw (exception INVALID_INPUT text), pc))
  /\ (forall roles' line' name' type' pc0 e pc',
         validateAndGetRoles X roles' line' name' type' pc0 = (Threw e, pc') ->
         pc' = pc0).
Proof.
  intros Hflat Hc. split.
  - unfold validateAndGetRoles, bind, gets, throwDiagnostic, throw.
    rewrite Hflat.
    destruct (Js.find (clashesWithEntity entityName entityType) flat) eqn:E;
      [eauto|].
    rewrite find_None in E.
    destruct (firstRoleClash flat (newRolesOf roles)) eqn:F; [eauto|].
    exfalso. destruct Hc as [[item [Hi [Hn Ht]]]|[[item [Hi Hr]]|[role [item [Hr [Hi H]]]]]].
    + specialize (E item Hi). unfold clashesWithEntity, sameNameOtherType in E.
      apply orb_false_iff in E. destruct E as [E _].
      rewrite (proj2 (String.eqb_eq _ _) Hn) in E.
      rewrite (proj2 (String.eqb_neq _ _) Ht) in E. discriminate.
    + specialize (E item Hi). unfold clashesWithEntity in E.
      apply orb_false_iff in E. destruct E as [_ E].
      apply mem_false in E. contradiction.
    + pose proof (firstRoleClash_None _ _ F role item Hr Hi) as C.
      unfold clashesWithRole in C. apply orb_false_iff in C.
      destruct C as [C1 C2]. apply mem_false in C1.
      apply String.eqb_neq in C2. tauto.
  - intros roles' line' name' type' pc0 e pc' H.
    now apply validateAndGetRoles_throw_keeps in H.
Qed.

(** Entity [A] is declared; role [A] on entity [B] is refused. *)
Lemma validateAndGetRoles_refuses_collisions_witness :
  exists text,
    validateAndGetRoles sampleExternals (Some "A") "@ simple B hasRoles A"
      "B" "simple" (flatOf [entityAndRoles.mk "A" "simple" []])
    = (Threw (exception INVALID_INPUT text),
       flatOf [entityAndRoles.mk "A" "simple" []]).
Proof.
  refine (proj1 (@validateAndGetRoles_refuses_collisions sampleExternals
            (Some "A") "@ simple B hasRoles A" "B" "simple"
            (flatOf [entityAndRoles.mk "A" "simple" []])
            [entityAndRoles.mk "A" "simple" []] eq_refl _)).
  right. right. exists "A", (entityAndRoles.mk "A" "simple" []).
  simpl. auto.
Defined.

(** Entity [A] is declared; the declaration of entity [B] with the role [A]
    ends the parse with [INVALID_INPUT], and [B] is in no collection. *)
Example role_named_as_an_entity :
  let A := NewEntity.mk "A" (Some "simple") None None [] None "@ simple A" in
  let B := NewEntity.mk "B" (Some "simple") (Some "A") None [] None
             "@ simple B hasRoles A" in
  exists text pc,
    parseAndHandleEntityV2 sampleExternals [A; B] false None newParserObj
    = (Threw (exception INVALID_INPUT text), pc)
    /\ entities (LUISJsonStructure pc) = [itemObj.mk "A" []].
Proof.
  eexists. eexists. split; vm_compute; reflexivity.
Qed.

(** ** Lines with labels of type pattern.any (C2) *)

Lemma onLUIS_onLUIS (f g : LUIS -> LUIS) (pc : parserObj) :
  onLUIS g (onLUIS f pc) = onLUIS (fun L => g (f L)) pc.
Proof. reflexivity. Qed.

Lemma forEach_modify {A} (f : A -> LUIS -> LUIS) (a : list A) (pc : parserObj) :
  forEach (fun x => modify (f x)) a pc
  = (Returned tt, onLUIS (fun L => fold_left (fun L x => f x L) a L) pc).
Proof.
  revert pc. induction a as [|x a IH]; intros pc; simpl.
  - destruct pc; reflexivity.
  - unfold bind, modify at 1. rewrite IH. reflexivity.
Qed.

Lemma addItemOrRoleIfNotPresent_frame (type : LUISObjNameEnum) (value : string)
  (roles : list string) (L : LUIS) :
  patterns (addItemOrRoleIfNotPresent type value roles L) = patterns L
  /\ utterances (addItemOrRoleIfNotPresent type value roles L) = utterances L.
Proof. destruct type; split; reflexivity. Qed.

Lemma addItemIfNotPresent_frame (type : LUISObjNameEnum) (value : string)
  (L : LUIS) :
  patterns (addItemIfNotPresent type value L) = patterns L
  /\ utterances (addItemIfNotPresent type value L) = utterances L.
Proof. destruct type; split; reflexivity. Qed.

Lemma registerPatternEntity_frame (entity : parserEntity.t) (L : LUIS) :
  patterns (registerPatternEntity entity L) = patterns L
  /\ utterances (registerPatternEntity entity L) = utterances L.
Proof.
  unfold registerPatternEntity. cbv zeta.
  repeat match goal with
         | |- context [if ?b then _ else _] => destruct b
         end;
    split; reflexivity.
Qed.

Lemma registerAll_frame (es : list parserEntity.t) (L : LUIS) :
  patterns (fold_left (fun L x => registerPatternEntity x L) es L) = patterns L
  /\ utterances (fold_left (fun L x => registerPatternEntity x L) es L)
     = utterances L.
Proof.
  revert L. induction es as [|e es IH]; intros L; simpl; [split; reflexivity|].
  destruct (IH (registerPatternEntity e L)) as [-> ->].
  apply registerPatternEntity_frame.
Qed.

Lemma handleAtPrefix_type (entity : parserEntity.t)
  (flat : option (list entityAndRoles.t)) :
  parserEntity.type (handleAtPrefix entity flat) = parserEntity.type entity.
Proof.
  unfold handleAtPrefix.
  repeat match goal with
         | |- context [if ?b then _ else _] => destruct b
         | |- context [match ?o with Some _ => _ | None => _ end] => destruct o
         end; reflexivity.
Qed.

Lemma rewriteAtReference_types (flat : option (list entityAndRoles.t))
  (es : list parserEntity.t) (acc : string * list parserEntity.t) :
  map parserEntity.type (snd (fold_left (rewriteAtReference flat) es acc))
  = map parserEntity.type (snd acc) ++ map parserEntity.type es.
Proof.
  revert acc. induction es as [|e es IH]; intros [u done]; simpl.
  - now rewrite app_nil_r.
  - rewrite IH. destruct (Js.startsWith (parserEntity.entity e) "@"); simpl;
      rewrite map_app, <- app_assoc; simpl; now rewrite ?handleAtPrefix_type.
Qed.

Lemma handleAtForPattern_types (utterance : string) (es : list parserEntity.t)
  (flat : option (list entityAndRoles.t)) :
  map parserEntity.type (snd (handleAtForPattern utterance es flat))
  = map parserEntity.type es.
Proof.
  unfold handleAtForPattern. destruct (Js.includes utterance "{@"); [|reflexivity].
  now rewrite rewriteAtReference_types.
Qed.

Lemma filter_by_type (p : LUISObjNameEnum -> bool) (a b : list parserEntity.t) :
  map parserEntity.type a = map parserEntity.type b ->
  map parserEntity.type (filter (fun item => p (parserEntity.type item)) a)
  = map parserEntity.type (filter (fun item => p (parserEntity.type item)) b).
Proof.
  revert b. induction a as [|x a IH]; intros [|y b]; simpl; try discriminate;
    [reflexivity|].
  intros H. injection H as Hxy Hab. rewrite Hxy.
  destruct (p (parserEntity.type y)); simpl; [f_equal; [assumption|]|]; now apply IH.
Qed.

(** The labels that are not of type pattern.any, before and after
    [handleAtForPattern]. *)
Lemma mixedEntity_nil (utterance : string) (es : list parserEntity.t)
  (flat : option (list entityAndRoles.t)) :
  filter (fun item => negb (isPatternAny item))
    (snd (handleAtForPattern utterance es flat)) = []
  <-> forallb isPatternAny es = true.
Proof.
  pose proof (filter_by_type
                (fun t => negb (LUISObjNameEnum_eqb t PATTERNANYENTITY))
                _ _ (handleAtForPattern_types utterance es flat)) as H.
  cbv beta in H. unfold isPatternAny. split.
  - intros E. rewrite E in H. simpl in H. symmetry in H.
    apply map_eq_nil in H. clear E.
    induction es as [|e es IH]; simpl in *; [reflexivity|].
    destruct (LUISObjNameEnum_eqb (parserEntity.type e) PATTERNANYENTITY);
      simpl in *; [now apply IH | discriminate].
  - intros E.
    assert (F : filter (fun item =>
                  negb (LUISObjNameEnum_eqb (parserEntity.type item) PATTERNANYENTITY))
                  es = []).
    { apply filter_none. intros x Hx. rewrite forallb_forall in E.
      now rewrite (E x Hx). }
    rewrite F in H. simpl in H. now apply map_eq_nil in H.
Qed.

Lemma append_assoc (a b c : string) : (a +++ b) +++ c = a +++ (b +++ c).
Proof. induction a as [|x a IH]; simpl; [reflexivity | now rewrite IH]. Qed.

(** The message of the exception names the mix of labelled and unlabelled
    entities (with the spelling of the source). *)
Lemma mixedMessage_cites (context : string) :
  exists before after,
    mixedMessage context
    = before +++ "has mix of entites with labelled values" +++ after.
Proof.
  exists ("Utterance " +++ q +++ context +++ q +++ " "),
    " and ones without. Please update utterance to either include labelled values for all entities or remove labelled values from all entities.".
  unfold mixedMessage. rewrite !append_assoc. reflexivity.
Qed.

(** C2.  On a line with labels of which at least one is of type
    pattern.any: when some label is not of that type the parse throws an
    [INVALID_INPUT] exception whose message cites the mix of entities with
    labelled values; when all are, the line is added to the patterns unless
    an equal pattern (same text, same intent) is there, and the utterances
    are left alone. *)
Theorem pattern_any_labels_must_not_be_mixed (X : Externals)
  (intentName : string) (line : UtteranceAndEntities.t) (pc pc1 : parserObj) :
  let utterance := Js.trim (UtteranceAndEntities.utterance line) in
  let entitiesFound := UtteranceAndEntities.entities line in
  let context := UtteranceAndEntities.context line in
  handleLinkRef X utterance pc = (Returned tt, pc1) ->
  existsb isPatternAny entitiesFound = true ->
  (forallb isPatternAny entitiesFound = false ->
   handleUtteranceAndEntities X intentName line pc
   = (Threw (exception INVALID_INPUT
               (BuildDiagnostic X (mixedMessage context) (Some context))), pc1)
   /\ exists before after,
        mixedMessage context
        = before +++ "has mix of entites with labelled values" +++ after)
  /\ (forallb isPatternAny entitiesFound = true ->
      let newPattern :=
        pattern.mk
          (fst (handleAtForPattern utterance entitiesFound
                  (flatListOfEntityAndRoles (LUISJsonStructure pc1))))
          intentName in
      exists pc2,
        handleUtteranceAndEntities X intentName line pc = (Returned tt, pc2)
        /\ patterns (LUISJsonStructure pc2)
           = (if existsb (samePattern newPattern) (patterns (LUISJsonStructure pc1))
              then patterns (LUISJsonStructure pc1)
              else patterns (LUISJsonStructure pc1) ++ [newPattern])
        /\ utterances (LUISJsonStructure pc2) = utterances (LUISJsonStructure pc1)).
Proof.
  intros utterance entitiesFound context Hlink Hany.
  assert (Hrun : handleUtteranceAndEntities X intentName line pc
                 = handlePatternLine X intentName utterance entitiesFound context pc1).
  { unfold handleUtteranceAndEntities, bind.
    fold utterance entitiesFound context. rewrite Hlink.
    destruct entitiesFound; [discriminate|]. now rewrite Hany. }
  rewrite Hrun. clear Hrun.
  unfold handlePatternLine, bind, gets.
  pose proof (mixedEntity_nil utterance entitiesFound
                (flatListOfEntityAndRoles (LUISJsonStructure pc1))) as Hmix.
  destruct (handleAtForPattern utterance entitiesFound
              (flatListOfEntityAndRoles (LUISJsonStructure pc1)))
    as [utterance' entitiesFound'].
  simpl in Hmix. split.
  - intros Hnot.
    destruct (filter (fun item => negb (isPatternAny item)) entitiesFound') eqn:E.
    + rewrite (proj1 Hmix eq_refl) in Hnot. discriminate.
    + split; [reflexivity | apply mixedMessage_cites].
  - intros Hall. rewrite (proj2 Hmix Hall). cbv iota beta.
    unfold bind, modify at 1. rewrite forEach_modify.
    eexists. split; [reflexivity|].
    simpl.
    match goal with
    | |- context [fold_left ?f ?es ?L] =>
        destruct (registerAll_frame es L) as [-> ->]
    end.
    destruct (existsb _ (patterns (LUISJsonStructure pc1))); split; reflexivity.
Qed.

(** A pattern.any label and a simple label on one line. *)
Lemma pattern_any_labels_must_not_be_mixed_witness :
  handleUtteranceAndEntities sampleExternals "greet"
    (UtteranceAndEntities.mk "hi {name} from {city=Seattle}"
       [labelOfType "name" PATTERNANYENTITY ""; labelOfType "city" ENTITIES "Seattle"]
       "- hi {name} from {city=Seattle}")
    newParserObj
  = (Threw (exception INVALID_INPUT
              (BuildDiagnostic sampleExternals
                 (mixedMessage "- hi {name} from {city=Seattle}")
                 (Some "- hi {name} from {city=Seattle}"))), newParserObj).
Proof.
  exact (proj1 (proj1 (@pattern_any_labels_must_not_be_mixed sampleExternals "greet"
            (UtteranceAndEntities.mk "hi {name} from {city=Seattle}"
               [labelOfType "name" PATTERNANYENTITY "";
                labelOfType "city" ENTITIES "Seattle"]
               "- hi {name} from {city=Seattle}")
            newParserObj newParserObj eq_refl eq_refl) eq_refl)).
Defined.

(** ** Lines without labels (C9) *)

(** A plain utterance is added once. *)
Lemma unlabelled_utterance_added_once (X : Externals) (intentName utterance : string)
  (pc : parserObj) :
  isUtterancePattern X utterance = false ->
  existsb (sameUtterance utterance intentName) (utterances (LUISJsonStructure pc)) = true ->
  handleUnlabelledLine X intentName utterance pc = (Returned tt, pc).
Proof.
  intros Hp He. unfold handleUnlabelledLine, modify, onLUIS.
  rewrite Hp, He. destruct pc; reflexivity.
Qed.

(** A pattern is pushed whether or not it is there. *)
Lemma unlabelled_pattern_always_pushed (X : Externals) (intentName utterance : string)
  (pc : parserObj) :
  isUtterancePattern X utterance = true ->
  handleUnlabelledLine X intentName utterance pc
  = (Returned tt,
     onLUIS (fun L => set_patterns (patterns L ++ [pattern.mk utterance intentName]) L)
       pc).
Proof. intros Hp. unfold handleUnlabelledLine. now rewrite Hp. Qed.

(** C9.  The same unlabelled pattern line, given twice under one intent,
    makes two entries in the patterns: the branch of the unlabelled
    patterns pushes without the test for an equal pattern that the branch
    of the labelled ones makes. *)
Theorem unlabelled_pattern_line_is_added_twice :
  let intent :=
    Intent.mk "greet" [unlabelled "hi {name}"; unlabelled "hi {name}"] in
  exists pc,
    handleIntent sampleExternals intent newParserObj = (Returned tt, pc)
    /\ patterns (LUISJsonStructure pc)
       = [pattern.mk "hi {name}" "greet"; pattern.mk "hi {name}" "greet"]
    /\ utterances (LUISJsonStructure pc) = [].
Proof. eexists. repeat split. Qed.

(** ** Merging roles into a record of the same kind (C4) *)

Lemma find_updateFirst {A} (p : A -> bool) (f : A -> A) (a : list A) :
  (forall x, p x = true -> p (f x) = true) ->
  Js.find p (updateFirst p f a) = option_map f (Js.find p a).
Proof.
  intros Hf. induction a as [|x a IH]; simpl; [reflexivity|].
  destruct (p x) eqn:E; simpl.
  - now rewrite (Hf x E).
  - now rewrite E.
Qed.

Lemma existsb_find {A} (p : A -> bool) (a : list A) :
  existsb p a = match Js.find p a with Some _ => true | None => false end.
Proof.
  induction a as [|x a IH]; simpl; [reflexivity|].
  destruct (p x); [reflexivity | assumption].
Qed.

Lemma hasName_setRoles {T} `{Item T} (value : string) (r : list string) (x : T) :
  hasName value (setRoles r x) = hasName value x.
Proof. unfold hasName. now rewrite nameOf_setRoles. Qed.

(** The record found is given the merged roles. *)
Lemma upsert_existing {T} `{Item T} (value : string) (roles : list string)
  (c : list T) (item : T) :
  findByName value c = Some item ->
  findByName value (upsert value roles c)
  = Some (setRoles (mergeRoles (rolesOf item) roles) item)
  /\ map nameOf (upsert value roles c) = map nameOf c.
Proof.
  unfold findByName, upsert. intros Hf.
  rewrite existsb_find, Hf. split.
  - rewrite find_updateFirst, Hf; [reflexivity|].
    intros x Hx. now rewrite hasName_setRoles.
  - clear Hf. induction c as [|x c IH]; simpl; [reflexivity|].
    destruct (hasName value x); simpl; [now rewrite nameOf_setRoles|].
    now rewrite IH.
Qed.

Lemma updateFirst_twice {A} (p : A -> bool) (f : A -> A) (a : list A) :
  (forall x, p x = true -> p (f x) = true /\ f (f x) = f x) ->
  updateFirst p f (updateFirst p f a) = updateFirst p f a.
Proof.
  intros Hf. induction a as [|x a IH]; simpl; [reflexivity|].
  destruct (p x) eqn:E; simpl.
  - destruct (Hf x E) as [-> ->]. reflexivity.
  - now rewrite E, IH.
Qed.

Lemma existsb_updateFirst {A} (p : A -> bool) (f : A -> A) (a : list A) :
  (forall x, p x = true -> p (f x) = true) ->
  existsb p (updateFirst p f a) = existsb p a.
Proof.
  intros Hf. rewrite !existsb_find, find_updateFirst by assumption.
  now destruct (Js.find p a).
Qed.

(** Merging the same roles twice is merging them once. *)
Lemma upsert_idempotent {T} `{Item T}
  (setRoles_setRoles : forall r r' (x : T), setRoles r (setRoles r' x) = setRoles r x)
  (rolesOf_setRoles : forall r (x : T), rolesOf (setRoles r x) = r)
  (value : string) (roles : list string) (c : list T) :
  existsb (hasName value) c = true ->
  upsert value roles (upsert value roles c) = upsert value roles c.
Proof.
  intros He.
  assert (U : upsert value roles c
              = updateFirst (hasName value)
                  (fun item => setRoles (mergeRoles (rolesOf item) roles) item) c).
  { unfold upsert. now rewrite He. }
  rewrite U. unfold upsert.
  rewrite existsb_updateFirst, He.
  - apply updateFirst_twice. intros x Hx. split.
    + now rewrite hasName_setRoles.
    + now rewrite rolesOf_setRoles, setRoles_setRoles, mergeRoles_idempotent.
  - intros x Hx. now rewrite hasName_setRoles.
Qed.

(** C4.  A role whose name is a property that every object inherits
    ([constructor], [toString], ...) is not merged into the roles of an
    existing entity: [mergeRoles] reads the role in an object literal,
    finds the inherited property and takes the role for one it has.  The
    sibling merges, which ask [roles.includes(role)], add such a role.  Two
    utterances that label [city] with the roles [from] and [constructor]
    leave the entity with the role [from] alone. *)
Theorem mergeRoles_misses_inherited_property_names :
  let L := set_entities [itemObj.mk "x" ["from"]] emptyLUIS in
  entities (addItemOrRoleIfNotPresent ENTITIES "x" ["constructor"] L)
  = [itemObj.mk "x" ["from"]]
  /\ entities (addItemOrRoleIfNotPresent ENTITIES "x" ["to"] L)
     = [itemObj.mk "x" ["from"; "to"]]
  /\ pushNew ["from"] ["constructor"] = ["from"; "constructor"]
  /\ exists pc,
       handleIntent sampleExternals labelledTwice newParserObj = (Returned tt, pc)
       /\ entities (LUISJsonStructure pc) = [itemObj.mk "city" ["from"]].
Proof.
  repeat split. eexists. split; vm_compute; reflexivity.
Qed.

(** ** Composite entities (C5) *)

(** A declaration that requires the children inline and has none is
    refused. *)
Lemma composite_without_children (X : Externals) (entityName entityType : string)
  (entityRoles : list string) (currentLine : string) (pc : parserObj) :
  childDefinitionOf entityType = "" ->
  exists text pc',
    handleComposite X entityName entityType entityRoles currentLine true pc
    = (Threw (exception INVALID_COMPOSITE_ENTITY text), pc').
Proof.
  intros Hc. unfold handleComposite, bind, gets, throwDiagnostic, throw, modify, ret.
  rewrite Hc. simpl.
  destruct (findByName entityName (entities (LUISJsonStructure pc))); eauto.
Qed.

(** C5.  The declaration [@ composite c = [a, b]] is accepted once and,
    with the children in the other order, a second time; the second
    declaration pushes its children after those that the record holds, so
    that the record then holds [a, b, a, b], and a third declaration of the
    same children is refused with [INVALID_COMPOSITE_ENTITY]. *)
Theorem composite_redeclared_twice_is_refused :
  let first := compositeDeclaration "c" "[a, b]" in
  let second := compositeDeclaration "c" "[b, a]" in
  let declare d := declareV2 [] d in
  (exists pc,
      performAll sampleExternals false None [declare first; declare second]
        newParserObj = (Returned tt, pc)
      /\ composites (LUISJsonStructure pc)
         = [compositeEntity.mk "c" ["a"; "b"; "a"; "b"] []])
  /\ (exists text pc,
         performAll sampleExternals false None
           [declare first; declare second; declare first] newParserObj
         = (Threw (exception INVALID_COMPOSITE_ENTITY text), pc)).
Proof.
  split.
  - eexists. split; reflexivity.
  - eexists. eexists. reflexivity.
Qed.

(** ** Phrase lists (C8) *)

(** C8.  A phrase list declared interchangeable and declared again without
    the flag: the parse ends with a [ReferenceError], not with an
    [INVALID_INPUT] exception, because the diagnostic is built from a
    variable [entity] that the handler does not have.  With the same flag,
    a value that is a part of the words already held ([apple] in
    [apple pie]) is not appended: the test is made on the comma-joined
    string. *)
Theorem phrase_list_flag_conflict_is_a_ReferenceError :
  (exists pc,
      performAll sampleExternals false None
        [declare (phraseList "pl" "phraseList interchangeable" ["a,b"]);
         declare (phraseList "pl" "phraseList" ["c"])]
        newParserObj
      = (Threw (ReferenceError "entity"), pc))
  /\ (exists pc,
         performAll sampleExternals false None
           [declare (phraseList "fruit" "phraseList" ["apple pie"]);
            declare (phraseList "fruit" "phraseList" ["apple,pear"])]
           newParserObj
         = (Returned tt, pc)
         /\ model_features (LUISJsonStructure pc)
            = [modelObj.mk "fruit" false "apple pie,pear" true]).
Proof.
  split.
  - eexists. reflexivity.
  - eexists. split; reflexivity.
Qed.

(** ** The first match of an array *)

Lemma find_split {A} (p : A -> bool) (a : list A) (x : A) :
  Js.find p a = Some x ->
  exists before after i,
    a = before ++ x :: after
    /\ Js.findIndex p a = Some i
    /\ Js.splice i a = before ++ after
    /\ p x = true
    /\ forall y, In y before -> p y = false.
Proof.
  induction a as [|y a IH]; simpl; [discriminate|].
  destruct (p y) eqn:E.
  - intros H. injection H as ->.
    exists [], a, 0. simpl. repeat split; try assumption. contradiction.
  - intros H. destruct (IH H) as [before [after [i [Ha [Hi [Hs [Hp Hb]]]]]]].
    exists (y :: before), after, (S i). simpl. rewrite Hi, Hs, Ha.
    repeat split; try assumption; try reflexivity.
    intros z [<-|Hz]; auto.
Qed.

(** ** Regular expression entities (C6) *)

Lemma find_app_new {A} (p : A -> bool) (a : list A) (x : A) :
  Js.find p a = None -> p x = true -> Js.find p (a ++ [x]) = Some x.
Proof.
  intros Hn Hx. induction a as [|y a IH]; simpl in *.
  - now rewrite Hx.
  - destruct (p y); [discriminate | now apply IH].
Qed.

(** C6, as amended.  For a declaration of a regular expression entity on
    which the check of the simple entities and of the labelled utterances
    has returned: a definition that is present and has an empty body is
    refused with [INVALID_REGEX_ENTITY]; so is a pattern that is not empty
    and differs from the pattern, not empty either, of the record of that
    name; every other declaration is accepted (among them the declaration
    without definition), the first pattern that is not empty is kept, the
    roles held are kept, and the roles declared are added, a role being
    added to the roles of an existing record when it is not a name that
    every object inherits. *)
Theorem regex_declaration (X : Externals) (entityName : string)
  (entityType : option string) (entityRoles : list string) (entityLine : string)
  (pc pc1 : parserObj) (rolesImport : list string) :
  VerifyAndUpdateSimpleEntityCollection X entityName "RegEx" pc
  = (Returned rolesImport, pc1) ->
  let regex := regexOf entityType in
  let declared := pushNew entityRoles rolesImport in
  let held := findByName entityName (regexOfParser pc1) in
  let run := handleRegExEntity X entityName entityType entityRoles entityLine pc in
  (Js.truthy entityType = true -> regex = "" ->
   exists text, run = (Threw (exception INVALID_REGEX_ENTITY text), pc1))
  /\ (forall re, held = Some re ->
        regExEntity.regexPattern re <> "" -> regex <> "" ->
        regExEntity.regexPattern re <> regex ->
        exists text, run = (Threw (exception INVALID_REGEX_ENTITY text), pc1))
  /\ (Js.truthy entityType = false \/ regex <> "" ->
      (forall re, held = Some re ->
         regExEntity.regexPattern re = "" \/ regex = ""
         \/ regExEntity.regexPattern re = regex) ->
      exists pc2 re',
        run = (Returned tt, pc2)
        /\ findByName entityName (regexOfParser pc2) = Some re'
        /\ regExEntity.regexPattern re' = keptPattern held regex
        /\ (forall role,
              match held with
              | Some re =>
                  (In role (regExEntity.roles re') ->
                   In role (regExEntity.roles re) \/ In role declared)
                  /\ (In role (regExEntity.roles re) ->
                      In role (regExEntity.roles re'))
                  /\ (In role declared -> ~ In role Js.objectPrototypeKeys ->
                      In role (regExEntity.roles re'))
              | None => In role (regExEntity.roles re') <-> In role declared
              end)).
Proof.
  intros Hpre regex declared held run.
  assert (Hrun : run
    = (if Js.truthy entityType && String.eqb regex ""
       then throwDiagnostic X INVALID_REGEX_ENTITY
              ("RegEx entity: " +++ entityName +++ " has empty regex pattern defined.")
              (Some entityLine)
       else
         match held with
         | None =>
             modify (fun L =>
               set_regex_entities
                 (regex_entities L ++ [regExEntity.mk entityName regex declared]) L)
         | Some re =>
             if negb (String.eqb (regExEntity.regexPattern re) "")
                && negb (String.eqb regex "")
                && negb (String.eqb (regExEntity.regexPattern re) regex)
             then throwDiagnostic X INVALID_REGEX_ENTITY
                    ("RegEx entity: " +++ regExEntity.name re
                     +++ " has multiple regex patterns defined. " +++ nl
                     +++ " 1. /" +++ regex +++ "/" +++ nl
                     +++ " 2. /" +++ regExEntity.regexPattern re +++ "/")
                    (Some entityLine)
             else
               (modify (addItemOrRoleIfNotPresent REGEX (regExEntity.name re) declared) ;;
                if String.eqb (regExEntity.regexPattern re) ""
                then modify (fun L =>
                       set_regex_entities
                         (updateFirst (hasName entityName)
                            (fun re => regExEntity.mk (regExEntity.name re) regex
                                         (regExEntity.roles re))
                            (regex_entities L)) L)
                else ret tt)
         end) pc1).
  { unfold run, handleRegExEntity, bind at 1. rewrite Hpre.
    fold regex. fold declared.
    destruct (Js.truthy entityType && String.eqb regex ""); [reflexivity|].
    unfold bind at 1, gets. reflexivity. }
  rewrite Hrun. clear Hrun. split; [|split].
  - intros Ht He. rewrite Ht, (proj2 (String.eqb_eq _ _) He). simpl.
    unfold throwDiagnostic, throw. eauto.
  - intros re Hre Hp Hr Hd.
    rewrite (proj2 (String.eqb_neq _ _) Hr), andb_false_r, Hre.
    rewrite (proj2 (String.eqb_neq _ _) Hp), (proj2 (String.eqb_neq _ _) Hd).
    simpl. unfold throwDiagnostic, throw. eauto.
  - intros Hok Hsame.
    assert (E : Js.truthy entityType && String.eqb regex "" = false).
    { destruct Hok as [->|Hr]; [reflexivity|].
      now rewrite (proj2 (String.eqb_neq _ _) Hr), andb_false_r. }
    rewrite E. clear E Hok.
    destruct held as [re|] eqn:Hheld.
    + assert (Hname : regExEntity.name re = entityName).
      { unfold held, findByName in Hheld. apply find_some in Hheld.
        now apply String.eqb_eq. }
      assert (C : negb (String.eqb (regExEntity.regexPattern re) "")
                  && negb (String.eqb regex "")
                  && negb (String.eqb (regExEntity.regexPattern re) regex) = false).
      { destruct (Hsame re eq_refl) as [H|[H|H]];
          rewrite (proj2 (String.eqb_eq _ _) H); simpl;
          rewrite ?andb_false_r; reflexivity. }
      rewrite C, Hname. clear C.
      destruct (@upsert_existing _ _ entityName declared _ re Hheld) as [Hfind _].
      unfold bind, modify at 1.
      destruct (String.eqb (regExEntity.regexPattern re) "") eqn:Ep.
      * unfold modify. eexists. eexists. split; [reflexivity|].
        unfold regexOfParser.
        cbn [LUISJsonStructure onLUIS regex_entities set_regex_entities
             addItemOrRoleIfNotPresent].
        unfold findByName in *. rewrite find_updateFirst by (intros; assumption).
        unfold regexOfParser in Hfind. rewrite Hfind.
        split; [reflexivity|].
        cbn [regExEntity.regexPattern regExEntity.roles setRoles rolesOf
             Item_regExEntity keptPattern].
        split; [now rewrite Ep|].
        intros role. rewrite mergeRoles_In. tauto.
      * unfold ret. eexists. eexists. split; [reflexivity|].
        unfold regexOfParser.
        cbn [LUISJsonStructure onLUIS regex_entities set_regex_entities
             addItemOrRoleIfNotPresent].
        unfold regexOfParser in Hfind. rewrite Hfind.
        split; [reflexivity|].
        cbn [regExEntity.regexPattern regExEntity.roles setRoles rolesOf
             Item_regExEntity keptPattern].
        split; [now rewrite Ep|].
        intros role. rewrite mergeRoles_In. tauto.
    + unfold modify. eexists. eexists. split; [reflexivity|].
      unfold regexOfParser.
      cbn [LUISJsonStructure onLUIS regex_entities set_regex_entities].
      unfold findByName. rewrite find_app_new.
      * simpl. repeat split; auto.
      * exact Hheld.
      * unfold hasName. apply String.eqb_refl.
Qed.

Lemma regex_declaration_witness :
  exists text,
    handleRegExEntity sampleExternals "zip" (Some "//") [] "$zip://" newParserObj
    = (Threw (exception INVALID_REGEX_ENTITY text), newParserObj).
Proof.
  exact (proj1 (@regex_declaration sampleExternals "zip" (Some "//") []
                  "$zip://" newParserObj newParserObj [] eq_refl)
           eq_refl eq_refl).
Defined.

(** C6, as stated, fails in two ways.  A declaration without a definition
    has the empty pattern and is accepted, the record holding the empty
    pattern.  A declaration with the empty pattern [//], for a name that an
    utterance labels without a role, is refused with [INVALID_INPUT], by
    the check that comes first. *)
Lemma regex_empty_pattern_without_INVALID_REGEX_ENTITY :
  (regexOf None = ""
   /\ handleRegExEntity sampleExternals "zip" None [] "@ regex zip" newParserObj
      = (Returned tt,
         onLUIS (set_regex_entities [regExEntity.mk "zip" "" []]) newParserObj))
  /\ (regexOf (Some "//") = ""
      /\ exists text pc,
           performAll sampleExternals false None
             [resolve labelledZip; declare (Entity.mk "zip" "//" [] "$zip://")]
             newParserObj
           = (Threw (exception INVALID_INPUT text), pc)).
Proof.
  split; split; try reflexivity.
  eexists. eexists. vm_compute. reflexivity.
Qed.

(** ** Names are unique in every collection (C10) *)

Lemma preserves_ret {A} (a : A) : preserves (ret a).
Proof. intros pc H. exact H. Qed.

Lemma preserves_throw {A} (e : thrown) : preserves (@throw A e).
Proof. intros pc H. exact H. Qed.

Lemma preserves_throwDiagnostic {A} (X : Externals) (code : errorCode)
  (message : string) (context : option string) :
  preserves (@throwDiagnostic X A code message context).
Proof. intros pc H. exact H. Qed.

Lemma preserves_gets {A} (f : LUIS -> A) : preserves (gets f).
Proof. intros pc H. exact H. Qed.

Lemma preserves_modify (f : LUIS -> LUIS) :
  (forall L, uniqueNames L -> uniqueNames (f L)) -> preserves (modify f).
Proof. intros Hf pc H. apply Hf, H. Qed.

Lemma preserves_bind {A B} (c : Parser A) (k : A -> Parser B) :
  preserves c -> (forall a, preserves (k a)) -> preserves (bind c k).
Proof.
  intros Hc Hk pc H. unfold bind.
  specialize (Hc pc H). destruct (c pc) as [[a|e] pc']; simpl in *.
  - now apply Hk.
  - exact Hc.
Qed.

(** What follows a read may depend on what was read. *)
Lemma preserves_gets_bind {A B} (f : LUIS -> A) (k : A -> Parser B) :
  (forall pc, uniqueNames (LUISJsonStructure pc) ->
              uniqueNames (LUISJsonStructure (snd (k (f (LUISJsonStructure pc)) pc)))) ->
  preserves (bind (gets f) k).
Proof. intros Hk pc H. unfold bind, gets. now apply Hk. Qed.

Lemma preserves_forEach {A} (f : A -> Parser unit) (a : list A) :
  (forall x, preserves (f x)) -> preserves (forEach f a).
Proof.
  intros Hf. induction a as [|x a IH]; simpl.
  - apply preserves_ret.
  - apply preserves_bind; [apply Hf | intros _; exact IH].
Qed.

Lemma preserves_mapM {A B} (f : A -> Parser B) (a : list A) :
  (forall x, preserves (f x)) -> preserves (mapM f a).
Proof.
  intros Hf. induction a as [|x a IH]; simpl.
  - apply preserves_ret.
  - apply preserves_bind; [apply Hf | intros y].
    apply preserves_bind; [exact IH | intros r; apply preserves_ret].
Qed.

(** *** Lists without repeated names *)

Lemma existsb_hasName {T} `{Named T} (value : string) (c : list T) :
  existsb (hasName value) c = true <-> In value (map nameOf c).
Proof.
  rewrite existsb_exists, in_map_iff. unfold hasName.
  split; intros [x [H1 H2]]; exists x.
  - apply String.eqb_eq in H2. auto.
  - split; [tauto|]. apply String.eqb_eq. tauto.
Qed.

Lemma existsb_hasName_false {T} `{Named T} (value : string) (c : list T) :
  existsb (hasName value) c = false <-> ~ In value (map nameOf c).
Proof.
  rewrite <- existsb_hasName. destruct (existsb (hasName value) c); split; congruence.
Qed.

Lemma uniq_push {T} `{Named T} (c : list T) (x : T) :
  uniq c -> ~ In (nameOf x) (map nameOf c) -> uniq (c ++ [x]).
Proof.
  unfold uniq. intros Hc Hx. rewrite map_app. simpl.
  apply NoDup_app; [assumption | repeat constructor; auto |].
  intros y Hy [<-|[]]. contradiction.
Qed.

Lemma uniq_push_new {T} `{Named T} (n : string) (c : list T) (x : T) :
  findByName n c = None -> nameOf x = n -> uniq c -> uniq (c ++ [x]).
Proof.
  intros Hf Hn Hc. apply uniq_push; [assumption|]. rewrite Hn.
  apply existsb_hasName_false. rewrite existsb_find.
  unfold findByName in Hf. now rewrite Hf.
Qed.

Lemma names_updateFirst {T} `{Named T} (p : T -> bool) (f : T -> T) (c : list T) :
  (forall x, p x = true -> nameOf (f x) = nameOf x) ->
  map nameOf (updateFirst p f c) = map nameOf c.
Proof.
  intros Hf. induction c as [|x c IH]; simpl; [reflexivity|].
  destruct (p x) eqn:E; simpl; [now rewrite Hf | now rewrite IH].
Qed.

Lemma uniq_updateFirst {T} `{Named T} (p : T -> bool) (f : T -> T) (c : list T) :
  (forall x, p x = true -> nameOf (f x) = nameOf x) ->
  uniq c -> uniq (updateFirst p f c).
Proof. intros Hf Hc. unfold uniq. now rewrite names_updateFirst. Qed.

Lemma uniq_addIfAbsent {T} `{Named T} (x : T) (c : list T) :
  uniq c -> uniq (addIfAbsent x c).
Proof.
  intros Hc. unfold addIfAbsent.
  destruct (existsb (hasName (nameOf x)) c) eqn:E; [assumption|].
  apply uniq_push; [assumption | now apply existsb_hasName_false].
Qed.

Lemma uniq_upsert {T} `{Item T} (value : string) (roles : list string) (c : list T) :
  uniq c -> uniq (upsert value roles c).
Proof.
  intros Hc. unfold upsert.
  destruct (existsb (hasName value) c) eqn:E.
  - apply uniq_updateFirst; [intros; apply nameOf_setRoles | assumption].
  - apply uniq_push; [assumption|].
    rewrite nameOf_itemLiteral. now apply existsb_hasName_false.
Qed.

Lemma remainder_refl {A} (a : list A) : remainder a a.
Proof. induction a; constructor; assumption. Qed.

Lemma remainder_In {A} (a b : list A) (x : A) : remainder a b -> In x a -> In x b.
Proof. induction 1; simpl; intuition. Qed.

Lemma remainder_map {A B} (f : A -> B) (a b : list A) :
  remainder a b -> remainder (map f a) (map f b).
Proof. induction 1; simpl; constructor; assumption. Qed.

Lemma remainder_NoDup {A} (a b : list A) : remainder a b -> NoDup b -> NoDup a.
Proof.
  induction 1; intros Hb; [constructor | |]; inversion Hb; subst.
  - constructor; [|auto]. intros Hx. eauto using remainder_In.
  - auto.
Qed.

Lemma uniq_remainder {T} `{Named T} (a b : list T) :
  remainder a b -> uniq b -> uniq a.
Proof. intros Hr. apply remainder_NoDup, remainder_map, Hr. Qed.

Lemma remainder_splice {A} (i : nat) (a : list A) : remainder (Js.splice i a) a.
Proof.
  revert i. induction a as [|x a IH]; intros [|i]; simpl;
    try constructor; auto using remainder_refl.
Qed.

Lemma remainder_filter {A} (p : A -> bool) (a : list A) : remainder (filter p a) a.
Proof. induction a as [|x a IH]; simpl; [|destruct (p x)]; constructor; assumption. Qed.

Lemma remainder_spliceLoop {T} `{Named T} (n : string) (a : list T) :
  remainder (spliceLoop n a) a.
Proof.
  induction a as [a IH] using (well_founded_induction
                                 (Wf_nat.well_founded_ltof _ (@List.length T))).
  destruct a as [|x [|y t]]; simpl.
  - constructor.
  - destruct (hasName n x); repeat constructor.
  - destruct (hasName n x).
    + apply remainder_drop, remainder_keep, IH. unfold Wf_nat.ltof. simpl. lia.
    + apply remainder_keep.
      apply (IH (y :: t)). unfold Wf_nat.ltof. simpl. lia.
Qed.

(** *** The helpers keep the names unique *)

Ltac collections :=
  unfold uniqueNames in *;
  cbn [intents entities composites closedLists regex_entities model_features
       prebuiltEntities patternAnyEntities patterns utterances
       flatListOfEntityAndRoles set_intents set_entities set_composites
       set_closedLists set_regex_entities set_model_features
       set_prebuiltEntities set_patternAnyEntities set_patterns
       set_utterances set_flatListOfEntityAndRoles LUISJsonStructure onLUIS
       snd fst] in *.

Lemma uniqueNames_addItemIfNotPresent (type : LUISObjNameEnum) (value : string)
  (L : LUIS) :
  uniqueNames L -> uniqueNames (addItemIfNotPresent type value L).
Proof.
  intros H. destruct type; unfold addItemIfNotPresent; collections;
    intuition auto using uniq_addIfAbsent.
Qed.

Lemma uniqueNames_addItemOrRoleIfNotPresent (type : LUISObjNameEnum)
  (value : string) (roles : list string) (L : LUIS) :
  uniqueNames L -> uniqueNames (addItemOrRoleIfNotPresent type value roles L).
Proof.
  intros H. destruct type; unfold addItemOrRoleIfNotPresent; collections;
    intuition auto using uniq_addIfAbsent, uniq_upsert.
Qed.

Lemma preserves_addItemOrRoleIfNotPresent (type : LUISObjNameEnum)
  (value : string) (roles : list string) :
  preserves (modify (addItemOrRoleIfNotPresent type value roles)).
Proof.
  apply preserves_modify. intros L. apply uniqueNames_addItemOrRoleIfNotPresent.
Qed.

Lemma preserves_addItemIfNotPresent (type : LUISObjNameEnum) (value : string) :
  preserves (modify (addItemIfNotPresent type value)).
Proof.
  apply preserves_modify. intros L. apply uniqueNames_addItemIfNotPresent.
Qed.

Section Preservation.

Variable X : Externals.

Lemma validateAndGetRoles_preserves (roles : option string)
  (line entityName entityType : string) :
  preserves (validateAndGetRoles X roles line entityName entityType).
Proof.
  intros pc H.
  unfold validateAndGetRoles, bind, gets, throwDiagnostic, throw, modify, ret.
  repeat match goal with
         | |- context [match ?o with Some _ => _ | None => _ end] => destruct o
         end; collections; assumption.
Qed.

Lemma RemoveDuplicatePatternAnyEntity_preserves (pEntityName entityType line : string) :
  preserves (RemoveDuplicatePatternAnyEntity X pEntityName entityType line).
Proof.
  intros pc H.
  unfold RemoveDuplicatePatternAnyEntity, bind, gets, throwDiagnostic, throw,
    modify, ret.
  repeat match goal with
         | |- context [match ?o with Some _ => _ | None => _ end] => destruct o
         | |- context [if ?b then _ else _] => destruct b
         end; collections; try assumption.
  intuition eauto using uniq_remainder, remainder_splice.
Qed.

Lemma absorbPatternAny_preserves (entityName entityType : string)
  (entityRoles : list string) (line : string) :
  preserves (absorbPatternAny X entityName entityType entityRoles line).
Proof.
  apply preserves_bind;
    [apply RemoveDuplicatePatternAnyEntity_preserves | intros; apply preserves_ret].
Qed.

Lemma VerifyAndUpdateSimpleEntityCollection_preserves (entityName entityType : string) :
  preserves (VerifyAndUpdateSimpleEntityCollection X entityName entityType).
Proof.
  unfold VerifyAndUpdateSimpleEntityCollection.
  apply preserves_bind; [apply preserves_gets | intros simple].
  apply preserves_bind.
  - destruct simple; [|apply preserves_ret].
    apply preserves_bind; [|intros; apply preserves_ret].
    destruct (negb _); [|apply preserves_ret].
    apply preserves_modify. intros L H. collections.
    intuition eauto using uniq_remainder, remainder_spliceLoop.
  - intros entityRoles.
    apply preserves_bind; [apply preserves_gets | intros labelled].
    destruct labelled; [|apply preserves_ret].
    destruct (rolesOfLabels _ _ _);
      [apply preserves_ret | apply preserves_throwDiagnostic].
Qed.

Lemma handlePatternAny_preserves (entityName : string) (entityRoles : list string) :
  preserves (handlePatternAny X entityName entityRoles).
Proof.
  unfold handlePatternAny.
  apply preserves_bind;
    [apply VerifyAndUpdateSimpleEntityCollection_preserves | intros rolesImport].
  apply preserves_gets_bind. intros pc H.
  destruct (findByName entityName (patternAnyEntities (LUISJsonStructure pc))) eqn:E;
    unfold modify; collections.
  - intuition auto. apply uniq_updateFirst; [intros; reflexivity | assumption].
  - intuition auto. now apply (uniq_push_new _ E).
Qed.

Lemma handlePhraseList_preserves (entityName : string) (entityType : option string)
  (entityRoles valuesList : list string) (currentLine : string) :
  preserves (handlePhraseList X entityName entityType entityRoles valuesList
               currentLine).
Proof.
  unfold handlePhraseList.
  destruct entityRoles; [|apply preserves_throwDiagnostic].
  apply preserves_bind;
    [apply VerifyAndUpdateSimpleEntityCollection_preserves | intros _].
  cbv zeta. apply preserves_gets_bind. intros pc H.
  match goal with
  | |- context [findByName ?n (model_features ?L)] =>
      destruct (findByName n (model_features L)) eqn:E
  end.
  - destruct (Bool.eqb _ _); unfold modify, throw; collections; [|assumption].
    intuition auto. apply uniq_updateFirst; [intros; reflexivity | assumption].
  - unfold modify; collections. intuition auto.
    now apply (uniq_push_new _ E).
Qed.

Lemma handlePrebuiltEntity_preserves (entityName entityType : string)
  (entityRoles : list string) (locale : option string) (log : bool)
  (currentLine : string) :
  preserves (handlePrebuiltEntity X entityName entityType entityRoles locale log
               currentLine).
Proof.
  unfold handlePrebuiltEntity. cbv zeta.
  apply preserves_bind;
    [apply VerifyAndUpdateSimpleEntityCollection_preserves | intros rolesImport].
  destruct (negb _); [apply preserves_throwDiagnostic|].
  destruct (perLocaleAvailability X _) as [table|]; [|apply preserves_throw].
  destruct (table entityType).
  - apply preserves_addItemOrRoleIfNotPresent.
  - destruct log; [apply preserves_ret | apply preserves_throwDiagnostic].
  - destruct (_ && _); apply preserves_addItemOrRoleIfNotPresent.
Qed.

Ltac pres :=
  repeat first
    [ apply preserves_ret
    | apply preserves_throw
    | apply preserves_throwDiagnostic
    | apply preserves_gets
    | apply preserves_addItemOrRoleIfNotPresent
    | apply preserves_addItemIfNotPresent
    | apply VerifyAndUpdateSimpleEntityCollection_preserves
    | apply absorbPatternAny_preserves
    | apply validateAndGetRoles_preserves
    | match goal with
      | |- preserves (bind _ _) => apply preserves_bind; [|intros ?]
      | |- preserves (if ?b then _ else _) => destruct b
      | |- preserves (match ?o with Some _ => _ | None => _ end) => destruct o
      | |- preserves (match ?l with [] => _ | _ :: _ => _ end) => destruct l
      end ].

Lemma handleComposite_preserves (entityName entityType : string)
  (entityRoles : list string) (currentLine : string) (inlineChildRequired : bool) :
  preserves (handleComposite X entityName entityType entityRoles currentLine
               inlineChildRequired).
Proof.
  unfold handleComposite. cbv zeta.
  apply preserves_bind; [apply preserves_gets | intros simple].
  apply preserves_bind.
  - destruct simple; [|apply preserves_ret].
    apply preserves_bind; [|intros; apply preserves_ret].
    apply preserves_modify. intros L H. collections.
    intuition eauto using uniq_remainder, remainder_spliceLoop.
  - intros roles. destruct (_ && _); [apply preserves_throwDiagnostic|].
    apply preserves_gets_bind. intros pc H.
    destruct (findByName entityName (composites (LUISJsonStructure pc))) eqn:E.
    + destruct (differentChildren _ _);
        unfold bind, modify, throwDiagnostic, throw, addItemOrRoleIfNotPresent;
        collections; intuition auto;
        repeat first [ apply uniq_upsert
                     | apply uniq_updateFirst; [intros; reflexivity|] ];
        assumption.
    + unfold bind, modify. collections. intuition auto.
      * eauto using uniq_remainder, remainder_filter.
      * now apply (uniq_push_new _ E).
Qed.

Lemma closeSubList_name (cl : closedLists.t) (nv : nvState) :
  closedLists.name (closeSubList cl nv) = closedLists.name cl.
Proof. destruct nv; reflexivity. Qed.

Lemma listLinesLoop_name (listLines : list string) (cl : closedLists.t)
  (nv : nvState) :
  match listLinesLoop listLines cl nv with
  | inl (cl', _) => closedLists.name cl' = closedLists.name cl
  | inr (cl', _) => closedLists.name cl' = closedLists.name cl
  end.
Proof.
  revert cl nv. induction listLines as [|line t IH]; intros cl nv; simpl;
    [reflexivity|].
  destruct (Js.endsWith (Js.toLowerCase line) ":").
  - destruct (existsb _ _);
      match goal with
      | |- context [listLinesLoop t ?c ?n] =>
          specialize (IH c n); destruct (listLinesLoop t c n) as [[? ?]|[? ?]]
      end; now rewrite IH, closeSubList_name.
  - destruct nv; [reflexivity | |];
      match goal with
      | |- context [listLinesLoop t ?c ?n] =>
          specialize (IH c n); destruct (listLinesLoop t c n) as [[? ?]|[? ?]]
      end; now rewrite IH.
Qed.

Lemma findByName_name {T} `{Named T} (n : string) (c : list T) (x : T) :
  findByName n c = Some x -> nameOf x = n.
Proof.
  unfold findByName, Js.find. intros Hf. apply find_some in Hf.
  now apply String.eqb_eq.
Qed.

Lemma handleClosedList_preserves (entityName : string) (listLines : list string)
  (entityRoles : list string) (currentLine : string) :
  preserves (handleClosedList X entityName listLines entityRoles currentLine).
Proof.
  unfold handleClosedList. cbv zeta.
  apply preserves_bind;
    [apply VerifyAndUpdateSimpleEntityCollection_preserves | intros rolesImport].
  apply preserves_gets_bind. intros pc H.
  destruct (findByName entityName (closedLists (LUISJsonStructure pc))) as [cl0|] eqn:E.
  - pose proof (findByName_name _ _ E) as Hn.
    pose proof (listLinesLoop_name listLines cl0 nvUndefined) as Hl.
    destruct (listLinesLoop listLines cl0 nvUndefined) as [[cl nv]|[cl line]];
      unfold bind, modify, throwDiagnostic, throw; collections; intuition auto;
      apply uniq_updateFirst; try assumption;
      intros x Hx; unfold hasName in Hx; apply String.eqb_eq in Hx;
      rewrite Hx; cbn; rewrite ?closeSubList_name; rewrite Hl; exact Hn.
  - pose proof (listLinesLoop_name listLines (closedLists.mk entityName [] [])
                  nvUndefined) as Hl.
    destruct (listLinesLoop listLines _ nvUndefined) as [[cl nv]|[cl line]];
      unfold bind, modify, throwDiagnostic, throw, ret; collections;
      intuition auto.
    apply (uniq_push_new _ E); [|assumption].
    cbn. rewrite closeSubList_name. exact Hl.
Qed.

Lemma handleRegExEntity_preserves (entityName : string) (entityType : option string)
  (entityRoles : list string) (entityLine : string) :
  preserves (handleRegExEntity X entityName entityType entityRoles entityLine).
Proof.
  unfold handleRegExEntity. cbv zeta.
  apply preserves_bind;
    [apply VerifyAndUpdateSimpleEntityCollection_preserves | intros rolesImport].
  destruct (_ && _); [apply preserves_throwDiagnostic|].
  apply preserves_gets_bind. intros pc H.
  destruct (findByName entityName (regex_entities (LUISJsonStructure pc))) eqn:E.
  - destruct (_ && _); [exact H|].
    destruct (String.eqb _ _);
      unfold bind, modify, ret, addItemOrRoleIfNotPresent; collections;
      intuition auto;
      repeat first [ apply uniq_upsert
                   | apply uniq_updateFirst; [intros; reflexivity|] ];
      assumption.
  - unfold modify. collections. intuition auto.
    now apply (uniq_push_new _ E).
Qed.

Lemma handleNewEntity_preserves (entities : list NewEntity.t) (log : bool)
  (locale : option string) (entity : NewEntity.t) :
  preserves (handleNewEntity X entities log locale entity).
Proof.
  unfold handleNewEntity. cbv zeta.
  destruct (if negb _ then _ else _); [|apply preserves_throwDiagnostic].
  pres; auto using handleComposite_preserves, handleClosedList_preserves,
    handlePatternAny_preserves, handlePrebuiltEntity_preserves,
    handleRegExEntity_preserves, handlePhraseList_preserves.
Qed.

Lemma filterMatch_nil {T} `{Named T} (n : string) (c : list T) :
  filterMatch nameOf n c = [] -> ~ In n (map nameOf c).
Proof.
  unfold filterMatch. induction c as [|x c IH]; simpl; [tauto|].
  destruct (String.eqb (nameOf x) n) eqn:E; [discriminate|].
  apply String.eqb_neq in E. intros Hf [Hx|Hx]; [contradiction | now apply IH].
Qed.

Lemma handleListEntity_preserves (entityName entityType : string)
  (entityRoles synonymsList : list string) :
  preserves (handleListEntity X entityName entityType entityRoles synonymsList).
Proof.
  unfold handleListEntity. cbv zeta.
  apply preserves_bind;
    [apply VerifyAndUpdateSimpleEntityCollection_preserves | intros rolesImport].
  apply preserves_modify. intros L H.
  destruct (filterMatch closedLists.name entityName (closedLists L)) eqn:E;
    collections; intuition auto.
  - apply uniq_push; [assumption|]. now apply filterMatch_nil in E.
  - apply uniq_updateFirst; [intros; reflexivity | assumption].
Qed.

Lemma handleEntity_preserves (log : bool) (locale : option string)
  (entity : Entity.t) :
  preserves (handleEntity X log locale entity).
Proof.
  unfold handleEntity. cbv zeta.
  pres; auto using handleComposite_preserves, handlePrebuiltEntity_preserves,
    handleRegExEntity_preserves, handlePhraseList_preserves,
    handleListEntity_preserves.
  intros pc H. exact H.
Qed.

Lemma uniqueNames_registerPatternEntity (entity : parserEntity.t) (L : LUIS) :
  uniqueNames L -> uniqueNames (registerPatternEntity entity L).
Proof.
  intros H. unfold registerPatternEntity. cbv zeta.
  repeat match goal with
         | |- context [if ?b then _ else _] => destruct b
         end;
    repeat first [ apply uniqueNames_addItemOrRoleIfNotPresent
                 | apply uniqueNames_addItemIfNotPresent ];
    assumption.
Qed.

Lemma handlePatternLine_preserves (intentName utterance : string)
  (entitiesFound : list parserEntity.t) (context : string) :
  preserves (handlePatternLine X intentName utterance entitiesFound context).
Proof.
  unfold handlePatternLine.
  apply preserves_gets_bind. intros pc H.
  destruct (handleAtForPattern _ _ _) as [utterance' entitiesFound'].
  destruct (filter _ entitiesFound'); [|exact H].
  revert pc H. apply preserves_bind.
  - apply preserves_modify. intros L H.
    destruct (existsb _ _); collections; assumption.
  - intros _. apply preserves_forEach. intros entity.
    apply preserves_modify. intros L. apply uniqueNames_registerPatternEntity.
Qed.

Lemma resolveLabel_preserves (utterance context : string) (entity : parserEntity.t) :
  preserves (resolveLabel X utterance context entity).
Proof.
  unfold resolveLabel. cbv zeta.
  apply preserves_bind; [apply preserves_gets | intros flat].
  apply preserves_bind; [apply preserves_gets | intros L].
  pres.
  apply preserves_modify. intros L' H.
  destruct (Js.findIndex _ _); [|assumption].
  collections. intuition eauto using uniq_remainder, remainder_splice.
Qed.

Lemma handleLabelledLine_preserves (intentName utterance : string)
  (entitiesFound : list parserEntity.t) (context : string) :
  preserves (handleLabelledLine X intentName utterance entitiesFound context).
Proof.
  unfold handleLabelledLine.
  apply preserves_bind;
    [apply preserves_mapM; intros; apply resolveLabel_preserves | intros es].
  apply preserves_bind; [apply preserves_gets | intros utteranceExists].
  destruct (labelsOf es) as [pushed bad].
  pres; apply preserves_modify; intros L H; collections; assumption.
Qed.

Lemma handleUnlabelledLine_preserves (intentName utterance : string) :
  preserves (handleUnlabelledLine X intentName utterance).
Proof.
  unfold handleUnlabelledLine.
  destruct (isUtterancePattern X utterance); apply preserves_modify; intros L H;
    [|destruct (existsb _ _)]; collections; assumption.
Qed.

Lemma handleLinkRef_preserves (utterance : string) :
  preserves (handleLinkRef X utterance).
Proof.
  unfold handleLinkRef.
  destruct (isUtteranceLinkRef X utterance); [|apply preserves_ret].
  destruct (parseLinkURI X utterance); [apply preserves_throw|].
  intros pc H. exact H.
Qed.

Lemma handleUtteranceAndEntities_preserves (intentName : string)
  (utteranceAndEntities : UtteranceAndEntities.t) :
  preserves (handleUtteranceAndEntities X intentName utteranceAndEntities).
Proof.
  unfold handleUtteranceAndEntities. cbv zeta.
  apply preserves_bind; [apply handleLinkRef_preserves | intros _].
  destruct (UtteranceAndEntities.entities utteranceAndEntities) eqn:E;
    [apply handleUnlabelledLine_preserves|].
  destruct (existsb _ _);
    [apply handlePatternLine_preserves | apply handleLabelledLine_preserves].
Qed.

Lemma handleIntent_preserves (intent : Intent.t) : preserves (handleIntent X intent).
Proof.
  unfold handleIntent. cbv zeta.
  apply preserves_bind; [apply preserves_addItemIfNotPresent | intros _].
  apply preserves_forEach. intros line.
  apply handleUtteranceAndEntities_preserves.
Qed.

Lemma perform_preserves (log : bool) (locale : option string) (op : operation) :
  preserves (perform X log locale op).
Proof.
  destruct op; simpl;
    auto using handleNewEntity_preserves, handleIntent_preserves,
      handleEntity_preserves.
Qed.

Lemma performAll_preserves (log : bool) (locale : option string)
  (ops : list operation) :
  preserves (performAll X log locale ops).
Proof. apply preserves_forEach. intros op. apply perform_preserves. Qed.

End Preservation.

Lemma uniqueNames_empty : uniqueNames emptyLUIS.
Proof. unfold uniqueNames, uniq. simpl. repeat split; constructor. Qed.

(** C10.  After any sequence of declarations, of either syntax, and of
    intent sections, started on a new parser object and whether it ends
    normally or with an exception, no collection of the registry (intents,
    simple entities, composites, closed lists, regular expression
    entities, prebuilt entities, pattern.any entities, phrase lists) has
    two records of one name. *)
Theorem names_are_unique_in_every_collection (X : Externals) (log : bool)
  (locale : option string) (ops : list operation) :
  uniqueNames
    (LUISJsonStructure (snd (performAll X log locale ops newParserObj))).
Proof. apply performAll_preserves. exact uniqueNames_empty. Qed.

(** ** What the steps of a declaration do to the pattern.any entities *)


Lemma VerifyAndUpdateSimpleEntityCollection_frame (X : Externals)
  (entityName entityType : string) (pc pc' : parserObj)
  (r : completion (list string)) :
  VerifyAndUpdateSimpleEntityCollection X entityName entityType pc = (r, pc') ->
  patternAnyOf pc' = patternAnyOf pc.
Proof.
  unfold VerifyAndUpdateSimpleEntityCollection, bind, gets, throwDiagnostic,
    throw, modify, ret.
  repeat match goal with
         | |- context [match ?o with Some _ => _ | None => _ end] => destruct o
         | |- context [if ?b then _ else _] => destruct b
         end;
    intros H; injection H as <- <-; reflexivity.
Qed.

Lemma absorbPatternAny_found (X : Externals) (pc : parserObj)
  (entityName entityType : string) (entityRoles : list string) (line : string)
  (PA : patternAnyEntity.t) :
  findByName entityName (patternAnyOf pc) = Some PA ->
  isPhraseListType entityType = false ->
  exists before after,
    patternAnyOf pc = before ++ PA :: after
    /\ (forall other, In other before -> patternAnyEntity.name other <> entityName)
    /\ absorbPatternAny X entityName entityType entityRoles line pc
       = (Returned (pushNew entityRoles (patternAnyEntity.roles PA)),
          onLUIS (set_patternAnyEntities (before ++ after)) pc).
Proof.
  unfold findByName, patternAnyOf. intros Hf Hp.
  destruct (find_split _ _ Hf) as [before [after [i [Ha [Hi [Hs [_ Hb]]]]]]].
  exists before, after. split; [assumption|]. split.
  - intros other Ho. specialize (Hb other Ho). unfold hasName in Hb.
    now apply String.eqb_neq in Hb.
  - unfold absorbPatternAny, RemoveDuplicatePatternAnyEntity, bind, gets.
    unfold isPhraseListType in Hp. rewrite Hf, Hi, Hp.
    unfold modify, ret. now rewrite Hs.
Qed.

Lemma find_app_none {A} (p : A -> bool) (a b : list A) :
  (forall x, In x a -> p x = false) -> Js.find p (a ++ b) = Js.find p b.
Proof.
  intros Ha. induction a as [|x a IH]; simpl; [reflexivity|].
  rewrite (Ha x (or_introl eq_refl)). apply IH. intros y Hy. apply Ha. now right.
Qed.

(** The handler itself, called while a record of the name is held, leaves
    the roles of the record as they are: its loop tests
    [!PAExists.roles.includes], the method and not a call of it.  A
    declaration does not reach that branch, because the record held has
    been removed before the handler is called. *)
Lemma handlePatternAny_on_held_record :
  let pc := withPatternAny [patternAnyEntity.mk "city" [] ["from"]] in
  handlePatternAny sampleExternals "city" ["to"] pc = (Returned tt, pc).
Proof. reflexivity. Qed.

(** * Further properties of the code *)

(** ** The order of [sort] *)

Lemma leb_iff (a b : string) :
  String.leb a b = true <-> OrderedTypeEx.String_as_OT.lt a b \/ a = b.
Proof.
  unfold String.leb.
  pose proof (OrderedTypeEx.String_as_OT.cmp_lt a b) as Hlt.
  pose proof (OrderedTypeEx.String_as_OT.cmp_eq a b) as Heq.
  pose proof (OrderedTypeEx.String_as_OT.cmp_antisym a b) as Hanti.
  pose proof (OrderedTypeEx.String_as_OT.cmp_lt b a) as Hgt.
  unfold OrderedTypeEx.String_as_OT.cmp in *.
  destruct (String.compare a b) eqn:E; split; intros H; try reflexivity;
    try tauto; try discriminate.
  exfalso. destruct H as [H|H].
  - apply Hlt in H. discriminate.
  - apply Heq in H. discriminate.
Qed.

Lemma leb_trans (a b c : string) :
  String.leb a b = true -> String.leb b c = true -> String.leb a c = true.
Proof.
  rewrite !leb_iff. intros [H1|H1] [H2|H2]; subst; auto.
  left. eapply OrderedTypeEx.String_as_OT.lt_trans; eassumption.
Qed.

Lemma leb_false (a b : string) : String.leb a b = false -> String.leb b a = true.
Proof. intros H. destruct (String.leb_total a b) as [E|E]; congruence. Qed.

Lemma insert_insert (x y : string) (a : list string) :
  Js.insert x (Js.insert y a) = Js.insert y (Js.insert x a).
Proof.
  induction a as [|h t IH]; simpl.
  - destruct (String.leb x y) eqn:Exy, (String.leb y x) eqn:Eyx; try reflexivity.
    + now rewrite (String.leb_antisym _ _ Exy Eyx).
    + apply leb_false in Exy. congruence.
  - destruct (String.leb y h) eqn:Eyh, (String.leb x h) eqn:Exh; simpl;
      rewrite ?Eyh, ?Exh.
    + destruct (String.leb x y) eqn:Exy, (String.leb y x) eqn:Eyx;
        rewrite ?Eyh, ?Exh; try reflexivity.
      * now rewrite (String.leb_antisym _ _ Exy Eyx).
      * apply leb_false in Exy. congruence.
    + destruct (String.leb x y) eqn:Exy.
      * rewrite (leb_trans _ _ _ Exy Eyh) in Exh. discriminate.
      * destruct (String.leb y x) eqn:Eyx; [reflexivity|].
        apply leb_false in Exy. congruence.
    + destruct (String.leb y x) eqn:Eyx.
      * rewrite (leb_trans _ _ _ Eyx Exh) in Eyh. discriminate.
      * destruct (String.leb x y) eqn:Exy; [reflexivity|].
        apply leb_false in Exy. congruence.
    + now rewrite IH.
Qed.

Lemma insert_Permutation (x : string) (a : list string) :
  Permutation (Js.insert x a) (x :: a).
Proof.
  induction a as [|h t IH]; simpl; [reflexivity|].
  destruct (String.leb x h); [reflexivity|].
  rewrite IH. apply perm_swap.
Qed.

Lemma sort_Permutation (a : list string) : Permutation (Js.sort a) a.
Proof.
  induction a as [|x a IH]; simpl; [reflexivity|].
  unfold Js.sort in *. simpl. rewrite insert_Permutation. now constructor.
Qed.

Lemma sort_of_Permutation (a b : list string) :
  Permutation a b -> Js.sort a = Js.sort b.
Proof.
  unfold Js.sort. induction 1; simpl.
  - reflexivity.
  - now f_equal.
  - apply insert_insert.
  - congruence.
Qed.

Lemma sameArray_eq (a b : list string) : Js.sameArray a b = true <-> a = b.
Proof.
  revert b. induction a as [|x a IH]; intros [|y b]; simpl;
    try (split; [discriminate | discriminate]); [tauto|].
  rewrite andb_true_iff, String.eqb_eq, IH. split.
  - intros [-> ->]. reflexivity.
  - intros H. injection H as -> ->. auto.
Qed.

(** The arrays compared by [handleComposite] are taken for the same when
    they have the same elements with the same numbers of occurrences. *)
Lemma differentChildren_false (compositeChildren children : list string) :
  differentChildren compositeChildren children = false
  <-> children = [] \/ Permutation compositeChildren children.
Proof.
  unfold differentChildren. rewrite andb_false_iff, !negb_false_iff, Nat.eqb_eq,
    sameArray_eq. split.
  - intros [H|H].
    + left. now destruct children.
    + right. rewrite <- (sort_Permutation compositeChildren), H.
      apply sort_Permutation.
  - intros [->|H]; [left; reflexivity | right; now apply sort_of_Permutation].
Qed.

(** ** Composite entities that are declared again *)

Lemma length_zero (s : string) : (String.length s =? 0) = false <-> s <> "".
Proof. destruct s; simpl; split; congruence. Qed.

(** X1.  A composite entity that holds children is declared again, with a
    definition that is not empty: the declaration is accepted exactly when
    the children declared are the children held, in any order and with the
    same numbers of occurrences; the record then holds the children held,
    sorted, followed by the children declared, sorted.  Otherwise the
    declaration is refused with [INVALID_COMPOSITE_ENTITY]. *)
Theorem handleComposite_accepts_the_same_children_only (X : Externals)
  (entityName entityType : string) (entityRoles : list string)
  (currentLine : string) (inlineChildRequired : bool) (pc : parserObj)
  (held : compositeEntity.t) :
  findByName entityName (composites (LUISJsonStructure pc)) = Some held ->
  compositeEntity.children held <> [] ->
  childDefinitionOf entityType <> "" ->
  let declared := compositeChildrenOf (childDefinitionOf entityType) in
  let run := handleComposite X entityName entityType entityRoles currentLine
               inlineChildRequired pc in
  (Permutation declared (compositeEntity.children held) ->
   exists pc' held',
     run = (Returned tt, pc')
     /\ findByName entityName (composites (LUISJsonStructure pc')) = Some held'
     /\ compositeEntity.children held'
        = Js.sort (compositeEntity.children held) ++ Js.sort declared
     /\ map compositeEntity.name (composites (LUISJsonStructure pc'))
        = map compositeEntity.name (composites (LUISJsonStructure pc)))
  /\ (~ Permutation declared (compositeEntity.children held) ->
      exists text pc',
        run = (Threw (exception INVALID_COMPOSITE_ENTITY text), pc')).
Proof.
  intros Hheld Hchildren Hdef declared run.
  assert (Hname : compositeEntity.name held = entityName)
    by exact (findByName_name _ _ Hheld).
  assert (Hrun : exists roles pc1,
    composites (LUISJsonStructure pc1) = composites (LUISJsonStructure pc)
    /\ run
       = (if differentChildren declared (compositeEntity.children held)
          then
            modify (fun L =>
              set_composites
                (updateFirst (hasName entityName)
                   (fun ce => compositeEntity.mk (compositeEntity.name ce)
                                (Js.sort (compositeEntity.children held))
                                (compositeEntity.roles ce))
                   (composites L)) L) ;;
            throwDiagnostic X INVALID_COMPOSITE_ENTITY
              ("Composite entity: " +++ entityName
               +++ " has multiple definition with different children. " +++ nl
               +++ " 1. " +++ String.concat ", " (Js.sort declared) +++ nl
               +++ " 2. "
               +++ String.concat ", " (Js.sort (compositeEntity.children held)))
              (Some currentLine)
          else
            modify (fun L =>
              set_composites
                (updateFirst (hasName entityName)
                   (fun ce => compositeEntity.mk (compositeEntity.name ce)
                      (if List.length (compositeEntity.children held) =? 0
                       then compositeEntity.children held ++ declared
                       else Js.sort (compositeEntity.children held)
                            ++ Js.sort declared)
                      (compositeEntity.roles ce))
                   (composites L)) L) ;;
            modify (addItemOrRoleIfNotPresent COMPOSITES
                      (compositeEntity.name held) roles)) pc1).
  { unfold run, handleComposite, bind at 1, gets.
    destruct (findByName entityName (entities (LUISJsonStructure pc))) as [simple|].
    - unfold bind at 1. unfold bind at 1. unfold modify at 1, ret at 1.
      rewrite (proj2 (length_zero _) Hdef). cbn [andb].
      unfold bind at 1, gets.
      cbn [LUISJsonStructure onLUIS composites set_entities].
      rewrite Hheld. eexists. eexists. split; [|reflexivity]. reflexivity.
    - unfold bind at 1, ret at 1.
      rewrite (proj2 (length_zero _) Hdef). cbn [andb].
      unfold bind at 1, gets. rewrite Hheld.
      eexists. eexists. split; reflexivity. }
  destruct Hrun as [roles [pc1 [Hsame ->]]].
  split.
  - intros Hperm.
    rewrite (proj2 (differentChildren_false _ _) (or_intror Hperm)).
    unfold bind, modify.
    eexists. eexists. split; [reflexivity|].
    cbn [LUISJsonStructure onLUIS composites set_composites
         addItemOrRoleIfNotPresent].
    rewrite Hsame, Hname.
    assert (Hf : findByName entityName
                   (updateFirst (hasName entityName)
                      (fun ce => compositeEntity.mk (compositeEntity.name ce)
                         (if List.length (compositeEntity.children held) =? 0
                          then compositeEntity.children held ++ declared
                          else Js.sort (compositeEntity.children held)
                               ++ Js.sort declared)
                         (compositeEntity.roles ce))
                      (composites (LUISJsonStructure pc)))
                 = Some (compositeEntity.mk (compositeEntity.name held)
                           (if List.length (compositeEntity.children held) =? 0
                            then compositeEntity.children held ++ declared
                            else Js.sort (compositeEntity.children held)
                                 ++ Js.sort declared)
                           (compositeEntity.roles held))).
    { unfold findByName in *. rewrite find_updateFirst by (intros; assumption).
      now rewrite Hheld. }
    destruct (@upsert_existing _ _ entityName roles _ _ Hf) as [Hfind Hnames].
    split; [exact Hfind|]. split.
    + cbn. destruct (compositeEntity.children held); [contradiction | reflexivity].
    + etransitivity; [exact Hnames|].
      apply names_updateFirst. intros; reflexivity.
  - intros Hperm.
    destruct (differentChildren declared (compositeEntity.children held)) eqn:E.
    + unfold bind, modify, throwDiagnostic, throw. eauto.
    + apply differentChildren_false in E. tauto.
Qed.

(** [@ composite c = [a, b]] is held; [[b, a]] is accepted. *)
Lemma handleComposite_accepts_the_same_children_only_witness :
  let pc := onLUIS (set_composites [compositeEntity.mk "c" ["a"; "b"] []])
              newParserObj in
  exists pc' held',
    handleComposite sampleExternals "c" "[b, a]" [] "@ composite c = [b, a]"
      false pc = (Returned tt, pc')
    /\ findByName "c" (composites (LUISJsonStructure pc')) = Some held'
    /\ compositeEntity.children held' = ["a"; "b"; "a"; "b"]
    /\ map compositeEntity.name (composites (LUISJsonStructure pc')) = ["c"].
Proof.
  intros pc.
  refine (proj1 (@handleComposite_accepts_the_same_children_only sampleExternals
                   "c" "[b, a]" [] "@ composite c = [b, a]" false pc
                   (compositeEntity.mk "c" ["a"; "b"] []) eq_refl _ _) _).
  - discriminate.
  - discriminate.
  - simpl. apply perm_swap.
Defined.

(** ** What the functions leave alone *)

Lemma leaves_ret {A B} (f : LUIS -> A) (b : B) : leaves f (ret b).
Proof. intros pc. reflexivity. Qed.

Lemma leaves_throw {A B} (f : LUIS -> A) (e : thrown) : leaves f (@throw B e).
Proof. intros pc. reflexivity. Qed.

Lemma leaves_throwDiagnostic {A B} (f : LUIS -> A) (X : Externals)
  (code : errorCode) (message : string) (context : option string) :
  leaves f (@throwDiagnostic X B code message context).
Proof. intros pc. reflexivity. Qed.

Lemma leaves_gets {A B} (f : LUIS -> A) (g : LUIS -> B) : leaves f (gets g).
Proof. intros pc. reflexivity. Qed.

Lemma leaves_modify {A} (f : LUIS -> A) (g : LUIS -> LUIS) :
  (forall L, f (g L) = f L) -> leaves f (modify g).
Proof. intros Hg pc. apply Hg. Qed.

Lemma leaves_bind {A B C} (f : LUIS -> A) (c : Parser B) (k : B -> Parser C) :
  leaves f c -> (forall b, leaves f (k b)) -> leaves f (bind c k).
Proof.
  intros Hc Hk pc. unfold bind. specialize (Hc pc).
  destruct (c pc) as [[b|e] pc']; simpl in *.
  - now rewrite Hk.
  - exact Hc.
Qed.

Lemma leaves_forEach {A B} (f : LUIS -> A) (g : B -> Parser unit) (a : list B) :
  (forall x, leaves f (g x)) -> leaves f (forEach g a).
Proof.
  intros Hg. induction a as [|x a IH]; simpl.
  - apply leaves_ret.
  - apply leaves_bind; [apply Hg | intros _; exact IH].
Qed.

Lemma leaves_mapM {A B C} (f : LUIS -> A) (g : B -> Parser C) (a : list B) :
  (forall x, leaves f (g x)) -> leaves f (mapM g a).
Proof.
  intros Hg. induction a as [|x a IH]; simpl.
  - apply leaves_ret.
  - apply leaves_bind; [apply Hg | intros y].
    apply leaves_bind; [exact IH | intros r; apply leaves_ret].
Qed.

Lemma resolverState_addItemOrRoleIfNotPresent (type : LUISObjNameEnum)
  (value : string) (roles : list string) (L : LUIS) :
  resolverState (addItemOrRoleIfNotPresent type value roles L) = resolverState L.
Proof. destruct type; reflexivity. Qed.

Lemma resolverState_addItemIfNotPresent (type : LUISObjNameEnum)
  (value : string) (L : LUIS) :
  resolverState (addItemIfNotPresent type value L) = resolverState L.
Proof. destruct type; reflexivity. Qed.

Ltac alone :=
  repeat first
    [ apply leaves_ret
    | apply leaves_throw
    | apply leaves_throwDiagnostic
    | apply leaves_gets
    | apply leaves_modify; intros ?;
      first [ apply resolverState_addItemOrRoleIfNotPresent
            | apply resolverState_addItemIfNotPresent
            | reflexivity
            | repeat match goal with
                     | |- context [match ?o with Some _ => _ | None => _ end] =>
                         destruct o
                     | |- context [match ?l with [] => _ | _ :: _ => _ end] =>
                         destruct l
                     | |- context [if ?b then _ else _] => destruct b
                     end; reflexivity ]
    | match goal with
      | |- leaves _ (bind _ _) => apply leaves_bind; [|intros ?]
      | |- leaves _ (if ?b then _ else _) => destruct b
      | |- leaves _ (match ?o with Some _ => _ | None => _ end) => destruct o
      | |- leaves _ (match ?l with [] => _ | _ :: _ => _ end) => destruct l
      | |- leaves _ (match ?s with inl _ => _ | inr _ => _ end) => destruct s
      | |- leaves _ (let (_, _) := ?p in _) => destruct p
      | |- leaves _ (match ?a with isUndefined => _ | isNull => _ | isString _ => _ end) =>
          destruct a
      end ].

Section Alone.

Variable X : Externals.

Lemma RemoveDuplicatePatternAnyEntity_alone (pEntityName entityType line : string) :
  leaves resolverState (RemoveDuplicatePatternAnyEntity X pEntityName entityType line).
Proof.
  unfold RemoveDuplicatePatternAnyEntity.
  apply leaves_bind; [apply leaves_gets | intros PAs].
  match goal with
  | |- context [Js.find ?p PAs] => destruct (Js.find p PAs), (Js.findIndex p PAs)
  end; alone.
Qed.

Lemma absorbPatternAny_alone (entityName entityType : string)
  (entityRoles : list string) (line : string) :
  leaves resolverState (absorbPatternAny X entityName entityType entityRoles line).
Proof.
  apply leaves_bind; [apply RemoveDuplicatePatternAnyEntity_alone | intros; alone].
Qed.

Lemma VerifyAndUpdateSimpleEntityCollection_alone (entityName entityType : string) :
  leaves resolverState (VerifyAndUpdateSimpleEntityCollection X entityName entityType).
Proof. unfold VerifyAndUpdateSimpleEntityCollection. alone. Qed.

Lemma handlePatternAny_alone (entityName : string) (entityRoles : list string) :
  leaves resolverState (handlePatternAny X entityName entityRoles).
Proof.
  unfold handlePatternAny.
  apply leaves_bind; [apply VerifyAndUpdateSimpleEntityCollection_alone | intros ?].
  alone.
Qed.

Lemma handlePhraseList_alone (entityName : string) (entityType : option string)
  (entityRoles valuesList : list string) (currentLine : string) :
  leaves resolverState
    (handlePhraseList X entityName entityType entityRoles valuesList currentLine).
Proof.
  unfold handlePhraseList. destruct entityRoles; [|alone].
  apply leaves_bind; [apply VerifyAndUpdateSimpleEntityCollection_alone | intros ?].
  cbv zeta. alone.
Qed.

Lemma handlePrebuiltEntity_alone (entityName entityType : string)
  (entityRoles : list string) (locale : option string) (log : bool)
  (currentLine : string) :
  leaves resolverState
    (handlePrebuiltEntity X entityName entityType entityRoles locale log currentLine).
Proof.
  unfold handlePrebuiltEntity. cbv zeta.
  apply leaves_bind; [apply VerifyAndUpdateSimpleEntityCollection_alone | intros ?].
  alone.
Qed.

Lemma handleComposite_alone (entityName entityType : string)
  (entityRoles : list string) (currentLine : string) (inlineChildRequired : bool) :
  leaves resolverState
    (handleComposite X entityName entityType entityRoles currentLine
       inlineChildRequired).
Proof. unfold handleComposite. cbv zeta. alone. Qed.

Lemma handleClosedList_alone (entityName : string) (listLines : list string)
  (entityRoles : list string) (currentLine : string) :
  leaves resolverState (handleClosedList X entityName listLines entityRoles currentLine).
Proof.
  unfold handleClosedList. cbv zeta.
  apply leaves_bind; [apply VerifyAndUpdateSimpleEntityCollection_alone | intros ?].
  apply leaves_bind; [apply leaves_gets | intros found].
  destruct (listLinesLoop _ _ _) as [[cl nv]|[cl line]]; destruct found; alone.
Qed.

Lemma handleRegExEntity_alone (entityName : string) (entityType : option string)
  (entityRoles : list string) (entityLine : string) :
  leaves resolverState (handleRegExEntity X entityName entityType entityRoles entityLine).
Proof.
  unfold handleRegExEntity. cbv zeta.
  apply leaves_bind; [apply VerifyAndUpdateSimpleEntityCollection_alone | intros ?].
  alone.
Qed.

Lemma handleListEntity_alone (entityName entityType : string)
  (entityRoles synonymsList : list string) :
  leaves resolverState (handleListEntity X entityName entityType entityRoles synonymsList).
Proof.
  unfold handleListEntity. cbv zeta.
  apply leaves_bind; [apply VerifyAndUpdateSimpleEntityCollection_alone | intros ?].
  alone.
Qed.

Lemma handleEntity_alone (log : bool) (locale : option string) (entity : Entity.t) :
  leaves resolverState (handleEntity X log locale entity).
Proof.
  unfold handleEntity. cbv zeta.
  apply leaves_bind; [apply absorbPatternAny_alone | intros ?].
  repeat match goal with
         | |- leaves _ (if ?b then _ else _) => destruct b
         | |- leaves _ (match ?l with [] => _ | _ :: _ => _ end) => destruct l
         end;
    auto using handlePrebuiltEntity_alone, handleComposite_alone,
      handleRegExEntity_alone, handlePhraseList_alone, handleListEntity_alone;
    try (intros pc; reflexivity); alone.
Qed.

End Alone.

Lemma leaves_less {A B C} (f : LUIS -> A) (g : A -> B) (c : Parser C) :
  leaves f c -> leaves (fun L => g (f L)) c.
Proof. intros H pc. now rewrite H. Qed.

Lemma validateAndGetRoles_alone (X : Externals) (roles : option string)
  (line entityName entityType : string) :
  leaves patternsAndUtterances
    (validateAndGetRoles X roles line entityName entityType).
Proof.
  unfold validateAndGetRoles. cbv zeta.
  apply leaves_bind; [apply leaves_gets | intros flat].
  destruct flat as [flat|].
  - destruct (Js.find _ flat); [apply leaves_throwDiagnostic|].
    destruct (firstRoleClash _ _); [apply leaves_throwDiagnostic|].
    apply leaves_bind; [|intros; apply leaves_ret].
    apply leaves_modify. reflexivity.
  - apply leaves_bind; [|intros; apply leaves_ret].
    apply leaves_modify. reflexivity.
Qed.

Lemma handleNewEntity_alone (X : Externals) (entities : list NewEntity.t)
  (log : bool) (locale : option string) (entity : NewEntity.t) :
  leaves patternsAndUtterances (handleNewEntity X entities log locale entity).
Proof.
  unfold handleNewEntity. cbv zeta.
  destruct (if negb _ then _ else _); [|apply leaves_throwDiagnostic].
  destruct (String.eqb _ ""); [apply leaves_throwDiagnostic|].
  destruct (String.eqb _ _); [apply leaves_throwDiagnostic|].
  apply leaves_bind; [apply validateAndGetRoles_alone | intros roles].
  apply (leaves_less (f := resolverState) (fun s => (fst (fst s), snd (fst s)))).
  apply leaves_bind; [apply absorbPatternAny_alone | intros roles'].
  repeat match goal with
         | |- leaves _ (if ?b then _ else _) => destruct b
         end;
    auto using handlePrebuiltEntity_alone, handleComposite_alone,
      handleRegExEntity_alone, handlePhraseList_alone, handleClosedList_alone,
      handlePatternAny_alone; alone.
Qed.

(** X2.  Declarations, of either syntax, leave the patterns and the utterances
    as they are, whether they are accepted or refused. *)
Theorem declarations_leave_patterns_and_utterances (X : Externals) (log : bool)
  (locale : option string) :
  (forall siblings entity pc,
      let pc' := snd (handleNewEntity X siblings log locale entity pc) in
      patterns (LUISJsonStructure pc') = patterns (LUISJsonStructure pc)
      /\ utterances (LUISJsonStructure pc') = utterances (LUISJsonStructure pc))
  /\ (forall entity pc,
         let pc' := snd (handleEntity X log locale entity pc) in
         patterns (LUISJsonStructure pc') = patterns (LUISJsonStructure pc)
         /\ utterances (LUISJsonStructure pc') = utterances (LUISJsonStructure pc)).
Proof.
  split.
  - intros siblings entity pc pc'.
    pose proof (handleNewEntity_alone X siblings log locale entity pc) as H.
    unfold patternsAndUtterances in H. injection H as H1 H2. now split.
  - intros entity pc pc'.
    pose proof (handleEntity_alone X log locale entity pc) as H.
    unfold resolverState in H. injection H as H1 H2 H3. now split.
Qed.

(** ** Frames of the resolver *)

Ltac untouched :=
  repeat first
    [ apply leaves_ret
    | apply leaves_throw
    | apply leaves_throwDiagnostic
    | apply leaves_gets
    | apply leaves_modify; intros ?;
      repeat match goal with
             | |- context [match ?o with Some _ => _ | None => _ end] => destruct o
             | |- context [if ?b then _ else _] => destruct b
             end;
      first [ reflexivity
            | match goal with
              | |- context [addItemOrRoleIfNotPresent ?t _ _ _] =>
                  destruct t; reflexivity
              | |- context [addItemIfNotPresent ?t _ _] =>
                  destruct t; reflexivity
              end ]
    | match goal with
      | |- leaves _ (bind _ _) => apply leaves_bind; [|intros ?]
      | |- leaves _ (if ?b then _ else _) => destruct b
      | |- leaves _ (match ?o with Some _ => _ | None => _ end) => destruct o
      | |- leaves _ (match ?l with [] => _ | _ :: _ => _ end) => destruct l
      | |- leaves _ (let (_, _) := ?p in _) => destruct p
      end ].

(** ** The flat list keeps names and roles apart *)

Lemma keeps_bind {A B} (I : LUIS -> Prop) (c : Parser A) (k : A -> Parser B) :
  keeps I c -> (forall a, keeps I (k a)) -> keeps I (bind c k).
Proof.
  intros Hc Hk pc H. unfold bind. specialize (Hc pc H).
  destruct (c pc) as [[a|e] pc']; simpl in *; [now apply Hk | exact Hc].
Qed.

Lemma keeps_forEach {A} (I : LUIS -> Prop) (f : A -> Parser unit) (a : list A) :
  (forall x, keeps I (f x)) -> keeps I (forEach f a).
Proof.
  intros Hf. induction a as [|x a IH]; simpl.
  - intros pc H. exact H.
  - apply keeps_bind; [apply Hf | intros _; exact IH].
Qed.

Lemma keeps_leaves {A B} (f : LUIS -> A) (P : A -> Prop) (c : Parser B) :
  leaves f c -> keeps (fun L => P (f L)) c.
Proof. intros H pc HP. now rewrite H. Qed.

Lemma dedupe_fresh (a seen : list string) :
  NoDup (Js.dedupe seen a)
  /\ forall x, In x (Js.dedupe seen a) -> In x a /\ ~ In x seen.
Proof.
  revert seen. induction a as [|y a IH]; intros seen; simpl.
  - split; [constructor | contradiction].
  - destruct (Js.mem y seen) eqn:E.
    + destruct (IH seen) as [H1 H2]. split; [assumption|].
      intros x Hx. destruct (H2 x Hx). auto.
    + apply mem_false in E. destruct (IH (y :: seen)) as [H1 H2]. split.
      * constructor; [|assumption]. intros Hy. destruct (H2 y Hy) as [_ Hn].
        apply Hn. now left.
      * intros x [<-|Hx]; [auto|]. destruct (H2 x Hx) as [Ha Hn].
        split; [auto|]. intros Hs. apply Hn. now right.
Qed.

Lemma newRolesOf_NoDup (roles : option string) : NoDup (newRolesOf roles).
Proof. apply dedupe_fresh. Qed.

Lemma pushNew_fresh (more roles : list string) :
  NoDup more -> (forall r, In r more -> ~ In r roles) ->
  pushNew roles more = roles ++ more.
Proof.
  unfold pushNew. revert roles. induction more as [|m more IH]; intros roles Hn Hf;
    simpl; [now rewrite app_nil_r|].
  inversion Hn; subst.
  rewrite (proj2 (mem_false m roles) (Hf m (or_introl eq_refl))).
  rewrite IH; [now rewrite <- app_assoc | assumption |].
  intros r Hr Hin. apply in_app_or in Hin. destruct Hin as [Hin|[<-|[]]].
  - apply (Hf r); [now right | assumption].
  - contradiction.
Qed.

Lemma In_updateFirst {A} (p : A -> bool) (f : A -> A) (a : list A) (y : A) :
  In y (updateFirst p f a) ->
  In y a \/ exists x, In x a /\ p x = true /\ y = f x.
Proof.
  induction a as [|x a IH]; simpl; [tauto|].
  destruct (p x) eqn:E; simpl.
  - intros [<-|H]; [right; exists x; auto | auto].
  - intros [<-|H]; [auto|]. destruct (IH H) as [H'|[z [Hz [Hp ->]]]]; [auto|].
    right. exists z. auto.
Qed.

Lemma map_updateFirst {A B} (g : A -> B) (p : A -> bool) (f : A -> A) (a : list A) :
  (forall x, g (f x) = g x) -> map g (updateFirst p f a) = map g a.
Proof.
  intros Hf. induction a as [|x a IH]; simpl; [reflexivity|].
  destruct (p x); simpl; [now rewrite Hf | now rewrite IH].
Qed.

Lemma allRoles_updateFirst (p : entityAndRoles.t -> bool) (more : list string)
  (flat : list entityAndRoles.t) :
  NoDup more -> (forall r, In r more -> ~ In r (allRoles flat)) ->
  allRoles (updateFirst p (addRoles more) flat) = allRoles flat
  \/ Permutation (allRoles (updateFirst p (addRoles more) flat))
       (more ++ allRoles flat).
Proof.
  unfold allRoles. intros Hm.
  induction flat as [|x flat IH]; simpl; intros Hf; [now left|].
  destruct (p x); simpl.
  - right. unfold addRoles; cbn [entityAndRoles.roles].
    rewrite pushNew_fresh; [|assumption|].
    + rewrite app_assoc. apply Permutation_app_tail, Permutation_app_comm.
    + intros r Hr Hin. apply (Hf r Hr). apply in_or_app. now left.
  - destruct IH as [IH|IH].
    + intros r Hr Hin. apply (Hf r Hr). apply in_or_app. now right.
    + left. now rewrite IH.
    + right. etransitivity; [apply Permutation_app_head, IH|].
      apply Permutation_app_swap_app.
Qed.

Lemma In_updateFirst_new {A} (p : A -> bool) (f : A -> A) (a : list A) :
  existsb p a = true -> exists x, In x a /\ p x = true /\ In (f x) (updateFirst p f a).
Proof.
  induction a as [|x a IH]; simpl; [discriminate|].
  destruct (p x) eqn:E; simpl.
  - intros _. exists x. auto.
  - intros H. destruct (IH H) as [y [Hy [Hp Hin]]]. exists y. auto.
Qed.

Lemma disjoint_push (flat : list entityAndRoles.t) (n ty : string)
  (rs : list string) :
  disjoint flat -> NoDup rs ->
  (forall x, In x flat -> clashesWithEntity n ty x = false) ->
  (forall r x, In r rs -> In x flat -> clashesWithRole r x = false) ->
  existsb (sameNameAndType n ty) flat = false ->
  disjoint (flat ++ [entityAndRoles.mk n ty rs]).
Proof.
  intros [Hn [Hr Hx]] Hrs E F S.
  assert (Hname : ~ In n (map entityAndRoles.name flat)).
  { intros Hin. apply in_map_iff in Hin. destruct Hin as [x [Hxn Hin]].
    specialize (E x Hin). unfold clashesWithEntity, sameNameOtherType in E.
    apply orb_false_iff in E. destruct E as [E _].
    assert (S' : sameNameAndType n ty x = false).
    { destruct (sameNameAndType n ty x) eqn:S'; [|reflexivity].
      rewrite <- S. symmetry. apply existsb_exists. eauto. }
    unfold sameNameAndType in S'. rewrite Hxn, String.eqb_refl in *. simpl in *.
    rewrite S' in E. discriminate. }
  assert (Hrole : forall r, In r rs -> ~ In r (allRoles flat)).
  { intros r Hin Hall. unfold allRoles in Hall. apply in_concat in Hall.
    destruct Hall as [l [Hl Hrl]]. apply in_map_iff in Hl.
    destruct Hl as [x [<- Hxin]]. specialize (F r x Hin Hxin).
    unfold clashesWithRole in F. apply orb_false_iff in F. destruct F as [F _].
    apply mem_false in F. contradiction. }
  split; [|split].
  - rewrite map_app. simpl. apply NoDup_app; [assumption | repeat constructor; auto |].
    intros a Ha [<-|[]]. contradiction.
  - unfold allRoles. rewrite map_app, concat_app. simpl. rewrite app_nil_r.
    apply NoDup_app; [assumption | assumption |].
    intros r Hall Hin. now apply (Hrole r).
  - intros a b Ha Hb. apply in_app_or in Ha. apply in_app_or in Hb.
    destruct Ha as [Ha|[<-|[]]], Hb as [Hb|[<-|[]]]; simpl.
    + now apply Hx.
    + intros Hin. specialize (F _ a Hin Ha). unfold clashesWithRole in F.
      apply orb_false_iff in F. destruct F as [_ F]. apply String.eqb_neq in F.
      now contradiction F.
    + intros Hin. specialize (E b Hb). unfold clashesWithEntity in E.
      apply orb_false_iff in E. destruct E as [_ E]. apply mem_false in E.
      contradiction.
    + reflexivity.
Qed.

Lemma disjoint_update (flat : list entityAndRoles.t) (n ty : string)
  (rs : list string) :
  disjoint flat -> NoDup rs ->
  (forall r x, In r rs -> In x flat -> clashesWithRole r x = false) ->
  disjoint (updateFirst (sameNameAndType n ty) (addRoles rs) flat).
Proof.
  intros [Hn [Hr Hx]] Hrs F.
  assert (Hrole : forall r, In r rs -> ~ In r (allRoles flat)).
  { intros r Hin Hall. unfold allRoles in Hall. apply in_concat in Hall.
    destruct Hall as [l [Hl Hrl]]. apply in_map_iff in Hl.
    destruct Hl as [x [<- Hxin]]. specialize (F r x Hin Hxin).
    unfold clashesWithRole in F. apply orb_false_iff in F. destruct F as [F _].
    apply mem_false in F. contradiction. }
  assert (Horig : forall y,
             In y (updateFirst (sameNameAndType n ty) (addRoles rs) flat) ->
             exists x, In x flat /\ entityAndRoles.name y = entityAndRoles.name x
                       /\ forall r, In r (entityAndRoles.roles y) ->
                                    In r (entityAndRoles.roles x) \/ In r rs).
  { intros y Hy. apply In_updateFirst in Hy.
    destruct Hy as [Hy|[x [Hin [_ ->]]]].
    - exists y. auto.
    - exists x. split; [assumption|]. split; [reflexivity|].
      intros r. unfold addRoles. simpl. now rewrite pushNew_In. }
  split; [|split].
  - rewrite map_updateFirst; [assumption | reflexivity].
  - destruct (allRoles_updateFirst (sameNameAndType n ty) flat Hrs Hrole) as [->|P];
      [assumption|].
    apply (Permutation_NoDup (Permutation_sym P)).
    apply NoDup_app; [assumption | assumption |].
    intros r Hin Hall. now apply (Hrole r).
  - intros a b Ha Hb Hin.
    destruct (Horig a Ha) as [a0 [Ha0 [Hna _]]].
    destruct (Horig b Hb) as [b0 [Hb0 [Hnb Hrb]]].
    rewrite Hna, Hnb. destruct (Hrb _ Hin) as [H|H].
    + apply Hx; [assumption | assumption |]. now rewrite <- Hna.
    + specialize (F _ a0 H Ha0). unfold clashesWithRole in F.
      apply orb_false_iff in F. destruct F as [_ F]. apply String.eqb_neq in F.
      symmetry in Hna. contradiction.
Qed.

Lemma disjoint_one (n ty : string) (rs : list string) :
  NoDup rs -> disjoint [entityAndRoles.mk n ty rs].
Proof.
  intros H. split; [|split].
  - repeat constructor. auto.
  - unfold allRoles. simpl. now rewrite app_nil_r.
  - intros a b [<-|[]] [<-|[]] _. reflexivity.
Qed.

(** X3.  Role validation keeps the names and the roles of the flat list
    apart: when no name and no role is listed twice before the call, and a
    listed role that is a listed name belongs to the entry of that name,
    the same holds after the call, whether it returns or throws. *)
Theorem validateAndGetRoles_keeps_names_and_roles_apart (X : Externals)
  (roles : option string) (line entityName entityType : string) (pc : parserObj) :
  flatIsDisjoint (LUISJsonStructure pc) ->
  flatIsDisjoint
    (LUISJsonStructure
       (snd (validateAndGetRoles X roles line entityName entityType pc))).
Proof.
  unfold flatIsDisjoint, validateAndGetRoles, bind, gets, throwDiagnostic, throw,
    modify, ret.
  destruct (flatListOfEntityAndRoles (LUISJsonStructure pc)) as [flat|] eqn:Hf.
  - intros H.
    destruct (Js.find (clashesWithEntity entityName entityType) flat) eqn:E;
      [simpl; now rewrite Hf|].
    destruct (firstRoleClash flat (newRolesOf roles)) eqn:F;
      [simpl; now rewrite Hf|].
    simpl. rewrite find_None in E.
    pose proof (firstRoleClash_None _ _ F) as F'.
    destruct (existsb (sameNameAndType entityName entityType) flat) eqn:S.
    + apply disjoint_update; [assumption | apply newRolesOf_NoDup | assumption].
    + apply disjoint_push; try assumption. apply newRolesOf_NoDup.
  - intros _. simpl. apply disjoint_one, newRolesOf_NoDup.
Qed.

Lemma validateAndGetRoles_keeps_names_and_roles_apart_witness :
  flatIsDisjoint
    (LUISJsonStructure
       (snd (validateAndGetRoles sampleExternals (Some "from, to, from")
               "@ ml city hasRoles from, to, from" "city" "ml"
               (flatOf [entityAndRoles.mk "city" "ml" ["home"];
                        entityAndRoles.mk "zip" "regex" []])))).
Proof.
  apply (@validateAndGetRoles_keeps_names_and_roles_apart sampleExternals
           (Some "from, to, from") "@ ml city hasRoles from, to, from"
           "city" "ml").
  split; [|split].
  - simpl. repeat constructor; simpl; intuition discriminate.
  - simpl. repeat constructor; simpl; intuition discriminate.
  - simpl. intros a b [<-|[<-|[]]] [<-|[<-|[]]]; simpl; intuition discriminate.
Defined.

(** X4.  Role validation accepts what does not collide: a declaration whose
    name is listed with no other type and is no listed role, and whose
    roles are no listed names and no listed roles, returns its roles
    without repetition, and the flat list then has an entry of its name
    and type that holds each of them; what the list held before is still
    there under the same names. *)
Theorem validateAndGetRoles_accepts_without_collision (X : Externals)
  (roles : option string) (line entityName entityType : string)
  (pc : parserObj) (flat : list entityAndRoles.t) :
  flatListOfEntityAndRoles (LUISJsonStructure pc) = Some flat ->
  ~ collides flat entityName entityType (newRolesOf roles) ->
  exists pc' flat' item,
    validateAndGetRoles X roles line entityName entityType pc
    = (Returned (newRolesOf roles), pc')
    /\ flatListOfEntityAndRoles (LUISJsonStructure pc') = Some flat'
    /\ In item flat'
    /\ entityAndRoles.name item = entityName
    /\ entityAndRoles.type item = entityType
    /\ (forall r, In r (newRolesOf roles) -> In r (entityAndRoles.roles item))
    /\ (forall old, In old flat ->
          exists new, In new flat'
            /\ entityAndRoles.name new = entityAndRoles.name old
            /\ entityAndRoles.type new = entityAndRoles.type old
            /\ forall r, In r (entityAndRoles.roles old) ->
                         In r (entityAndRoles.roles new)).
Proof.
  intros Hf Hc.
  unfold validateAndGetRoles, bind, gets, throwDiagnostic, throw, modify, ret.
  rewrite Hf.
  destruct (Js.find (clashesWithEntity entityName entityType) flat) as [x|] eqn:E.
  { exfalso. apply Hc. apply find_some in E. destruct E as [Hin E].
    unfold clashesWithEntity, sameNameOtherType in E.
    apply orb_true_iff in E. destruct E as [E|E].
    - left. exists x. apply andb_true_iff in E. destruct E as [E1 E2].
      apply String.eqb_eq in E1. apply negb_true_iff, String.eqb_neq in E2. auto.
    - right. left. exists x. apply mem_In in E. auto. }
  destruct (firstRoleClash flat (newRolesOf roles)) as [x|] eqn:F.
  { exfalso. apply Hc. right. right. clear - F.
    induction (newRolesOf roles) as [|r t IH]; simpl in F; [discriminate|].
    destruct (Js.find (clashesWithRole r) flat) as [y|] eqn:G.
    - apply find_some in G. destruct G as [Hin G]. exists r, y.
      unfold clashesWithRole in G. apply orb_true_iff in G.
      split; [now left|]. split; [assumption|]. destruct G as [G|G].
      + right. now apply mem_In.
      + left. now apply String.eqb_eq.
    - destruct (IH F) as [r' [y [Hr H]]]. exists r', y. split; [now right | exact H]. }
  simpl.
  destruct (existsb (sameNameAndType entityName entityType) flat) eqn:S.
  - destruct (In_updateFirst_new (sameNameAndType entityName entityType)
                (addRoles (newRolesOf roles)) flat S) as [x [Hin [Hp Hnew]]].
    unfold sameNameAndType in Hp. apply andb_true_iff in Hp.
    destruct Hp as [Hp1 Hp2]. apply String.eqb_eq in Hp1, Hp2.
    eexists. eexists. exists (addRoles (newRolesOf roles) x).
    split; [reflexivity|]. split; [reflexivity|]. split; [exact Hnew|].
    split; [exact Hp1|]. split; [exact Hp2|]. split.
    + intros r Hr. unfold addRoles. simpl. apply pushNew_In. now right.
    + intros old Hold. clear - Hold.
      induction flat as [|y flat IH]; [contradiction|]. simpl.
      destruct (sameNameAndType entityName entityType y) eqn:P.
      * destruct Hold as [<-|Hold].
        -- exists (addRoles (newRolesOf roles) y). split; [now left|].
           split; [reflexivity|]. split; [reflexivity|].
           intros r Hr. unfold addRoles. simpl. apply pushNew_In. now left.
        -- exists old. split; [now right | auto].
      * destruct Hold as [<-|Hold].
        -- exists y. split; [now left | auto].
        -- destruct (IH Hold) as [new [Hn H]]. exists new. split; [now right | exact H].
  - eexists. eexists. exists (entityAndRoles.mk entityName entityType (newRolesOf roles)).
    split; [reflexivity|]. split; [reflexivity|].
    split; [apply in_or_app; right; now left|].
    split; [reflexivity|]. split; [reflexivity|]. split; [auto|].
    intros old Hold. exists old. split; [apply in_or_app; now left | auto].
Qed.

Lemma validateAndGetRoles_accepts_without_collision_witness :
  exists pc' flat' item,
    validateAndGetRoles sampleExternals (Some "from, to")
      "@ ml city hasRoles from, to" "city" "ml"
      (flatOf [entityAndRoles.mk "city" "ml" ["home"]])
    = (Returned (newRolesOf (Some "from, to")), pc')
    /\ flatListOfEntityAndRoles (LUISJsonStructure pc') = Some flat'
    /\ In item flat'
    /\ entityAndRoles.name item = "city"
    /\ entityAndRoles.type item = "ml"
    /\ (forall r, In r (newRolesOf (Some "from, to")) ->
                  In r (entityAndRoles.roles item))
    /\ (forall old, In old [entityAndRoles.mk "city" "ml" ["home"]] ->
          exists new, In new flat'
            /\ entityAndRoles.name new = entityAndRoles.name old
            /\ entityAndRoles.type new = entityAndRoles.type old
            /\ forall r, In r (entityAndRoles.roles old) ->
                         In r (entityAndRoles.roles new)).
Proof.
  apply (@validateAndGetRoles_accepts_without_collision sampleExternals
           (Some "from, to") "@ ml city hasRoles from, to" "city" "ml"
           (flatOf [entityAndRoles.mk "city" "ml" ["home"]])
           [entityAndRoles.mk "city" "ml" ["home"]] eq_refl).
  intros [[item [[<-|[]] [_ H]]]|[[item [[<-|[]] H]]|[role [item [Hr [[<-|[]] H]]]]]].
  - now apply H.
  - destruct H as [H|[]]. discriminate H.
  - vm_compute in Hr. simpl in H.
    destruct Hr as [<-|[<-|[]]], H as [H|[H|[]]]; discriminate H.
Defined.

(** X5.  A role is declared once: after a declaration that was accepted
    with a role, every later declaration that has this role, the same
    declaration included, is refused with [INVALID_INPUT] and changes
    nothing. *)
Theorem a_role_is_declared_once (X : Externals)
  (roles roles2 : option string) (line line2 : string)
  (entityName entityType entityName2 entityType2 role : string)
  (pc pc1 : parserObj) (accepted : list string) :
  validateAndGetRoles X roles line entityName entityType pc
  = (Returned accepted, pc1) ->
  In role accepted ->
  In role (newRolesOf roles2) ->
  exists text,
    validateAndGetRoles X roles2 line2 entityName2 entityType2 pc1
    = (Threw (exception INVALID_INPUT text), pc1).
Proof.
  intros H1 Hr Hr2.
  assert (Hheld : exists flat' item,
             flatListOfEntityAndRoles (LUISJsonStructure pc1) = Some flat'
             /\ In item flat' /\ In role (entityAndRoles.roles item)).
  { revert H1.
    unfold validateAndGetRoles, bind, gets, throwDiagnostic, throw, modify, ret.
    destruct (flatListOfEntityAndRoles (LUISJsonStructure pc)) as [flat|].
    - destruct (Js.find (clashesWithEntity entityName entityType) flat);
        [discriminate|].
      destruct (firstRoleClash flat (newRolesOf roles)); [discriminate|].
      simpl. intros H. injection H as <- <-.
      destruct (existsb (sameNameAndType entityName entityType) flat) eqn:S.
      + destruct (In_updateFirst_new (sameNameAndType entityName entityType)
                    (addRoles (newRolesOf roles)) flat S) as [x [_ [_ Hnew]]].
        eexists. eexists. split; [reflexivity|]. split; [exact Hnew|].
        unfold addRoles. simpl. apply pushNew_In. now right.
      + eexists. eexists. split; [reflexivity|].
        split; [apply in_or_app; right; now left | exact Hr].
    - simpl. intros H. injection H as <- <-.
      eexists. eexists. split; [reflexivity|]. split; [now left | exact Hr]. }
  destruct Hheld as [flat' [item [Hf [Hin Hrole]]]].
  unfold validateAndGetRoles, bind, gets, throwDiagnostic, throw.
  rewrite Hf.
  destruct (Js.find (clashesWithEntity entityName2 entityType2) flat');
    [eauto|].
  destruct (firstRoleClash flat' (newRolesOf roles2)) eqn:F; [eauto|].
  exfalso. pose proof (firstRoleClash_None _ _ F role item Hr2 Hin) as C.
  unfold clashesWithRole in C. apply orb_false_iff in C. destruct C as [C _].
  apply mem_false in C. contradiction.
Qed.

Lemma a_role_is_declared_once_witness :
  exists text,
    validateAndGetRoles sampleExternals (Some "from") "@ ml city hasRoles from"
      "city" "ml"
      (snd (validateAndGetRoles sampleExternals (Some "from")
              "@ ml city hasRoles from" "city" "ml" newParserObj))
    = (Threw (exception INVALID_INPUT text),
       snd (validateAndGetRoles sampleExternals (Some "from")
              "@ ml city hasRoles from" "city" "ml" newParserObj)).
Proof.
  apply (@a_role_is_declared_once sampleExternals (Some "from") (Some "from")
           "@ ml city hasRoles from" "@ ml city hasRoles from"
           "city" "ml" "city" "ml" "from" newParserObj _ ["from"] eq_refl).
  - now left.
  - vm_compute. now left.
Defined.

(** ** The generic helpers: adding twice *)

Lemma mergeRoles_self (roles : list string) : mergeRoles roles roles = roles.
Proof.
  unfold mergeRoles. rewrite filter_none; [apply app_nil_r|].
  intros r Hr. apply negb_false_iff. unfold rolesMapHas.
  apply orb_true_iff. left. now apply mem_In.
Qed.

Lemma updateFirst_last {A} (p : A -> bool) (f : A -> A) (a : list A) (x : A) :
  existsb p a = false -> p x = true ->
  updateFirst p f (a ++ [x]) = a ++ [f x].
Proof.
  induction a as [|y a IH]; simpl; intros Ha Hx.
  - now rewrite Hx.
  - apply orb_false_iff in Ha. destruct Ha as [Hy Ha]. rewrite Hy.
    now rewrite IH.
Qed.

Lemma existsb_last {A} (p : A -> bool) (a : list A) (x : A) :
  p x = true -> existsb p (a ++ [x]) = true.
Proof. intros H. rewrite existsb_app. simpl. rewrite H. apply orb_true_r. Qed.

Lemma hasName_itemLiteral {T} `{Item T} (value : string) (roles : list string) :
  hasName value (itemLiteral value roles) = true.
Proof. unfold hasName. rewrite nameOf_itemLiteral. apply String.eqb_refl. Qed.

Lemma existsb_upsert {T} `{Item T} (value : string) (roles : list string)
  (c : list T) :
  existsb (hasName value) (upsert value roles c) = true.
Proof.
  unfold upsert. destruct (existsb (hasName value) c) eqn:E.
  - rewrite existsb_updateFirst; [assumption|].
    intros x Hx. now rewrite hasName_setRoles.
  - apply existsb_last, hasName_itemLiteral.
Qed.

Lemma upsert_twice {T} `{Item T}
  (setRoles_setRoles : forall r r' (x : T), setRoles r (setRoles r' x) = setRoles r x)
  (rolesOf_setRoles : forall r (x : T), rolesOf (setRoles r x) = r)
  (rolesOf_itemLiteral : forall n r, rolesOf (itemLiteral n r : T) = r)
  (setRoles_itemLiteral : forall n r, setRoles r (itemLiteral n r : T) = itemLiteral n r)
  (value : string) (roles : list string) (c : list T) :
  upsert value roles (upsert value roles c) = upsert value roles c.
Proof.
  destruct (existsb (hasName value) c) eqn:E.
  - now apply upsert_idempotent.
  - unfold upsert at 2. rewrite E. unfold upsert.
    assert (Hl : hasName value (itemLiteral value roles : T) = true)
      by apply hasName_itemLiteral.
    rewrite (existsb_last _ c _ Hl).
    rewrite (updateFirst_last _ _ c _ E Hl).
    now rewrite rolesOf_itemLiteral, mergeRoles_self, setRoles_itemLiteral, E.
Qed.

Lemma addIfAbsent_present {T} `{Named T} (x : T) (c : list T) :
  existsb (hasName (nameOf x)) c = true -> addIfAbsent x c = c.
Proof. unfold addIfAbsent. now intros ->. Qed.

Lemma addIfAbsent_twice {T} `{Named T} (x : T) (c : list T) :
  addIfAbsent x (addIfAbsent x c) = addIfAbsent x c.
Proof.
  apply addIfAbsent_present. unfold addIfAbsent.
  destruct (existsb (hasName (nameOf x)) c) eqn:E; [assumption|].
  apply existsb_last. unfold hasName. apply String.eqb_refl.
Qed.

(** X6.  Adding twice is adding once.  For a collection of entities, a
    second [addItemIfNotPresent] of a name changes nothing, a second
    [addItemOrRoleIfNotPresent] of a name with the same roles changes
    nothing, and [addItemIfNotPresent] changes nothing after
    [addItemOrRoleIfNotPresent] of the name: it never touches the roles of
    a record that is there. *)
Theorem adding_twice_is_adding_once (type : LUISObjNameEnum) (value : string)
  (roles : list string) (L : LUIS) :
  type <> INTENT ->
  addItemIfNotPresent type value (addItemIfNotPresent type value L)
  = addItemIfNotPresent type value L
  /\ addItemOrRoleIfNotPresent type value roles
       (addItemOrRoleIfNotPresent type value roles L)
     = addItemOrRoleIfNotPresent type value roles L
  /\ addItemIfNotPresent type value
       (addItemOrRoleIfNotPresent type value roles L)
     = addItemOrRoleIfNotPresent type value roles L.
Proof.
  intros Ht.
  destruct type; [contradiction| | | | | |]; (split; [|split]);
    cbv beta iota delta
      [addItemIfNotPresent addItemOrRoleIfNotPresent set_entities
       set_patternAnyEntities set_closedLists set_prebuiltEntities
       set_regex_entities set_composites intents entities composites
       closedLists regex_entities model_features prebuiltEntities
       patternAnyEntities patterns utterances flatListOfEntityAndRoles];
    f_equal;
    first [ apply addIfAbsent_twice
          | apply upsert_twice; reflexivity
          | apply addIfAbsent_present; rewrite nameOf_itemLiteral;
            apply existsb_upsert ].
Qed.

Lemma adding_twice_is_adding_once_witness :
  let L := set_entities [itemObj.mk "city" ["from"]] emptyLUIS in
  addItemIfNotPresent ENTITIES "zip" (addItemIfNotPresent ENTITIES "zip" L)
  = addItemIfNotPresent ENTITIES "zip" L
  /\ addItemOrRoleIfNotPresent ENTITIES "city" ["to"; "to"]
       (addItemOrRoleIfNotPresent ENTITIES "city" ["to"; "to"] L)
     = addItemOrRoleIfNotPresent ENTITIES "city" ["to"; "to"] L
  /\ addItemIfNotPresent ENTITIES "city"
       (addItemOrRoleIfNotPresent ENTITIES "city" ["to"; "to"] L)
     = addItemOrRoleIfNotPresent ENTITIES "city" ["to"; "to"] L.
Proof.
  intros L.
  destruct (@adding_twice_is_adding_once ENTITIES "zip" ["to"; "to"] L
              ltac:(discriminate)) as [H1 _].
  destruct (@adding_twice_is_adding_once ENTITIES "city" ["to"; "to"] L
              ltac:(discriminate)) as [_ H2].
  exact (conj H1 H2).
Defined.

(** ** Declarations without a type *)

Lemma getEntityType_first (entityName : string)
  (before after : list NewEntity.t) (first : NewEntity.t) :
  (forall e, In e before -> NewEntity.Name e <> entityName) ->
  NewEntity.Name first = entityName ->
  getEntityType entityName (before ++ first :: after) = NewEntity.Type_ first.
Proof.
  unfold getEntityType, Js.find. intros Hb Hf.
  induction before as [|e before IH]; simpl.
  - now rewrite (proj2 (String.eqb_eq _ _) Hf).
  - rewrite (proj2 (String.eqb_neq _ _) (Hb e (or_introl eq_refl))).
    apply IH. intros x Hx. apply Hb. now right.
Qed.

(** X7.  A declaration without a type has the type of the first
    declaration of its name in the file.  When that one has no type
    either, as when the declaration without type comes first, it is
    refused with [INVALID_INPUT] and nothing changes, whatever the later
    declarations of the name say; otherwise it is handled as if it had
    that type. *)
Theorem a_declaration_without_type_has_the_first_type_of_its_name
  (X : Externals) (entities before after : list NewEntity.t) (log : bool)
  (locale : option string) (entity first : NewEntity.t) :
  Js.truthy (NewEntity.Type_ entity) = false ->
  entities = before ++ first :: after ->
  (forall e, In e before -> NewEntity.Name e <> NewEntity.Name entity) ->
  NewEntity.Name first = NewEntity.Name entity ->
  (Js.truthy (NewEntity.Type_ first) = false ->
   forall pc, exists text,
     handleNewEntity X entities log locale entity pc
     = (Threw (exception INVALID_INPUT text), pc))
  /\ (Js.truthy (NewEntity.Type_ first) = true ->
      forall pc,
        handleNewEntity X entities log locale entity pc
        = handleNewEntity X entities log locale
            (withType (NewEntity.Type_ first) entity) pc).
Proof.
  intros Ht -> Hb Hf.
  pose proof (@getEntityType_first (NewEntity.Name entity) before after first Hb Hf)
    as Hg.
  split; intros Hfirst pc; unfold handleNewEntity; cbn [withType NewEntity.Name
    NewEntity.Type_ NewEntity.Roles NewEntity.CompositeDefinition
    NewEntity.ListBody NewEntity.RegexDefinition NewEntity.line];
    rewrite Ht, ?Hfirst; cbn [negb]; rewrite Hg.
  - destruct (NewEntity.Type_ first) as [t|]; unfold throwDiagnostic, throw.
    + simpl in Hfirst. apply negb_false_iff in Hfirst. rewrite Hfirst. eauto.
    + eauto.
  - reflexivity.
Qed.

Lemma a_declaration_without_type_has_the_first_type_of_its_name_witness :
  let roles := NewEntity.mk "city" None (Some "from") None [] None
                 "@ city hasRoles from" in
  let typed := NewEntity.mk "city" (Some "ml") None None [] None "@ ml city" in
  (exists text,
      handleNewEntity sampleExternals [roles; typed] false None roles newParserObj
      = (Threw (exception INVALID_INPUT text), newParserObj))
  /\ handleNewEntity sampleExternals [typed; roles] false None roles newParserObj
     = handleNewEntity sampleExternals [typed; roles] false None
         (withType (Some "ml") roles) newParserObj.
Proof.
  intros roles typed. split.
  - apply (proj1 (@a_declaration_without_type_has_the_first_type_of_its_name
                    sampleExternals [roles; typed] [] [typed] false None
                    roles roles eq_refl eq_refl
                    (fun e (H : In e []) => match H with end) eq_refl)).
    reflexivity.
  - apply (proj2 (@a_declaration_without_type_has_the_first_type_of_its_name
                    sampleExternals [typed; roles] [] [roles] false None
                    roles typed eq_refl eq_refl
                    (fun e (H : In e []) => match H with end) eq_refl)).
    reflexivity.
Defined.

(** ** A regular expression of the old syntax without its last slash *)

Lemma prefix_includes (hay needle : string) :
  String.prefix needle hay = true -> Js.includes hay needle = true.
Proof.
  intros H. destruct hay; unfold Js.includes; fold Js.includes; now rewrite H.
Qed.

Lemma startsWith_char (s : string) (c : ascii) :
  Js.startsWith s (String c "") = true -> exists t, s = String c t.
Proof.
  unfold Js.startsWith. destruct s as [|d t]; simpl; [discriminate|].
  destruct (ascii_dec c d) as [<-|]; [eauto | discriminate].
Qed.

Lemma absorbPatternAny_returns (X : Externals) (entityName entityType : string)
  (entityRoles : list string) (line : string) (pc : parserObj) :
  isPhraseListType entityType = false ->
  exists roles pc',
    absorbPatternAny X entityName entityType entityRoles line pc
    = (Returned roles, pc')
    /\ regex_entities (LUISJsonStructure pc') = regex_entities (LUISJsonStructure pc)
    /\ remainder (patternAnyEntities (LUISJsonStructure pc'))
         (patternAnyEntities (LUISJsonStructure pc)).
Proof.
  unfold isPhraseListType. intros Hp.
  unfold absorbPatternAny, RemoveDuplicatePatternAnyEntity, bind, gets, modify, ret.
  rewrite Hp.
  match goal with
  | |- context [Js.find ?p ?a] => destruct (Js.find p a), (Js.findIndex p a)
  end; simpl;
    eexists; eexists; (split; [reflexivity|]); (split; [reflexivity|]);
    first [apply remainder_splice | apply remainder_refl].
Qed.

(** X8.  In the old syntax a regular expression that opens with a slash
    and does not close with one is not refused with
    [INVALID_REGEX_ENTITY]: the message is built from a variable that does
    not exist there, and the declaration ends in a [ReferenceError].  No
    regular expression entity is added, and the pattern.any entities lose
    at most records. *)
Theorem regex_without_last_slash_is_a_ReferenceError (X : Externals)
  (log : bool) (locale : option string) (entity : Entity.t) (pc : parserObj) :
  let entityType := snd (getRolesAndType X (Entity.Type_ entity)) in
  Js.startsWith entityType "/" = true ->
  Js.endsWith entityType "/" = false ->
  Js.endsWith entityType "=" = false ->
  Js.mem entityType (consolidatedList X) = false ->
  isPhraseListType entityType = false ->
  exists pc',
    handleEntity X log locale entity pc = (Threw (ReferenceError "regExEntity"), pc')
    /\ regex_entities (LUISJsonStructure pc') = regex_entities (LUISJsonStructure pc)
    /\ remainder (patternAnyEntities (LUISJsonStructure pc'))
         (patternAnyEntities (LUISJsonStructure pc)).
Proof.
  intros entityType Hs He Hq Hc Hp.
  unfold handleEntity. fold entityType.
  set (pEntityName := if String.eqb (Js.toLowerCase (Entity.Name entity)) "prebuilt"
                      then entityType else Entity.Name entity).
  unfold bind at 1.
  destruct (@absorbPatternAny_returns X pEntityName entityType
              (fst (getRolesAndType X (Entity.Type_ entity)))
              (Entity.line entity) pc Hp) as [roles [pc' [-> [Hr Hpa]]]].
  exists pc'. split; [|split; assumption].
  rewrite Hc, Hq, Hs, He.
  assert (Hphrase : Js.startsWith (Js.trim (Js.toLowerCase entityType)) "phraselist"
                    = false).
  { destruct (Js.startsWith (Js.trim (Js.toLowerCase entityType)) "phraselist")
      eqn:E; [|reflexivity].
    unfold Js.startsWith in E. apply prefix_includes in E.
    unfold isPhraseListType in Hp. congruence. }
  rewrite Hphrase.
  destruct (@startsWith_char _ _ Hs) as [t Ht]. rewrite Ht. reflexivity.
Qed.

Lemma regex_without_last_slash_is_a_ReferenceError_witness :
  exists pc',
    handleEntity sampleExternals false None
      (Entity.mk "zip" "/[0-9]{5}" [] "$zip:/[0-9]{5}") newParserObj
    = (Threw (ReferenceError "regExEntity"), pc')
    /\ regex_entities (LUISJsonStructure pc') = regex_entities emptyLUIS
    /\ remainder (patternAnyEntities (LUISJsonStructure pc'))
         (patternAnyEntities emptyLUIS).
Proof.
  apply (@regex_without_last_slash_is_a_ReferenceError sampleExternals false None
           (Entity.mk "zip" "/[0-9]{5}" [] "$zip:/[0-9]{5}") newParserObj);
    reflexivity.
Defined.

(** ** A declared kind takes the place of a simple entity *)

Lemma spliceLoop_absent {T} `{Named T} (n : string) (a : list T) :
  existsb (hasName n) a = false -> spliceLoop n a = a.
Proof.
  induction a as [|x a IH]; simpl; [reflexivity|].
  intros Hx. apply orb_false_iff in Hx. destruct Hx as [Hx Ha].
  rewrite Hx. now rewrite IH.
Qed.

Lemma filter_absent {T} `{Named T} (n : string) (a : list T) :
  existsb (hasName n) a = false ->
  filter (fun x => negb (hasName n x)) a = a.
Proof.
  induction a as [|x a IH]; simpl; [reflexivity|].
  intros Hx. apply orb_false_iff in Hx. destruct Hx as [Hx Ha].
  rewrite Hx. simpl. now rewrite IH.
Qed.

(** Where no name is repeated, the loop that splices while it counts
    removes the record of the name. *)
Lemma uniq_spliceLoop {T} `{Named T} (n : string) (a : list T) :
  uniq a -> spliceLoop n a = filter (fun x => negb (hasName n x)) a.
Proof.
  unfold uniq. induction a as [|x a IH]; [reflexivity|].
  intros Hu. inversion Hu as [|? ? Hx Ha]; subst.
  cbn [spliceLoop filter]. destruct (hasName n x) eqn:E; cbn [negb].
  - assert (Hn : existsb (hasName n) a = false).
    { apply existsb_hasName_false. unfold hasName in E.
      apply String.eqb_eq in E. now rewrite <- E. }
    rewrite (filter_absent _ _ Hn).
    destruct a as [|y t]; [reflexivity|].
    simpl in Hn. apply orb_false_iff in Hn. destruct Hn as [_ Hn].
    now rewrite (spliceLoop_absent _ _ Hn).
  - now rewrite IH.
Qed.

Lemma findByName_filter {T} `{Named T} (n m : string) (a : list T) :
  findByName m (filter (fun x => negb (hasName n x)) a)
  = if String.eqb m n then None else findByName m a.
Proof.
  unfold findByName, Js.find.
  induction a as [|x a IH]; simpl; [now destruct (String.eqb m n)|].
  destruct (hasName n x) eqn:E; simpl.
  - rewrite IH. destruct (String.eqb m n) eqn:M; [reflexivity|].
    unfold hasName in *. apply String.eqb_eq in E. rewrite E.
    rewrite String.eqb_sym, M. reflexivity.
  - rewrite IH. destruct (String.eqb m n) eqn:M; [|reflexivity].
    apply String.eqb_eq in M. subst m. now rewrite E.
Qed.

Lemma rolesOfLabels_incl (entityType : string) (labels : list utteranceEntity.t)
  (entityRoles roles : list string) :
  rolesOfLabels entityType labels entityRoles = Some roles ->
  incl entityRoles roles.
Proof.
  revert entityRoles.
  induction labels as [|l labels IH]; cbn [rolesOfLabels]; intros entityRoles R.
  - injection R as <-. apply incl_refl.
  - destruct (utteranceEntity.role l) as [role|].
    + intros x Hx. apply (IH _ R). apply pushNew_In. now left.
    + destruct (negb (String.eqb entityType "Phrase List")); [discriminate|].
      now apply IH.
Qed.

(** The parser object after the call, and the roles of the simple entity
    in what is returned. *)
Lemma VerifyAndUpdateSimpleEntityCollection_outcome (X : Externals)
  (entityName entityType : string) (pc : parserObj) :
  exists r,
    VerifyAndUpdateSimpleEntityCollection X entityName entityType pc
    = (r,
       match findByName entityName (entities (LUISJsonStructure pc)) with
       | Some simple =>
           if negb (String.eqb entityType "Phrase List")
           then onLUIS (fun L => set_entities
                                   (spliceLoop (itemObj.name simple) (entities L)) L)
                  pc
           else pc
       | None => pc
       end)
    /\ forall simple roles,
         findByName entityName (entities (LUISJsonStructure pc)) = Some simple ->
         r = Returned roles -> incl (itemObj.roles simple) roles.
Proof.
  unfold VerifyAndUpdateSimpleEntityCollection, bind, gets, modify, ret,
    throwDiagnostic, throw.
  destruct (findByName entityName (entities (LUISJsonStructure pc))) as [simple|];
    [destruct (negb (String.eqb entityType "Phrase List"))|];
    cbn [onLUIS LUISJsonStructure set_entities utterances];
    match goal with
    | |- context [Js.find ?p ?a] => destruct (Js.find p a) as [u|]
    end;
    try match goal with
        | |- context [rolesOfLabels ?t ?l ?r] =>
            destruct (rolesOfLabels t l r) as [rs|] eqn:R
        end;
    eexists; (split; [reflexivity|]);
    intros simple' roles Hs Hr; try discriminate;
    injection Hs as <-; injection Hr as <-;
    try (apply rolesOfLabels_incl in R);
    intros x Hx;
    try apply R; apply pushNew_In; now right.
Qed.

(** X9.  A declaration of another kind takes the place of the simple
    entity of its name.  Where no simple entity is listed twice and the
    kind is not a phrase list, after
    [VerifyAndUpdateSimpleEntityCollection], whether it returns or throws,
    no simple entity has the name, the simple entities of the other names
    are as before, and the roles returned hold the roles of the entity
    that was removed. *)
Theorem a_declared_kind_replaces_the_simple_entity (X : Externals)
  (entityName entityType : string) (pc : parserObj) :
  uniq (entities (LUISJsonStructure pc)) ->
  entityType <> "Phrase List" ->
  let result := VerifyAndUpdateSimpleEntityCollection X entityName entityType pc in
  findByName entityName (entities (LUISJsonStructure (snd result))) = None
  /\ (forall other, other <> entityName ->
        findByName other (entities (LUISJsonStructure (snd result)))
        = findByName other (entities (LUISJsonStructure pc)))
  /\ (forall simple roles,
        findByName entityName (entities (LUISJsonStructure pc)) = Some simple ->
        fst result = Returned roles ->
        incl (itemObj.roles simple) roles).
Proof.
  intros Hu Ht result.
  destruct (VerifyAndUpdateSimpleEntityCollection_outcome X entityName entityType pc)
    as [r [E Hr]].
  subst result. rewrite E. cbn [fst snd].
  split; [|split; [|exact Hr]];
    destruct (findByName entityName (entities (LUISJsonStructure pc)))
      as [simple|] eqn:F; try reflexivity; try assumption;
    rewrite (proj2 (String.eqb_neq _ _) Ht);
    cbn [negb onLUIS LUISJsonStructure set_entities entities];
    pose proof (findByName_name _ _ F) as Hname;
    replace (itemObj.name simple) with entityName by (symmetry; exact Hname);
    rewrite (uniq_spliceLoop _ Hu).
  - now rewrite findByName_filter, String.eqb_refl.
  - intros other Ho.
    now rewrite findByName_filter, (proj2 (String.eqb_neq _ _) Ho).
Qed.

Lemma a_declared_kind_replaces_the_simple_entity_witness :
  let pc := onLUIS (set_entities [itemObj.mk "zip" ["home"]; itemObj.mk "city" []])
              newParserObj in
  let result := VerifyAndUpdateSimpleEntityCollection sampleExternals "zip" "RegEx" pc in
  findByName "zip" (entities (LUISJsonStructure (snd result))) = None
  /\ (forall other, other <> "zip" ->
        findByName other (entities (LUISJsonStructure (snd result)))
        = findByName other (entities (LUISJsonStructure pc)))
  /\ (forall simple roles,
        findByName "zip" (entities (LUISJsonStructure pc)) = Some simple ->
        fst result = Returned roles ->
        incl (itemObj.roles simple) roles).
Proof.
  intros pc.
  apply (@a_declared_kind_replaces_the_simple_entity sampleExternals "zip" "RegEx" pc).
  - repeat constructor; simpl; intuition discriminate.
  - discriminate.
Defined.

Lemma rolesOfLabels_None (entityType : string) (labels : list utteranceEntity.t)
  (entityRoles : list string) :
  entityType <> "Phrase List" ->
  rolesOfLabels entityType labels entityRoles = None
  <-> exists label, In label labels /\ utteranceEntity.role label = None.
Proof.
  intros Ht. revert entityRoles.
  induction labels as [|l labels IH]; cbn [rolesOfLabels]; intros entityRoles.
  - split; [discriminate | intros [label [[] _]]].
  - destruct (utteranceEntity.role l) as [role|] eqn:R.
    + rewrite IH. split; intros [label [Hin Hr]]; exists label.
      * split; [now right | assumption].
      * destruct Hin as [<-|Hin]; [congruence | auto].
    + rewrite (proj2 (String.eqb_neq _ _) Ht). cbn [negb].
      split; [intros _; exists l; split; [now left | assumption] | reflexivity].
Qed.

Lemma VerifyAndUpdateSimpleEntityCollection_result (X : Externals)
  (entityName entityType : string) (pc : parserObj) :
  exists entityRoles,
    match Js.find (labelsEntity entityName) (utterances (LUISJsonStructure pc)) with
    | Some utterance =>
        match rolesOfLabels entityType
                (filter (fun item =>
                           String.eqb (utteranceEntity.entity item) entityName)
                   (uttereances.entities utterance)) entityRoles with
        | Some roles =>
            fst (VerifyAndUpdateSimpleEntityCollection X entityName entityType pc)
            = Returned roles
        | None =>
            exists text,
              fst (VerifyAndUpdateSimpleEntityCollection X entityName entityType pc)
              = Threw (exception INVALID_INPUT text)
        end
    | None =>
        fst (VerifyAndUpdateSimpleEntityCollection X entityName entityType pc)
        = Returned entityRoles
    end.
Proof.
  exists (match findByName entityName (entities (LUISJsonStructure pc)) with
          | Some simple => pushNew [] (itemObj.roles simple)
          | None => []
          end).
  unfold VerifyAndUpdateSimpleEntityCollection, bind, gets, modify, ret,
    throwDiagnostic, throw.
  destruct (findByName entityName (entities (LUISJsonStructure pc))) as [simple|];
    [destruct (negb (String.eqb entityType "Phrase List"))|];
    cbn [onLUIS LUISJsonStructure set_entities utterances];
    (destruct (Js.find (labelsEntity entityName) (utterances (LUISJsonStructure pc)))
       as [u|]; [|reflexivity]);
    match goal with
    | |- context [rolesOfLabels ?t ?l ?r] => destruct (rolesOfLabels t l r)
    end; cbn [fst]; eauto.
Qed.

(** X10.  Whether a declaration of another kind is refused for a label is
    decided by one utterance: the first that labels the name.  A kind that
    is not a phrase list is refused exactly when that utterance labels the
    name without a role; a label without role in a later utterance is not
    seen.  The exception is [INVALID_INPUT]. *)
Theorem the_first_labelled_utterance_decides (X : Externals)
  (entityName entityType : string) (pc : parserObj) :
  entityType <> "Phrase List" ->
  let result := VerifyAndUpdateSimpleEntityCollection X entityName entityType pc in
  ((exists e, fst result = Threw e)
   <-> exists utterance label,
         Js.find (labelsEntity entityName) (utterances (LUISJsonStructure pc))
         = Some utterance
         /\ In label (uttereances.entities utterance)
         /\ utteranceEntity.entity label = entityName
         /\ utteranceEntity.role label = None)
  /\ forall e, fst result = Threw e -> exists text, e = exception INVALID_INPUT text.
Proof.
  intros Ht result. subst result.
  destruct (VerifyAndUpdateSimpleEntityCollection_result X entityName entityType pc)
    as [entityRoles H].
  destruct (Js.find (labelsEntity entityName) (utterances (LUISJsonStructure pc)))
    as [u|].
  - destruct (rolesOfLabels entityType _ entityRoles) as [roles|] eqn:R.
    + rewrite H. split; [split|].
      * intros [e He]. discriminate He.
      * intros [u' [label [Hu [Hin [Hn Hr]]]]]. injection Hu as <-.
        exfalso.
        assert (N : rolesOfLabels entityType
                      (filter (fun item =>
                                 String.eqb (utteranceEntity.entity item) entityName)
                         (uttereances.entities u)) entityRoles = None).
        { apply rolesOfLabels_None; [assumption|]. exists label.
          split; [|assumption]. apply filter_In. split; [assumption|].
          now apply String.eqb_eq. }
        congruence.
      * intros e He. discriminate He.
    + destruct H as [text H]. rewrite H. split; [split|].
      * intros _. apply rolesOfLabels_None in R; [|assumption].
        destruct R as [label [Hin Hr]]. apply filter_In in Hin.
        destruct Hin as [Hin Hn]. apply String.eqb_eq in Hn.
        exists u, label. auto.
      * intros _. eauto.
      * intros e [= <-]. eauto.
  - rewrite H. split; [split|].
    + intros [e He]. discriminate He.
    + intros [u' [label [Hu _]]]. discriminate Hu.
    + intros e He. discriminate He.
Qed.

Lemma the_first_labelled_utterance_decides_witness :
  let pc := onLUIS (set_utterances
                      [uttereances.mk "fly to Paris" "book"
                         [utteranceEntity.mk "city" 7%Z 11%Z (Some "to")];
                       uttereances.mk "in Rome" "where"
                         [utteranceEntity.mk "city" 3%Z 6%Z None]])
              newParserObj in
  exists roles pc',
    VerifyAndUpdateSimpleEntityCollection sampleExternals "city" "List" pc
    = (Returned roles, pc').
Proof.
  intros pc.
  destruct (@the_first_labelled_utterance_decides sampleExternals "city" "List" pc
              ltac:(discriminate)) as [[Hthrows _] _].
  destruct (VerifyAndUpdateSimpleEntityCollection sampleExternals "city" "List" pc)
    as [[roles|e] pc'] eqn:E; [eauto|].
  exfalso. destruct (Hthrows (ex_intro _ e eq_refl))
    as [u [label [Hu [Hin [_ Hr]]]]].
  injection Hu as <-. destruct Hin as [<-|[]]. discriminate Hr.
Defined.

(** ** The resolver declares nothing *)

Lemma map_upsert_held {T B} `{Item T} (g : T -> B) (value : string)
  (roles : list string) (c : list T) :
  (forall r x, g (setRoles r x) = g x) ->
  inCollection value c = true ->
  map g (upsert value roles c) = map g c.
Proof.
  unfold inCollection, upsert. intros Hg ->.
  apply map_updateFirst. intros x. apply Hg.
Qed.

Lemma declarations_addItemOrRoleIfNotPresent (type : LUISObjNameEnum)
  (value : string) (roles : list string) (L : LUIS) :
  held type value L = true ->
  declarations (addItemOrRoleIfNotPresent type value roles L) = declarations L.
Proof.
  unfold held, declarations. destruct type; intros H;
    cbv beta iota delta
      [addItemOrRoleIfNotPresent set_intents set_entities
       set_patternAnyEntities set_closedLists set_prebuiltEntities
       set_regex_entities set_composites intents entities composites
       closedLists regex_entities model_features prebuiltEntities
       patternAnyEntities patterns utterances flatListOfEntityAndRoles];
    try reflexivity;
    (erewrite map_upsert_held; [reflexivity | intros; reflexivity | exact H]).
Qed.

Lemma declarations_step (type : LUISObjNameEnum) (value : string)
  (roles : list string) (found role : bool) (L : LUIS) :
  (found = true -> held type value L = true) ->
  declarations (if found && role
                then addItemOrRoleIfNotPresent type value roles L else L)
  = declarations L.
Proof.
  intros H. destruct found; [|reflexivity]. destruct role; [|reflexivity].
  apply declarations_addItemOrRoleIfNotPresent. now apply H.
Qed.

Lemma declarations_registerPatternEntity (entity : parserEntity.t) (L : LUIS) :
  declarations (registerPatternEntity entity L) = declarations L.
Proof.
  unfold registerPatternEntity.
  set (name := parserEntity.entity entity).
  set (role := parserEntity.role entity).
  cbv zeta.
  set (L1 := if inCollection name (entities L) && Js.truthy role
             then addItemOrRoleIfNotPresent ENTITIES name (trimmedRole role) L
             else L).
  set (L2 := if inCollection name (composites L1) && Js.truthy role
             then addItemOrRoleIfNotPresent COMPOSITES name (trimmedRole role) L1
             else L1).
  set (L3 := if inCollection name (closedLists L2) && Js.truthy role
             then addItemOrRoleIfNotPresent CLOSEDLISTS name (trimmedRole role) L2
             else L2).
  set (L4 := if inCollection name (regex_entities L3) && Js.truthy role
             then addItemOrRoleIfNotPresent REGEX name (trimmedRole role) L3
             else L3).
  set (L5 := if inCollection name (prebuiltEntities L4) && Js.truthy role
             then addItemOrRoleIfNotPresent PREBUILT name (trimmedRole role) L4
             else L4).
  assert (H5 : declarations L5 = declarations L).
  { subst L5. rewrite declarations_step by (intros H; exact H).
    subst L4. rewrite declarations_step by (intros H; exact H).
    subst L3. rewrite declarations_step by (intros H; exact H).
    subst L2. rewrite declarations_step by (intros H; exact H).
    subst L1. now rewrite declarations_step. }
  match goal with
  | |- declarations (if ?c then _ else _) = _ => destruct c; [|exact H5]
  end.
  destruct (Js.truthy role); rewrite <- H5.
  - now apply declarations_addItemOrRoleIfNotPresent.
  - reflexivity.
Qed.

Lemma declarations_resolveLabel (X : Externals) (utterance context : string)
  (entity : parserEntity.t) :
  leaves declarations (resolveLabel X utterance context entity).
Proof.
  intros pc. unfold resolveLabel, bind, gets, modify, ret, throwDiagnostic, throw.
  cbv zeta.
  set (e := handleAtPrefix entity (flatListOfEntityAndRoles (LUISJsonStructure pc))).
  destruct (_ && negb _); [reflexivity|].
  destruct (inCollection (parserEntity.entity e) (composites (LUISJsonStructure pc)))
    eqn:C.
  { destruct (Js.truthy (parserEntity.role e)); [|reflexivity].
    cbn [snd onLUIS LUISJsonStructure].
    now apply declarations_addItemOrRoleIfNotPresent. }
  destruct (inCollection (parserEntity.entity e) (closedLists (LUISJsonStructure pc)))
    eqn:CL.
  { destruct (Js.truthy (parserEntity.role e)); [|reflexivity].
    cbn [snd onLUIS LUISJsonStructure].
    now apply declarations_addItemOrRoleIfNotPresent. }
  destruct (inCollection (parserEntity.entity e)
              (prebuiltEntities (LUISJsonStructure pc))) eqn:P.
  { destruct (Js.truthy (parserEntity.role e)); [|reflexivity].
    cbn [snd onLUIS LUISJsonStructure].
    now apply declarations_addItemOrRoleIfNotPresent. }
  destruct (inCollection (parserEntity.entity e)
              (regex_entities (LUISJsonStructure pc))) eqn:R.
  { destruct (Js.truthy (parserEntity.role e)); [|reflexivity].
    cbn [snd onLUIS LUISJsonStructure].
    now apply declarations_addItemOrRoleIfNotPresent. }
  destruct (findByName _ _) as [PA|].
  - destruct (negb _).
    + cbn [snd onLUIS LUISJsonStructure].
      match goal with
      | |- context [Js.findIndex ?p ?a] => destruct (Js.findIndex p a)
      end; reflexivity.
    + destruct (Js.truthy (parserEntity.role e)); reflexivity.
  - destruct (Js.truthy (parserEntity.role e)); reflexivity.
Qed.

Lemma handleUtteranceAndEntities_declarations (X : Externals)
  (intentName : string) (line : UtteranceAndEntities.t) :
  leaves declarations (handleUtteranceAndEntities X intentName line).
Proof.
  unfold handleUtteranceAndEntities. cbv zeta.
  apply leaves_bind.
  { unfold handleLinkRef. destruct (isUtteranceLinkRef X _); [|apply leaves_ret].
    destruct (parseLinkURI X _); [apply leaves_throw|]. intros pc. reflexivity. }
  intros _.
  destruct (UtteranceAndEntities.entities line) as [|e es] eqn:E.
  - unfold handleUnlabelledLine. untouched.
  - destruct (existsb isPatternAny (e :: es)).
    + unfold handlePatternLine.
      apply leaves_bind; [apply leaves_gets | intros fl].
      destruct (handleAtForPattern _ _ fl) as [u es'].
      destruct (filter _ es'); [|apply leaves_throwDiagnostic].
      apply leaves_bind; [untouched | intros _].
      apply leaves_forEach. intros entity.
      apply leaves_modify. intros L. apply declarations_registerPatternEntity.
    + unfold handleLabelledLine.
      apply leaves_bind.
      { apply leaves_mapM. intros entity. apply declarations_resolveLabel. }
      intros es'.
      apply leaves_bind; [apply leaves_gets | intros found].
      destruct (labelsOf es') as [pushed bad]. untouched.
Qed.

(** X11.  An intent section declares nothing.  Whatever its lines say, and
    whether it is accepted or refused, the composites keep their names and
    their children, the closed lists their names and their sublists, the
    regular expression entities their names and their patterns, the
    prebuilt entities their names, and the phrase lists are as they were:
    a label adds roles to these records and nothing else. *)
Theorem an_intent_section_declares_nothing (X : Externals) (intent : Intent.t)
  (pc : parserObj) :
  declarations (LUISJsonStructure (snd (handleIntent X intent pc)))
  = declarations (LUISJsonStructure pc).
Proof.
  revert pc. change (leaves declarations (handleIntent X intent)).
  unfold handleIntent. cbv zeta.
  apply leaves_bind; [apply leaves_modify; intros L; reflexivity | intros _].
  apply leaves_forEach. intros line.
  apply handleUtteranceAndEntities_declarations.
Qed.

(** ** An utterance is recorded once for an intent *)

Lemma sameUtterance_key (utterance intentName : string) (u : uttereances.t) :
  sameUtterance utterance intentName u = true
  <-> utteranceKey u = (utterance, intentName).
Proof.
  unfold sameUtterance, utteranceKey.
  rewrite andb_true_iff, !String.eqb_eq. split.
  - intros [-> ->]. reflexivity.
  - intros [= -> ->]. auto.
Qed.

Lemma uniqueUtterances_push (utterance intentName : string)
  (labels : list utteranceEntity.t) (us : list uttereances.t) :
  existsb (sameUtterance utterance intentName) us = false ->
  NoDup (map utteranceKey us) ->
  NoDup (map utteranceKey (us ++ [uttereances.mk utterance intentName labels])).
Proof.
  intros He Hn. rewrite map_app. simpl.
  apply NoDup_app; [assumption | repeat constructor; auto |].
  intros k Hk [<-|[]]. apply in_map_iff in Hk. destruct Hk as [u [Hu Hin]].
  apply sameUtterance_key in Hu.
  assert (E : existsb (sameUtterance utterance intentName) us = true)
    by (apply existsb_exists; eauto).
  congruence.
Qed.

Lemma keeps_utterances {B} (c : Parser B) :
  leaves utterances c -> keeps uniqueUtterances c.
Proof.
  intros H. apply (keeps_leaves (fun us => NoDup (map utteranceKey us)) H).
Qed.

Section Utterances.

Variable X : Externals.

Lemma resolveLabel_utterances (utterance context : string) (entity : parserEntity.t) :
  leaves utterances (resolveLabel X utterance context entity).
Proof. unfold resolveLabel. cbv zeta. untouched. Qed.

Lemma registerPatternEntity_utterances (entity : parserEntity.t) (L : LUIS) :
  utterances (registerPatternEntity entity L) = utterances L.
Proof.
  unfold registerPatternEntity. cbv zeta.
  repeat match goal with
         | |- context [if ?b then _ else _] => destruct b
         end; reflexivity.
Qed.

Lemma handleLabelledLine_once (intentName utterance : string)
  (entitiesFound : list parserEntity.t) (context : string) :
  keeps uniqueUtterances
    (handleLabelledLine X intentName utterance entitiesFound context).
Proof.
  unfold handleLabelledLine.
  apply keeps_bind.
  { apply keeps_utterances, leaves_mapM. intros e. apply resolveLabel_utterances. }
  intros es pc H.
  unfold bind, gets, modify, ret, throwDiagnostic, throw.
  destruct (Js.find (sameUtterance utterance intentName)
              (utterances (LUISJsonStructure pc))) as [u|] eqn:F;
    destruct (labelsOf es) as [pushed [item|]];
    cbn [snd onLUIS LUISJsonStructure]; try exact H;
    unfold uniqueUtterances in *; cbn [utterances set_utterances].
  - rewrite map_updateFirst; [assumption | reflexivity].
  - rewrite map_updateFirst; [assumption | reflexivity].
  - apply uniqueUtterances_push; [|assumption].
    rewrite existsb_find. now rewrite F.
Qed.

Lemma handleUnlabelledLine_once (intentName utterance : string) :
  keeps uniqueUtterances (handleUnlabelledLine X intentName utterance).
Proof.
  unfold handleUnlabelledLine. intros pc H.
  destruct (isUtterancePattern X utterance); unfold modify;
    cbn [snd onLUIS LUISJsonStructure]; [exact H|].
  destruct (existsb _ _) eqn:E; [exact H|].
  unfold uniqueUtterances in *. cbn [utterances set_utterances].
  now apply uniqueUtterances_push.
Qed.

Lemma handleIntent_once (intent : Intent.t) :
  keeps uniqueUtterances (handleIntent X intent).
Proof.
  unfold handleIntent. cbv zeta.
  apply keeps_bind;
    [apply keeps_utterances, leaves_modify; intros L; reflexivity | intros _].
  apply keeps_forEach. intros line.
  unfold handleUtteranceAndEntities. cbv zeta.
  apply keeps_bind.
  { apply keeps_utterances. unfold handleLinkRef.
    destruct (isUtteranceLinkRef X _); [|apply leaves_ret].
    destruct (parseLinkURI X _); [apply leaves_throw|]. intros pc. reflexivity. }
  intros _.
  destruct (UtteranceAndEntities.entities line) as [|e es] eqn:E.
  - apply handleUnlabelledLine_once.
  - destruct (existsb isPatternAny (e :: es)).
    + apply keeps_utterances. unfold handlePatternLine.
      apply leaves_bind; [apply leaves_gets | intros fl].
      destruct (handleAtForPattern _ _ fl) as [u es'].
      destruct (filter _ es'); [|apply leaves_throwDiagnostic].
      apply leaves_bind; [untouched | intros _].
      apply leaves_forEach. intros entity.
      apply leaves_modify. intros L. apply registerPatternEntity_utterances.
    + apply handleLabelledLine_once.
Qed.

Lemma perform_once (log : bool) (locale : option string) (op : operation) :
  keeps uniqueUtterances (perform X log locale op).
Proof.
  destruct op as [siblings entity|intent|entity]; cbn [perform].
  - apply keeps_utterances.
    apply (leaves_less (f := patternsAndUtterances) snd).
    apply handleNewEntity_alone.
  - apply handleIntent_once.
  - apply keeps_utterances.
    apply (leaves_less (f := resolverState) (fun s => snd (fst s))).
    apply handleEntity_alone.
Qed.

End Utterances.

(** X12.  An utterance is recorded once for an intent.  After any sequence
    of declarations, of either syntax, and of intent sections, started on
    a new parser object and whether it ends normally or with an exception,
    no two utterances of the registry have the same text and the same
    intent: a line that is met again adds its labels to the utterance that
    is there. *)
Theorem an_utterance_is_recorded_once (X : Externals) (log : bool)
  (locale : option string) (ops : list operation) :
  uniqueUtterances
    (LUISJsonStructure (snd (performAll X log locale ops newParserObj))).
Proof.
  apply (@keeps_forEach _ uniqueUtterances (perform X log locale) ops).
  - intros op. apply perform_once.
  - constructor.
Qed.

(** ** A phrase list holds the values declared *)

Lemma prefix_iff (p s : string) :
  String.prefix p s = true <-> exists t, s = p +++ t.
Proof.
  revert s. induction p as [|a p IH]; intros s.
  - destruct s; simpl; split; eauto.
  - destruct s as [|b s]; simpl.
    + split; [discriminate | intros [t H]; discriminate H].
    + destruct (ascii_dec a b) as [<-|N].
      * rewrite IH. split; intros [t H]; exists t; [now rewrite H | now injection H].
      * split; [discriminate | intros [t H]; injection H; congruence].
Qed.

Lemma includes_iff (hay needle : string) :
  Js.includes hay needle = true <-> exists a b, hay = a +++ (needle +++ b).
Proof.
  split.
  - induction hay as [|c hay IH]; unfold Js.includes; fold Js.includes;
      destruct (String.prefix needle _) eqn:P.
    + apply prefix_iff in P. destruct P as [t P]. intros _. now exists "", t.
    + discriminate.
    + apply prefix_iff in P. destruct P as [t P]. intros _. now exists "", t.
    + intros H. destruct (IH H) as [a [b E]]. exists (String c a), b.
      simpl. now rewrite E.
  - intros [a [b E]]. subst hay. induction a as [|c a IH].
    + assert (P : String.prefix needle ("" +++ (needle +++ b)) = true)
        by (apply prefix_iff; now exists b).
      destruct ("" +++ (needle +++ b)); unfold Js.includes; fold Js.includes;
        now rewrite P.
    + simpl. unfold Js.includes; fold Js.includes. rewrite IH.
      match goal with |- (if ?p then _ else _) = _ => now destruct p end.
Qed.

Lemma includes_append (hay more needle : string) :
  Js.includes hay needle = true -> Js.includes (hay +++ more) needle = true.
Proof.
  rewrite !includes_iff. intros [a [b ->]]. exists a, (b +++ more).
  now rewrite !append_assoc.
Qed.

Lemma includes_last (hay needle : string) :
  Js.includes (hay +++ needle) needle = true.
Proof.
  apply includes_iff. exists hay, "".
  f_equal. clear. induction needle; simpl; congruence.
Qed.

Lemma includes_after (before hay needle : string) :
  Js.includes hay needle = true -> Js.includes (before +++ hay) needle = true.
Proof.
  rewrite !includes_iff. intros [a [b ->]]. exists (before +++ a), b.
  now rewrite append_assoc.
Qed.

Lemma includes_first (needle more : string) :
  Js.includes (needle +++ more) needle = true.
Proof. apply includes_iff. now exists "", more. Qed.

Lemma addWords_includes (pLValues : list string) (words : string) :
  (forall value, Js.includes words value = true ->
                 Js.includes (addWords words pLValues) value = true)
  /\ (forall value, In value pLValues ->
                    Js.includes (addWords words pLValues) value = true).
Proof.
  unfold addWords. revert words.
  induction pLValues as [|v vs IH]; intros words; cbn [fold_left].
  - split; [auto | contradiction].
  - destruct (IH (if Js.includes words v then words
                  else words +++ (if String.eqb words "" then "" else ",") +++ v))
      as [Hkeep Hnew].
    assert (Hv : Js.includes
                   (if Js.includes words v then words
                    else words +++ (if String.eqb words "" then "" else ",") +++ v)
                   v = true).
    { destruct (Js.includes words v) eqn:E;
        [assumption | apply includes_after, includes_last]. }
    split.
    + intros value H. apply Hkeep.
      destruct (Js.includes words v); [assumption|].
      now apply includes_append.
    + intros value [<-|Hin]; [now apply Hkeep | now apply Hnew].
Qed.

Lemma join_includes (values : list string) (value : string) :
  In value values -> Js.includes (Js.join values) value = true.
Proof.
  unfold Js.join. induction values as [|x values IH]; [contradiction|].
  intros [<-|Hin]; cbn [String.concat].
  - destruct values; [|apply includes_first].
    rewrite <- (includes_last "" x) at 1. reflexivity.
  - destruct values as [|y values]; [contradiction|].
    apply includes_after, includes_after. now apply IH.
Qed.

Lemma rolesOfLabels_phrase_list (labels : list utteranceEntity.t)
  (entityRoles : list string) :
  exists roles, rolesOfLabels "Phrase List" labels entityRoles = Some roles.
Proof.
  revert entityRoles. induction labels as [|l labels IH]; intros entityRoles;
    cbn [rolesOfLabels]; [eauto|].
  change (negb (String.eqb "Phrase List" "Phrase List")) with false.
  destruct (utteranceEntity.role l); apply IH.
Qed.

(** For a phrase list the check removes no simple entity and refuses no
    label. *)
Lemma VerifyAndUpdateSimpleEntityCollection_phrase_list (X : Externals)
  (entityName : string) (pc : parserObj) :
  exists roles,
    VerifyAndUpdateSimpleEntityCollection X entityName "Phrase List" pc
    = (Returned roles, pc).
Proof.
  unfold VerifyAndUpdateSimpleEntityCollection, bind, gets, modify, ret,
    throwDiagnostic, throw.
  change (negb (String.eqb "Phrase List" "Phrase List")) with false.
  destruct (findByName entityName (entities (LUISJsonStructure pc))) as [simple|];
    (destruct (Js.find (labelsEntity entityName) (utterances (LUISJsonStructure pc)))
       as [u|]; [|eauto]);
    match goal with
    | |- context [rolesOfLabels ?t ?l ?r] =>
        destruct (rolesOfLabels_phrase_list l r) as [roles ->]
    end; eauto.
Qed.

(** X13.  A phrase list holds the values declared.  A declaration of a
    phrase list without roles, whose flag is the flag of the phrase list
    held under its name if there is one, is accepted, whatever the simple
    entities and the labels are; the simple entities are as before; and
    each value of its lines is then found in the words of the phrase list
    of that name. *)
Theorem a_phrase_list_holds_the_values_declared (X : Externals)
  (entityName : string) (entityType : option string) (valuesList : list string)
  (currentLine : string) (pc : parserObj) :
  (forall pl,
      findByName (phraseListName entityName entityType)
        (model_features (LUISJsonStructure pc)) = Some pl ->
      modelObj.mode pl = phraseListFlag entityName entityType) ->
  exists pc' pl,
    handlePhraseList X entityName entityType [] valuesList currentLine pc
    = (Returned tt, pc')
    /\ findByName (phraseListName entityName entityType)
         (model_features (LUISJsonStructure pc')) = Some pl
    /\ (forall value, In value (phraseListValues valuesList) ->
                      Js.includes (modelObj.words pl) value = true)
    /\ entities (LUISJsonStructure pc') = entities (LUISJsonStructure pc).
Proof.
  intros Hflag.
  unfold handlePhraseList. unfold bind at 1.
  destruct (VerifyAndUpdateSimpleEntityCollection_phrase_list X entityName pc)
    as [roles ->].
  cbv zeta. fold (phraseListType entityName entityType).
  fold (phraseListFlag entityName entityType).
  fold (phraseListName entityName entityType).
  fold (phraseListValues valuesList).
  unfold bind, gets, modify.
  destruct (findByName (phraseListName entityName entityType)
              (model_features (LUISJsonStructure pc))) as [pl|] eqn:F.
  - rewrite (Hflag pl eq_refl), Bool.eqb_reflx.
    eexists. eexists. split; [reflexivity|].
    cbn [onLUIS LUISJsonStructure set_model_features model_features entities].
    split; [|split; [|reflexivity]].
    + unfold findByName in *. rewrite find_updateFirst, F; [reflexivity|].
      intros x Hx. exact Hx.
    + intros value Hin. cbn [modelObj.words].
      now apply addWords_includes.
  - eexists. eexists. split; [reflexivity|].
    cbn [onLUIS LUISJsonStructure set_model_features model_features entities].
    split; [|split; [|reflexivity]].
    + unfold findByName in *. apply find_app_new; [assumption|].
      unfold hasName. apply String.eqb_refl.
    + intros value Hin. cbn [modelObj.words]. now apply join_includes.
Qed.

Lemma a_phrase_list_holds_the_values_declared_witness :
  let pc := onLUIS (set_model_features [modelObj.mk "fruit" false "apple pie" true])
              newParserObj in
  exists pc' pl,
    handlePhraseList sampleExternals "fruit" (Some "phraseList") []
      ["apple, pear"; "plum"] "$fruit:phraseList" pc
    = (Returned tt, pc')
    /\ findByName "fruit" (model_features (LUISJsonStructure pc')) = Some pl
    /\ (forall value, In value ["apple"; "pear"; "plum"] ->
                      Js.includes (modelObj.words pl) value = true)
    /\ entities (LUISJsonStructure pc') = entities (LUISJsonStructure pc).
Proof.
  intros pc.
  apply (@a_phrase_list_holds_the_values_declared sampleExternals "fruit"
           (Some "phraseList") ["apple, pear"; "plum"] "$fruit:phraseList" pc).
  intros pl [= <-]. reflexivity.
Defined.

(** ** A normalized value occurs once in a closed list *)

Lemma closeSubList_distinct (cl : closedLists.t) (nv : nvState) :
  pending cl nv -> NoDup (canonicalForms (closeSubList cl nv)).
Proof.
  unfold pending, canonicalForms. intros [Hn Hp].
  destruct nv as [| |x]; cbn; try assumption.
  rewrite map_app. cbn.
  apply NoDup_app; [assumption | repeat constructor; auto |].
  intros y Hy [<-|[]]. contradiction.
Qed.

Lemma existsb_hasCanonicalForm_false (normalizedValue : string)
  (subLists : list subList.t) :
  existsb (hasCanonicalForm normalizedValue) subLists = false ->
  ~ In normalizedValue (map subList.canonicalForm subLists).
Proof.
  intros He Hin. apply in_map_iff in Hin. destruct Hin as [x [Hx Hin]].
  assert (E : existsb (hasCanonicalForm normalizedValue) subLists = true).
  { apply existsb_exists. exists x. split; [assumption|].
    unfold hasCanonicalForm. now apply String.eqb_eq. }
  congruence.
Qed.

Lemma listLinesLoop_distinct (listLines : list string) (cl : closedLists.t)
  (nv : nvState) :
  pending cl nv ->
  match listLinesLoop listLines cl nv with
  | inl (cl', nv') => pending cl' nv'
  | inr (cl', _) => NoDup (canonicalForms cl')
  end.
Proof.
  revert cl nv. induction listLines as [|line t IH]; intros cl nv H;
    cbn [listLinesLoop]; [exact H|].
  destruct (Js.endsWith (Js.toLowerCase line) ":").
  - pose proof (closeSubList_distinct H) as Hc.
    destruct (existsb _ _) eqn:E; apply IH; split; try assumption; [exact I|].
    cbn. now apply existsb_hasCanonicalForm_false.
  - destruct nv as [|normalizedValue|nvExists].
    + apply H.
    + apply IH. split; [|exact I]. unfold canonicalForms. cbn.
      rewrite map_updateFirst; [apply H | reflexivity].
    + apply IH. exact H.
Qed.

Lemma Forall_updateFirst {A} (P : A -> Prop) (p : A -> bool) (f : A -> A)
  (a : list A) :
  (forall x, In x a -> P (f x)) -> Forall P a -> Forall P (updateFirst p f a).
Proof.
  intros Hf H. induction H as [|x a Hx Ha IH]; simpl; [constructor|].
  destruct (p x).
  - constructor; [apply Hf; now left | assumption].
  - constructor; [assumption|]. apply IH. intros y Hy. apply Hf. now right.
Qed.

Lemma keeps_closedLists {B} (c : Parser B) :
  leaves closedLists c -> keeps distinctNormalizedValues c.
Proof.
  intros H.
  apply (keeps_leaves (fun cls => Forall (fun cl => NoDup (canonicalForms cl)) cls) H).
Qed.

Section ClosedLists.

Variable X : Externals.

Lemma VerifyAndUpdateSimpleEntityCollection_closedLists
  (entityName entityType : string) :
  leaves closedLists (VerifyAndUpdateSimpleEntityCollection X entityName entityType).
Proof. unfold VerifyAndUpdateSimpleEntityCollection. untouched. Qed.

Lemma validateAndGetRoles_closedLists (roles : option string)
  (line entityName entityType : string) :
  leaves closedLists (validateAndGetRoles X roles line entityName entityType).
Proof. unfold validateAndGetRoles. cbv zeta. untouched. Qed.

Lemma absorbPatternAny_closedLists (entityName entityType : string)
  (entityRoles : list string) (line : string) :
  leaves closedLists (absorbPatternAny X entityName entityType entityRoles line).
Proof.
  unfold absorbPatternAny, RemoveDuplicatePatternAnyEntity.
  apply leaves_bind; [|intros; apply leaves_ret].
  apply leaves_bind; [apply leaves_gets | intros PAs].
  match goal with
  | |- context [Js.find ?p PAs] => destruct (Js.find p PAs), (Js.findIndex p PAs)
  end; untouched.
Qed.

Lemma handleClosedList_distinct (entityName : string) (listLines : list string)
  (entityRoles : list string) (currentLine : string) :
  keeps distinctNormalizedValues
    (handleClosedList X entityName listLines entityRoles currentLine).
Proof.
  unfold handleClosedList. cbv zeta.
  apply keeps_bind;
    [apply keeps_closedLists, VerifyAndUpdateSimpleEntityCollection_closedLists
    | intros rolesImport].
  intros pc H. unfold bind at 1. unfold gets at 1. cbv beta iota.
  destruct (findByName entityName (closedLists (LUISJsonStructure pc)))
    as [cl0|] eqn:E.
  - assert (H0 : pending cl0 nvUndefined).
    { split; [|exact I]. unfold distinctNormalizedValues in H.
      rewrite Forall_forall in H. apply H.
      unfold findByName, Js.find in E. now apply find_some in E. }
    pose proof (listLinesLoop_distinct listLines H0) as Hl.
    destruct (listLinesLoop listLines cl0 nvUndefined) as [[cl nv]|[cl line]];
      unfold bind, modify, throwDiagnostic, throw;
      cbn [snd onLUIS LUISJsonStructure];
      unfold distinctNormalizedValues; cbn [closedLists set_closedLists];
      apply Forall_updateFirst; try exact H; intros x _.
    + apply closeSubList_distinct in Hl. exact Hl.
    + exact Hl.
  - assert (H0 : pending (closedLists.mk entityName [] []) nvUndefined)
      by (split; [constructor | exact I]).
    pose proof (listLinesLoop_distinct listLines H0) as Hl.
    destruct (listLinesLoop listLines _ nvUndefined) as [[cl nv]|[cl line]];
      unfold bind, modify, throwDiagnostic, throw, ret;
      cbn [snd onLUIS LUISJsonStructure]; [|exact H].
    unfold distinctNormalizedValues. cbn [closedLists set_closedLists].
    apply Forall_app. split; [exact H|]. constructor; [|constructor].
    apply closeSubList_distinct in Hl. exact Hl.
Qed.

Lemma filterMatch_In {T} (property : T -> string) (searchValue : string)
  (c : list T) (x : T) (rest : list T) :
  filterMatch property searchValue c = x :: rest -> In x c.
Proof.
  unfold filterMatch. intros H.
  assert (Hin : In x (filter (fun item => String.eqb (property item) searchValue) c))
    by (rewrite H; now left).
  now apply filter_In in Hin.
Qed.

Lemma filterMatch_none {T} (property : T -> string) (searchValue : string)
  (c : list T) :
  filterMatch property searchValue c = [] -> ~ In searchValue (map property c).
Proof.
  unfold filterMatch. induction c as [|x c IH]; simpl; [tauto|].
  destruct (String.eqb (property x) searchValue) eqn:E; [discriminate|].
  apply String.eqb_neq in E. intros Hf [Hx|Hx]; [contradiction | now apply IH].
Qed.

Lemma handleListEntity_distinct (entityName entityType : string)
  (entityRoles synonymsList : list string) :
  keeps distinctNormalizedValues
    (handleListEntity X entityName entityType entityRoles synonymsList).
Proof.
  unfold handleListEntity. cbv zeta.
  apply keeps_bind;
    [apply keeps_closedLists, VerifyAndUpdateSimpleEntityCollection_closedLists
    | intros rolesImport].
  intros pc H. unfold modify. cbn [snd onLUIS LUISJsonStructure].
  unfold distinctNormalizedValues in *.
  destruct (filterMatch closedLists.name entityName
              (closedLists (LUISJsonStructure pc))) as [|cl rest] eqn:E;
    cbn [closedLists set_closedLists].
  - apply Forall_app. split; [exact H|]. constructor; [|constructor].
    unfold canonicalForms. cbn. repeat constructor. auto.
  - apply filterMatch_In in E. rewrite Forall_forall in H.
    pose proof (H cl E) as Hcl. rewrite <- Forall_forall in H.
    apply Forall_updateFirst; [|exact H]. intros x _.
    unfold canonicalForms in *. cbn [closedLists.subLists].
    destruct (filterMatch subList.canonicalForm _ (closedLists.subLists cl)) eqn:F.
    + rewrite map_app. cbn.
      apply NoDup_app; [assumption | repeat constructor; auto |].
      intros y Hy [<-|[]]. now apply filterMatch_none in F.
    + rewrite map_updateFirst; [assumption | reflexivity].
Qed.

Lemma handlePatternAny_closedLists (entityName : string)
  (entityRoles : list string) :
  leaves closedLists (handlePatternAny X entityName entityRoles).
Proof.
  unfold handlePatternAny.
  apply leaves_bind;
    [apply VerifyAndUpdateSimpleEntityCollection_closedLists | intros ?].
  untouched.
Qed.

Lemma handlePhraseList_closedLists (entityName : string)
  (entityType : option string) (entityRoles valuesList : list string)
  (currentLine : string) :
  leaves closedLists
    (handlePhraseList X entityName entityType entityRoles valuesList currentLine).
Proof.
  unfold handlePhraseList. destruct entityRoles; [|untouched].
  apply leaves_bind;
    [apply VerifyAndUpdateSimpleEntityCollection_closedLists | intros ?].
  cbv zeta. untouched.
Qed.

Lemma handlePrebuiltEntity_closedLists (entityName entityType : string)
  (entityRoles : list string) (locale : option string) (log : bool)
  (currentLine : string) :
  leaves closedLists
    (handlePrebuiltEntity X entityName entityType entityRoles locale log
       currentLine).
Proof.
  unfold handlePrebuiltEntity. cbv zeta.
  apply leaves_bind;
    [apply VerifyAndUpdateSimpleEntityCollection_closedLists | intros ?].
  alone.
Qed.

Lemma handleComposite_closedLists (entityName entityType : string)
  (entityRoles : list string) (currentLine : string) (inlineChildRequired : bool) :
  leaves closedLists
    (handleComposite X entityName entityType entityRoles currentLine
       inlineChildRequired).
Proof. unfold handleComposite. cbv zeta. alone. Qed.

Lemma handleRegExEntity_closedLists (entityName : string)
  (entityType : option string) (entityRoles : list string) (entityLine : string) :
  leaves closedLists
    (handleRegExEntity X entityName entityType entityRoles entityLine).
Proof.
  unfold handleRegExEntity. cbv zeta.
  apply leaves_bind;
    [apply VerifyAndUpdateSimpleEntityCollection_closedLists | intros ?].
  alone.
Qed.

Lemma handleNewEntity_distinct (entities : list NewEntity.t) (log : bool)
  (locale : option string) (entity : NewEntity.t) :
  keeps distinctNormalizedValues (handleNewEntity X entities log locale entity).
Proof.
  unfold handleNewEntity. cbv zeta.
  destruct (if negb _ then _ else _);
    [|apply keeps_closedLists, leaves_throwDiagnostic].
  destruct (String.eqb _ ""); [apply keeps_closedLists, leaves_throwDiagnostic|].
  destruct (String.eqb _ _); [apply keeps_closedLists, leaves_throwDiagnostic|].
  apply keeps_bind;
    [apply keeps_closedLists, validateAndGetRoles_closedLists | intros roles].
  apply keeps_bind;
    [apply keeps_closedLists, absorbPatternAny_closedLists | intros roles'].
  repeat match goal with
         | |- keeps _ (if ?b then _ else _) => destruct b
         end;
    try apply handleClosedList_distinct;
    apply keeps_closedLists;
    auto using handlePatternAny_closedLists, handlePhraseList_closedLists,
      handlePrebuiltEntity_closedLists, handleComposite_closedLists,
      handleRegExEntity_closedLists;
    untouched.
Qed.

Lemma handleEntity_distinct (log : bool) (locale : option string)
  (entity : Entity.t) :
  keeps distinctNormalizedValues (handleEntity X log locale entity).
Proof.
  unfold handleEntity. cbv zeta.
  apply keeps_bind;
    [apply keeps_closedLists, absorbPatternAny_closedLists | intros roles].
  repeat match goal with
         | |- keeps _ (if ?b then _ else _) => destruct b
         | |- keeps _ (match ?l with [] => _ | _ :: _ => _ end) => destruct l
         end;
    try apply handleListEntity_distinct;
    apply keeps_closedLists;
    auto using handlePatternAny_closedLists, handlePhraseList_closedLists,
      handlePrebuiltEntity_closedLists, handleComposite_closedLists,
      handleRegExEntity_closedLists;
    try (intros pc; reflexivity); untouched.
Qed.

Lemma handleIntent_distinct (intent : Intent.t) :
  keeps distinctNormalizedValues (handleIntent X intent).
Proof.
  intros pc H. unfold distinctNormalizedValues in *.
  assert (D : declarations (LUISJsonStructure (snd (handleIntent X intent pc)))
              = declarations (LUISJsonStructure pc)).
  { clear H. revert pc. change (leaves declarations (handleIntent X intent)).
    unfold handleIntent. cbv zeta.
    apply leaves_bind; [apply leaves_modify; intros L; reflexivity | intros _].
    apply leaves_forEach. intros line.
    apply handleUtteranceAndEntities_declarations. }
  unfold declarations in D. injection D as _ D _ _ _.
  apply (Forall_map (fun c => (closedLists.name c, closedLists.subLists c))
           (fun p => NoDup (map subList.canonicalForm (snd p)))).
  rewrite D. apply Forall_map. exact H.
Qed.

Lemma perform_distinct (log : bool) (locale : option string) (op : operation) :
  keeps distinctNormalizedValues (perform X log locale op).
Proof.
  destruct op as [siblings entity|intent|entity]; cbn [perform].
  - apply handleNewEntity_distinct.
  - apply handleIntent_distinct.
  - apply handleEntity_distinct.
Qed.

End ClosedLists.

(** X14.  A normalized value occurs once in a closed list.  After any
    sequence of declarations, of either syntax, and of intent sections,
    started on a new parser object and whether it ends normally or with an
    exception, no closed list of the registry has two sublists of the same
    normalized value: a value that is met again receives the synonyms. *)
Theorem a_normalized_value_occurs_once (X : Externals) (log : bool)
  (locale : option string) (ops : list operation) :
  distinctNormalizedValues
    (LUISJsonStructure (snd (performAll X log locale ops newParserObj))).
Proof.
  apply (@keeps_forEach _ distinctNormalizedValues (perform X log locale) ops).
  - intros op. apply perform_distinct.
  - constructor.
Qed.

(** ** A line of a list of the old syntax is held *)

Lemma filterMatch_find {T} (property : T -> string) (searchValue : string)
  (c : list T) (x : T) (rest : list T) :
  filterMatch property searchValue c = x :: rest ->
  Js.find (fun item => String.eqb (property item) searchValue) c = Some x.
Proof.
  unfold filterMatch, Js.find. induction c as [|y c IH]; simpl; [discriminate|].
  destruct (String.eqb (property y) searchValue); [now intros [= ->] | exact IH].
Qed.

(** X15.  A line of a list of the old syntax is held.  When the
    declaration [$name:value=] with its synonyms is accepted, the registry
    has a closed list of the name, the closed list has a sublist of the
    normalized value, and each synonym of the line is in that sublist. *)
Theorem a_list_line_is_held (X : Externals) (entityName entityType : string)
  (entityRoles synonymsList : list string) (pc pc' : parserObj) :
  handleListEntity X entityName entityType entityRoles synonymsList pc
  = (Returned tt, pc') ->
  exists cl sl,
    findByName entityName (closedLists (LUISJsonStructure pc')) = Some cl
    /\ In sl (closedLists.subLists cl)
    /\ subList.canonicalForm sl = normalizedValueOf X entityType
    /\ incl synonymsList (subList.list sl).
Proof.
  unfold handleListEntity. cbv zeta. fold (normalizedValueOf X entityType).
  unfold bind at 1.
  destruct (VerifyAndUpdateSimpleEntityCollection X entityName "List" pc)
    as [[rolesImport|e] pc1]; [|discriminate].
  cbv beta iota. unfold modify. intros H. injection H as <-.
  cbn [onLUIS LUISJsonStructure].
  destruct (filterMatch closedLists.name entityName
              (closedLists (LUISJsonStructure pc1))) as [|cl rest] eqn:E;
    cbn [closedLists set_closedLists].
  - eexists. exists (subList.mk (normalizedValueOf X entityType) synonymsList).
    split.
    + unfold findByName. apply find_app_new; [|apply String.eqb_refl].
      apply find_None. intros x Hx. apply filterMatch_none in E.
      unfold hasName. apply String.eqb_neq. intros Hn. apply E.
      apply in_map_iff. exists x. auto.
    + split; [now left | split; [reflexivity | apply incl_refl]].
  - apply filterMatch_find in E.
    unfold findByName. rewrite find_updateFirst; [|intros x Hx; exact Hx].
    change (Js.find (hasName entityName) (closedLists (LUISJsonStructure pc1)))
      with (Js.find (fun item => String.eqb (closedLists.name item) entityName)
              (closedLists (LUISJsonStructure pc1))).
    rewrite E. cbn [option_map].
    destruct (filterMatch subList.canonicalForm (normalizedValueOf X entityType)
                (closedLists.subLists cl)) as [|sl0 rest0] eqn:F.
    + eexists. exists (subList.mk (normalizedValueOf X entityType) synonymsList).
      split; [reflexivity|]. cbn [closedLists.subLists].
      split; [apply in_or_app; right; now left|].
      split; [reflexivity | apply incl_refl].
    + assert (Hex : existsb (hasCanonicalForm (normalizedValueOf X entityType))
                      (closedLists.subLists cl) = true).
      { apply filterMatch_In in F as Hin.
        apply filterMatch_find in F. apply find_some in F.
        apply existsb_exists. exists sl0. split; [assumption | apply F]. }
      destruct (In_updateFirst_new _ (pushSynonyms synonymsList) _ Hex)
        as [sl [Hin [Hp Hnew]]].
      eexists. exists (pushSynonyms synonymsList sl).
      split; [reflexivity|]. cbn [closedLists.subLists].
      split; [exact Hnew|]. split.
      * unfold hasCanonicalForm in Hp. now apply String.eqb_eq in Hp.
      * intros s Hs. unfold pushSynonyms. cbn. apply pushNew_In. now right.
Qed.

Lemma a_list_line_is_held_witness :
  let pc := onLUIS (set_closedLists
                      [closedLists.mk "color" [subList.mk "red" ["crimson"]] []])
              newParserObj in
  exists cl sl,
    findByName "color"
      (closedLists
         (LUISJsonStructure
            (snd (handleListEntity sampleExternals "color" "red=" []
                    ["scarlet"; "ruby"] pc)))) = Some cl
    /\ In sl (closedLists.subLists cl)
    /\ subList.canonicalForm sl = "red"
    /\ incl ["scarlet"; "ruby"] (subList.list sl).
Proof.
  intros pc.
  apply (@a_list_line_is_held sampleExternals "color" "red=" []
           ["scarlet"; "ruby"] pc
           (snd (handleListEntity sampleExternals "color" "red=" []
                   ["scarlet"; "ruby"] pc))).
  reflexivity.
Defined.

(** ** The first line of a closed list *)

Lemma listLinesLoop_started (listLines : list string) (cl : closedLists.t)
  (nv : nvState) :
  nv <> nvUndefined ->
  exists cl' nv', listLinesLoop listLines cl nv = inl (cl', nv').
Proof.
  revert cl nv. induction listLines as [|line t IH]; intros cl nv Hnv;
    cbn [listLinesLoop]; [eauto|].
  destruct (Js.endsWith (Js.toLowerCase line) ":").
  - destruct (existsb _ _); apply IH; discriminate.
  - destruct nv; [contradiction | |]; apply IH; discriminate.
Qed.

Lemma listLinesLoop_first (listLines : list string) (cl : closedLists.t) :
  if startsWithSynonyms listLines
  then exists line, listLinesLoop listLines cl nvUndefined = inr (cl, line)
  else exists cl' nv', listLinesLoop listLines cl nvUndefined = inl (cl', nv').
Proof.
  destruct listLines as [|line t]; cbn [startsWithSynonyms listLinesLoop]; [eauto|].
  destruct (Js.endsWith (Js.toLowerCase line) ":"); cbn [negb]; [|eauto].
  destruct (existsb _ _); apply listLinesLoop_started; discriminate.
Qed.

(** X16.  A closed list of the new syntax is refused for its first line
    only.  When the check of the simple entities and of the labels has
    returned, the declaration ends with [SYNONYMS_NOT_A_LIST] if its first
    line is a line of synonyms, and is accepted otherwise: after a line
    that names a normalized value every line has a sublist to go to. *)
Theorem a_closed_list_is_refused_for_its_first_line_only (X : Externals)
  (entityName : string) (listLines entityRoles : list string)
  (currentLine : string) (pc pc1 : parserObj) (rolesImport : list string) :
  VerifyAndUpdateSimpleEntityCollection X entityName "List" pc
  = (Returned rolesImport, pc1) ->
  if startsWithSynonyms listLines
  then exists text pc',
         handleClosedList X entityName listLines entityRoles currentLine pc
         = (Threw (exception SYNONYMS_NOT_A_LIST text), pc')
  else exists pc',
         handleClosedList X entityName listLines entityRoles currentLine pc
         = (Returned tt, pc').
Proof.
  intros Hv.
  pose proof (fun cl => listLinesLoop_first listLines cl) as Hl.
  destruct (startsWithSynonyms listLines);
    unfold handleClosedList; unfold bind at 1; rewrite Hv;
    cbv beta iota zeta; unfold bind at 1; unfold gets at 1; cbv beta iota;
    generalize (findByName entityName (closedLists (LUISJsonStructure pc1)));
    intros found;
    specialize (Hl match found with
                   | Some cl => cl
                   | None => closedLists.mk entityName [] []
                   end).
  - destruct Hl as [line Hl]. rewrite Hl.
    unfold bind, modify, ret, throwDiagnostic, throw.
    destruct found; eauto.
  - destruct Hl as [cl' [nv' Hl]]. rewrite Hl.
    unfold bind, modify, ret. destruct found; eauto.
Qed.

Lemma a_closed_list_is_refused_for_its_first_line_only_witness :
  (exists text pc',
      handleClosedList sampleExternals "color" ["crimson, scarlet"; "red:"] []
        "@ list color" newParserObj
      = (Threw (exception SYNONYMS_NOT_A_LIST text), pc'))
  /\ (exists pc',
         handleClosedList sampleExternals "color" ["red:"; "crimson, scarlet"] []
           "@ list color" newParserObj
         = (Returned tt, pc')).
Proof.
  split.
  - apply (@a_closed_list_is_refused_for_its_first_line_only sampleExternals
             "color" ["crimson, scarlet"; "red:"] [] "@ list color"
             newParserObj newParserObj [] eq_refl).
  - apply (@a_closed_list_is_refused_for_its_first_line_only sampleExternals
             "color" ["red:"; "crimson, scarlet"] [] "@ list color"
             newParserObj newParserObj [] eq_refl).
Defined.

(** ** A declaration that is refused may have changed the registry *)

(** X17.  A declaration that is refused may have changed the registry.  A
    regular expression entity whose definition has an empty body is
    refused with [INVALID_REGEX_ENTITY] after the simple entity of its
    name has been removed: where no simple entity is listed twice and no
    utterance labels the name, the simple entity that was there is gone,
    and no regular expression entity has come in its place. *)
Theorem a_refused_regex_has_removed_the_simple_entity (X : Externals)
  (entityName entityType : string) (entityRoles : list string)
  (entityLine : string) (pc : parserObj) (simple : itemObj.t) :
  uniq (entities (LUISJsonStructure pc)) ->
  findByName entityName (entities (LUISJsonStructure pc)) = Some simple ->
  Js.find (labelsEntity entityName) (utterances (LUISJsonStructure pc)) = None ->
  entityType <> "" ->
  Js.sliceInner entityType = "" ->
  exists text pc',
    handleRegExEntity X entityName (Some entityType) entityRoles entityLine pc
    = (Threw (exception INVALID_REGEX_ENTITY text), pc')
    /\ findByName entityName (entities (LUISJsonStructure pc')) = None
    /\ regex_entities (LUISJsonStructure pc')
       = regex_entities (LUISJsonStructure pc).
Proof.
  intros Hu Hs Hl Ht Hr.
  unfold handleRegExEntity. cbv zeta.
  destruct (VerifyAndUpdateSimpleEntityCollection_outcome X entityName "RegEx" pc)
    as [r [E _]].
  destruct (VerifyAndUpdateSimpleEntityCollection_result X entityName "RegEx" pc)
    as [roles0 R].
  rewrite Hl in R. rewrite E in R. cbn [fst] in R. subst r.
  unfold bind at 1. rewrite E. rewrite Hs.
  change (negb (String.eqb "RegEx" "Phrase List")) with true. cbv beta iota.
  unfold regexOf. cbn [Js.truthy].
  rewrite (proj2 (String.eqb_neq _ _) Ht). cbn [negb andb].
  rewrite Hr. cbn [String.eqb].
  unfold throwDiagnostic, throw. eexists. eexists. split; [reflexivity|].
  cbn [onLUIS LUISJsonStructure set_entities entities regex_entities].
  split; [|reflexivity].
  pose proof (findByName_name _ _ Hs) as Hname.
  replace (itemObj.name simple) with entityName by (symmetry; exact Hname).
  rewrite (uniq_spliceLoop _ Hu), findByName_filter.
  now rewrite String.eqb_refl.
Qed.

Lemma a_refused_regex_has_removed_the_simple_entity_witness :
  let pc := onLUIS (set_entities [itemObj.mk "zip" ["home"]]) newParserObj in
  exists text pc',
    handleRegExEntity sampleExternals "zip" (Some "//") [] "@ regex zip = //" pc
    = (Threw (exception INVALID_REGEX_ENTITY text), pc')
    /\ findByName "zip" (entities (LUISJsonStructure pc')) = None
    /\ regex_entities (LUISJsonStructure pc')
       = regex_entities (LUISJsonStructure pc).
Proof.
  intros pc.
  apply (@a_refused_regex_has_removed_the_simple_entity sampleExternals "zip" "//"
           [] "@ regex zip = //" pc (itemObj.mk "zip" ["home"])).
  - repeat constructor. simpl. tauto.
  - reflexivity.
  - reflexivity.
  - discriminate.
  - reflexivity.
Defined.

(** ** No label without a value is recorded *)

Lemma labelsOf_haveValues (entitiesFound : list parserEntity.t) :
  Forall hasValue (fst (labelsOf entitiesFound)).
Proof.
  induction entitiesFound as [|item t IH]; cbn [labelsOf]; [constructor|].
  destruct (parserEntity.endPos item <? parserEntity.startPos item)%Z eqn:E;
    [constructor|].
  destruct (labelsOf t) as [pushed bad]. cbn [fst] in *.
  constructor; [|exact IH].
  unfold hasValue, labelOf. cbn. apply Z.ltb_ge in E. exact E.
Qed.

Lemma keeps_labels {B} (c : Parser B) :
  leaves utterances c -> keeps labelsHaveValues c.
Proof.
  intros H.
  apply (keeps_leaves
           (fun us => Forall (fun u => Forall hasValue (uttereances.entities u)) us)
           H).
Qed.

Section Labels.

Variable X : Externals.

Lemma handleLabelledLine_labels (intentName utterance : string)
  (entitiesFound : list parserEntity.t) (context : string) :
  keeps labelsHaveValues
    (handleLabelledLine X intentName utterance entitiesFound context).
Proof.
  unfold handleLabelledLine.
  apply keeps_bind.
  { apply keeps_labels, leaves_mapM. intros e. apply resolveLabel_utterances. }
  intros es pc H.
  unfold bind, gets, modify, ret, throwDiagnostic, throw.
  pose proof (labelsOf_haveValues es) as Hp.
  destruct (Js.find (sameUtterance utterance intentName)
              (utterances (LUISJsonStructure pc))) as [u|] eqn:F;
    destruct (labelsOf es) as [pushed [item|]];
    cbn [fst snd onLUIS LUISJsonStructure] in *; try exact H;
    unfold labelsHaveValues in *; cbn [utterances set_utterances].
  - apply Forall_updateFirst; [|exact H]. intros x Hx. cbn.
    apply Forall_app. split; [|exact Hp].
    rewrite Forall_forall in H. now apply H.
  - apply Forall_updateFirst; [|exact H]. intros x Hx. cbn.
    apply Forall_app. split; [|exact Hp].
    rewrite Forall_forall in H. now apply H.
  - apply Forall_app. split; [exact H|]. constructor; [exact Hp | constructor].
Qed.

Lemma handleUnlabelledLine_labels (intentName utterance : string) :
  keeps labelsHaveValues (handleUnlabelledLine X intentName utterance).
Proof.
  unfold handleUnlabelledLine. intros pc H.
  destruct (isUtterancePattern X utterance); unfold modify;
    cbn [snd onLUIS LUISJsonStructure]; [exact H|].
  destruct (existsb _ _); [exact H|].
  unfold labelsHaveValues in *. cbn [utterances set_utterances].
  apply Forall_app. split; [exact H|]. repeat constructor.
Qed.

Lemma handleIntent_labels (intent : Intent.t) :
  keeps labelsHaveValues (handleIntent X intent).
Proof.
  unfold handleIntent. cbv zeta.
  apply keeps_bind;
    [apply keeps_labels, leaves_modify; intros L; reflexivity | intros _].
  apply keeps_forEach. intros line.
  unfold handleUtteranceAndEntities. cbv zeta.
  apply keeps_bind.
  { apply keeps_labels. unfold handleLinkRef.
    destruct (isUtteranceLinkRef X _); [|apply leaves_ret].
    destruct (parseLinkURI X _); [apply leaves_throw|]. intros pc. reflexivity. }
  intros _.
  destruct (UtteranceAndEntities.entities line) as [|e es] eqn:E.
  - apply handleUnlabelledLine_labels.
  - destruct (existsb isPatternAny (e :: es)).
    + apply keeps_labels. unfold handlePatternLine.
      apply leaves_bind; [apply leaves_gets | intros fl].
      destruct (handleAtForPattern _ _ fl) as [u es'].
      destruct (filter _ es'); [|apply leaves_throwDiagnostic].
      apply leaves_bind; [untouched | intros _].
      apply leaves_forEach. intros entity.
      apply leaves_modify. intros L. apply registerPatternEntity_utterances.
    + apply handleLabelledLine_labels.
Qed.

Lemma perform_labels (log : bool) (locale : option string) (op : operation) :
  keeps labelsHaveValues (perform X log locale op).
Proof.
  destruct op as [siblings entity|intent|entity]; cbn [perform].
  - apply keeps_labels.
    apply (leaves_less (f := patternsAndUtterances) snd).
    apply handleNewEntity_alone.
  - apply handleIntent_labels.
  - apply keeps_labels.
    apply (leaves_less (f := resolverState) (fun s => snd (fst s))).
    apply handleEntity_alone.
Qed.

End Labels.

(** X18.  No label without a value is recorded.  After any sequence of
    declarations, of either syntax, and of intent sections, started on a
    new parser object and whether it ends normally or with
    [MISSING_LABELLED_VALUE] or another exception, every label of every
    utterance of the registry ends where it starts or after: the labels
    that come before a label without value in its line may have been
    recorded, the label without value never is. *)
Theorem no_label_without_a_value_is_recorded (X : Externals) (log : bool)
  (locale : option string) (ops : list operation) :
  labelsHaveValues
    (LUISJsonStructure (snd (performAll X log locale ops newParserObj))).
Proof.
  apply (@keeps_forEach _ labelsHaveValues (perform X log locale) ops).
  - intros op. apply perform_labels.
  - constructor.
Qed.

(** ** The passes of a file *)

Lemma passes_keep (X : Externals) (I : LUIS -> Prop)
  (NewEntities : list NewEntity.t) (Intents : list Intent.t)
  (Entities : list Entity.t) (log : bool) (locale : option string) :
  (forall op, keeps I (perform X log locale op)) ->
  keeps I (entityAndIntentPasses X NewEntities Intents Entities log locale).
Proof.
  intros H. unfold entityAndIntentPasses, parseAndHandleEntityV2,
    parseAndHandleIntent, parseAndHandleEntity.
  apply keeps_bind;
    [apply keeps_forEach; intros e; apply (H (declareV2 NewEntities e)) | intros _].
  apply keeps_bind;
    [apply keeps_forEach; intros i; apply (H (resolve i)) | intros _].
  apply keeps_forEach; intros e; apply (H (declare e)).
Qed.

(** X19.  The registry after the passes of a file.  When the declarations
    of the new syntax, the intent sections and the declarations of the old
    syntax of a file have been handled in this order on a new parser
    object, whether the last of them returned or one of them threw: no
    collection has two records of one name, no utterance is recorded twice
    for an intent, no closed list has a normalized value twice, and every
    label of an utterance has a value. *)
Theorem the_registry_after_the_passes_of_a_file (X : Externals)
  (NewEntities : list NewEntity.t) (Intents : list Intent.t)
  (Entities : list Entity.t) (log : bool) (locale : option string) :
  let L := LUISJsonStructure
             (snd (entityAndIntentPasses X NewEntities Intents Entities log locale
                     newParserObj)) in
  uniqueNames L /\ uniqueUtterances L /\ distinctNormalizedValues L
  /\ labelsHaveValues L.
Proof.
  cbv zeta. split; [|split; [|split]].
  - apply (@passes_keep X uniqueNames).
    + intros op. apply perform_preserves.
    + exact uniqueNames_empty.
  - apply (@passes_keep X uniqueUtterances);
      [intros op; apply perform_once | constructor].
  - apply (@passes_keep X distinctNormalizedValues);
      [intros op; apply perform_distinct | constructor].
  - apply (@passes_keep X labelsHaveValues);
      [intros op; apply perform_labels | constructor].
Qed.

(** * The declarations of the names of pattern.any entities *)

(** ** The steps of a declaration of the new syntax *)

Lemma typeOfDeclaration_given (siblings : list NewEntity.t) (entity : NewEntity.t)
  (entityType : string) :
  NewEntity.Type_ entity = Some entityType ->
  entityType <> "" ->
  typeOfDeclaration siblings entity = Some entityType.
Proof.
  intros Ht He. unfold typeOfDeclaration. rewrite Ht. cbn [Js.truthy].
  now rewrite (proj2 (String.eqb_neq _ _) He).
Qed.

(** A declaration whose type is its name is refused before anything is
    done. *)
Lemma handleNewEntity_named_as_its_type (X : Externals)
  (siblings : list NewEntity.t) (log : bool) (locale : option string)
  (entity : NewEntity.t) (entityType : string) (pc : parserObj) :
  typeOfDeclaration siblings entity = Some entityType ->
  entityType <> "" ->
  entityType = Js.stripQuotes (NewEntity.Name entity) ->
  exists text,
    handleNewEntity X siblings log locale entity pc
    = (Threw (exception INVALID_INPUT text), pc).
Proof.
  unfold typeOfDeclaration. intros Ht He Hn. unfold handleNewEntity. cbv zeta.
  rewrite Ht, (proj2 (String.eqb_neq _ _) He), (proj2 (String.eqb_eq _ _) Hn).
  unfold throwDiagnostic, throw. eauto.
Qed.

(** The steps of a declaration that has a type: role validation, the
    removal of a pattern.any entity of the name, the switch. *)
Lemma handleNewEntity_steps (X : Externals) (siblings : list NewEntity.t)
  (log : bool) (locale : option string) (entity : NewEntity.t)
  (entityType : string) (pc : parserObj) :
  typeOfDeclaration siblings entity = Some entityType ->
  entityType <> "" ->
  entityType <> Js.stripQuotes (NewEntity.Name entity) ->
  handleNewEntity X siblings log locale entity pc
  = (entityRoles <- validateAndGetRoles X (NewEntity.Roles entity)
                      (NewEntity.line entity)
                      (Js.stripQuotes (NewEntity.Name entity)) entityType ;;
     entityRoles <- absorbPatternAny X (Js.stripQuotes (NewEntity.Name entity))
                      entityType entityRoles (NewEntity.line entity) ;;
     declareKind X entity (Js.stripQuotes (NewEntity.Name entity)) entityType
       entityRoles locale log) pc.
Proof.
  unfold typeOfDeclaration. intros Ht He Hn. unfold handleNewEntity, declareKind.
  cbv zeta.
  rewrite Ht, (proj2 (String.eqb_neq _ _) He), (proj2 (String.eqb_neq _ _) Hn).
  reflexivity.
Qed.


(** Role validation refuses a declaration that collides with the flat
    list, and accepts every other: the flat list is then the one thing
    that has changed. *)
Lemma validateAndGetRoles_decides (X : Externals) (roles : option string)
  (line entityName entityType : string) (pc : parserObj) :
  (refusedByRoleValidation (LUISJsonStructure pc) entityName entityType
     (newRolesOf roles) ->
   exists text,
     validateAndGetRoles X roles line entityName entityType pc
     = (Threw (exception INVALID_INPUT text), pc))
  /\ (~ refusedByRoleValidation (LUISJsonStructure pc) entityName entityType
          (newRolesOf roles) ->
      exists flat',
        validateAndGetRoles X roles line entityName entityType pc
        = (Returned (newRolesOf roles),
           onLUIS (set_flatListOfEntityAndRoles (Some flat')) pc)).
Proof.
  unfold refusedByRoleValidation, validateAndGetRoles, bind, gets,
    throwDiagnostic, throw, modify, ret.
  destruct (flatListOfEntityAndRoles (LUISJsonStructure pc)) as [flat|].
  - destruct (Js.find (clashesWithEntity entityName entityType) flat) as [x|] eqn:E.
    { split; [eauto|]. intros Hc. exfalso. apply Hc. exists flat.
      split; [reflexivity|]. apply find_some in E. destruct E as [Hin E].
      unfold clashesWithEntity, sameNameOtherType in E.
      apply orb_true_iff in E. destruct E as [E|E].
      - left. exists x. apply andb_true_iff in E. destruct E as [E1 E2].
        apply String.eqb_eq in E1. apply negb_true_iff, String.eqb_neq in E2. auto.
      - right. left. exists x. apply mem_In in E. auto. }
    destruct (firstRoleClash flat (newRolesOf roles)) as [x|] eqn:F.
    { split; [eauto|]. intros Hc. exfalso. apply Hc. exists flat.
      split; [reflexivity|]. right. right. clear - F.
      induction (newRolesOf roles) as [|r t IH]; simpl in F; [discriminate|].
      destruct (Js.find (clashesWithRole r) flat) as [y|] eqn:G.
      - apply find_some in G. destruct G as [Hin G]. exists r, y.
        unfold clashesWithRole in G. apply orb_true_iff in G.
        split; [now left|]. split; [assumption|]. destruct G as [G|G].
        + right. now apply mem_In.
        + left. now apply String.eqb_eq.
      - destruct (IH F) as [r' [y [Hr H]]]. exists r', y.
        split; [now right | exact H]. }
    split; [|intros _; eexists; reflexivity].
    intros [flat0 [Hf Hc]]. injection Hf as <-. exfalso.
    rewrite find_None in E.
    destruct Hc as [[item [Hi [Hn Ht]]]|[[item [Hi Hr]]|[role [item [Hr [Hi H]]]]]].
    + specialize (E item Hi). unfold clashesWithEntity, sameNameOtherType in E.
      apply orb_false_iff in E. destruct E as [E _].
      rewrite (proj2 (String.eqb_eq _ _) Hn) in E.
      rewrite (proj2 (String.eqb_neq _ _) Ht) in E. discriminate.
    + specialize (E item Hi). unfold clashesWithEntity in E.
      apply orb_false_iff in E. destruct E as [_ E].
      apply mem_false in E. contradiction.
    + pose proof (firstRoleClash_None _ _ F role item Hr Hi) as C.
      unfold clashesWithRole in C. apply orb_false_iff in C.
      destruct C as [C1 C2]. apply mem_false in C1.
      apply String.eqb_neq in C2. tauto.
  - split; [|intros _; eexists; reflexivity].
    intros [flat0 [Hf _]]. discriminate Hf.
Qed.


(** ** The pattern.any entities of the new syntax are in the flat list *)

Section PatternAnyAlone.

Variable X : Externals.










End PatternAnyAlone.






(** ** Declaring the name of a pattern.any entity (C3) *)




(** ** Declaring a pattern.any entity again (C7) *)

(** What the check of the simple entities and of the labels returns or
    throws is read off the simple entities and the utterances; the
    pattern.any entities are as they were after it. *)
Lemma VerifyAndUpdateSimpleEntityCollection_reads (X : Externals)
  (entityName entityType : string) (pc pc2 : parserObj) :
  entities (LUISJsonStructure pc2) = entities (LUISJsonStructure pc) ->
  utterances (LUISJsonStructure pc2) = utterances (LUISJsonStructure pc) ->
  fst (VerifyAndUpdateSimpleEntityCollection X entityName entityType pc2)
  = fst (VerifyAndUpdateSimpleEntityCollection X entityName entityType pc)
  /\ patternAnyOf
       (snd (VerifyAndUpdateSimpleEntityCollection X entityName entityType pc2))
     = patternAnyOf pc2.
Proof.
  intros He Hu. split.
  - unfold VerifyAndUpdateSimpleEntityCollection, bind, gets, modify, ret,
      throwDiagnostic, throw.
    rewrite He.
    destruct (findByName entityName (entities (LUISJsonStructure pc))) as [simple|];
      [destruct (negb (String.eqb entityType "Phrase List"))|];
      cbn [onLUIS LUISJsonStructure set_entities utterances];
      rewrite Hu;
      (destruct (Js.find (labelsEntity entityName)
                   (utterances (LUISJsonStructure pc))) as [u|]; [|reflexivity]);
      match goal with
      | |- context [rolesOfLabels ?t ?l ?r] => destruct (rolesOfLabels t l r)
      end; reflexivity.
  - destruct (VerifyAndUpdateSimpleEntityCollection X entityName entityType pc2)
      as [r pc3] eqn:E.
    exact (VerifyAndUpdateSimpleEntityCollection_frame _ _ _ _ E).
Qed.

(** C7, as amended.  A declaration that is handled with the type
    [patternany] and whose name is held as a pattern.any entity, in a
    registry where the names of the pattern.any entities are distinct.  If
    the name is the name of the type, or if the declaration collides with
    the flat list, as it does when the flat list has one of its roles, it
    is refused with [INVALID_INPUT] and nothing changes: its roles are not
    added to the record.  Otherwise the record held is removed, and the
    check of the simple entities and of the labels decides: if it throws,
    the declaration ends with that exception and no pattern.any entity has
    the name; if it returns, the declaration is accepted, and the registry
    has one pattern.any record of the name, whose roles are the roles
    declared, then those of the record that was held which are new, then
    those returned by the check which are new; the number of pattern.any
    records is the same. *)
Theorem pattern_any_redeclared_absorbs_roles_when_accepted (X : Externals)
  (siblings : list NewEntity.t) (log : bool) (locale : option string)
  (entity : NewEntity.t) (pc : parserObj) (PA : patternAnyEntity.t) :
  let entityName := Js.stripQuotes (NewEntity.Name entity) in
  let declared := newRolesOf (NewEntity.Roles entity) in
  let run := handleNewEntity X siblings log locale entity pc in
  typeOfDeclaration siblings entity = Some EntityTypeEnum.PATTERNANY ->
  uniq (patternAnyOf pc) ->
  findByName entityName (patternAnyOf pc) = Some PA ->
  (entityName = EntityTypeEnum.PATTERNANY
   \/ refusedByRoleValidation (LUISJsonStructure pc) entityName
        EntityTypeEnum.PATTERNANY declared ->
   exists text, run = (Threw (exception INVALID_INPUT text), pc))
  /\ (entityName <> EntityTypeEnum.PATTERNANY ->
      ~ refusedByRoleValidation (LUISJsonStructure pc) entityName
          EntityTypeEnum.PATTERNANY declared ->
      match fst (VerifyAndUpdateSimpleEntityCollection X entityName
                   "Pattern.Any" pc) with
      | Returned rolesImport =>
          exists pc' PA',
            run = (Returned tt, pc')
            /\ findByName entityName (patternAnyOf pc') = Some PA'
            /\ patternAnyEntity.roles PA'
               = pushNew (pushNew declared (patternAnyEntity.roles PA))
                   rolesImport
            /\ uniq (patternAnyOf pc')
            /\ List.length (patternAnyOf pc') = List.length (patternAnyOf pc)
      | Threw e =>
          exists pc',
            run = (Threw e, pc')
            /\ findByName entityName (patternAnyOf pc') = None
      end).
Proof.
  intros entityName declared run HType Huniq Hheld.
  destruct (string_dec EntityTypeEnum.PATTERNANY entityName) as [Hn|Hn].
  { split; [|intros Hname; symmetry in Hn; contradiction]. intros _.
    exact (handleNewEntity_named_as_its_type X siblings log locale entity pc
             HType ltac:(discriminate) Hn). }
  pose proof (handleNewEntity_steps X siblings log locale entity pc HType
                ltac:(discriminate) Hn) as Hs.
  fold entityName in Hs. fold run in Hs. clearbody run.
  destruct (validateAndGetRoles_decides X (NewEntity.Roles entity)
              (NewEntity.line entity) entityName EntityTypeEnum.PATTERNANY pc)
    as [Hrefused Haccepted].
  fold declared in Hrefused, Haccepted.
  split.
  - intros [Hc|Hc]; [symmetry in Hc; contradiction|].
    destruct (Hrefused Hc) as [text Hv]. exists text.
    rewrite Hs. unfold bind at 1. now rewrite Hv.
  - intros _ Hc. destruct (Haccepted Hc) as [flat' Hv]. clear Hrefused Haccepted.
    unfold bind at 1 in Hs. rewrite Hv in Hs. unfold bind at 1 in Hs.
    destruct (@absorbPatternAny_found X
                (onLUIS (set_flatListOfEntityAndRoles (Some flat')) pc)
                entityName EntityTypeEnum.PATTERNANY declared
                (NewEntity.line entity) PA Hheld eq_refl)
      as [before [after [Hsplit [Hbefore Habsorb]]]].
    rewrite Habsorb in Hs. clear Habsorb.
    change (patternAnyOf (onLUIS (set_flatListOfEntityAndRoles (Some flat')) pc))
      with (patternAnyOf pc) in Hsplit.
    unfold declareKind in Hs.
    change (String.eqb EntityTypeEnum.PATTERNANY EntityTypeEnum.SIMPLE)
      with false in Hs.
    change (String.eqb EntityTypeEnum.PATTERNANY EntityTypeEnum.COMPOSITE)
      with false in Hs.
    change (String.eqb EntityTypeEnum.PATTERNANY EntityTypeEnum.LIST)
      with false in Hs.
    change (String.eqb EntityTypeEnum.PATTERNANY EntityTypeEnum.PATTERNANY)
      with true in Hs.
    cbv iota in Hs.
    set (promoted := onLUIS (set_patternAnyEntities (before ++ after))
                       (onLUIS (set_flatListOfEntityAndRoles (Some flat')) pc))
      in Hs.
    destruct (@VerifyAndUpdateSimpleEntityCollection_reads X entityName
                "Pattern.Any" pc promoted eq_refl eq_refl) as [Hfst Hpa].
    rewrite <- Hfst.
    assert (Hnone : forall x, In x (before ++ after) ->
                              hasName entityName x = false).
    { intros x Hx. unfold hasName. apply String.eqb_neq. intros Hx'.
      apply in_app_or in Hx. destruct Hx as [Hx|Hx].
      - now apply (Hbefore x).
      - unfold uniq in Huniq. rewrite Hsplit, map_app in Huniq. simpl in Huniq.
        apply NoDup_remove_2 in Huniq. apply Huniq, in_or_app. right.
        apply in_map_iff. exists x. split; [|assumption].
        etransitivity; [exact Hx'|]. symmetry. exact (findByName_name _ _ Hheld). }
    apply find_None in Hnone.
    unfold handlePatternAny in Hs. unfold bind at 1 in Hs.
    destruct (VerifyAndUpdateSimpleEntityCollection X entityName "Pattern.Any"
                promoted) as [[rolesImport|e] pc3]; cbn [fst snd] in *.
    + unfold bind, gets, modify in Hs.
      change (patternAnyOf promoted) with (before ++ after) in Hpa.
      unfold patternAnyOf in Hpa. unfold findByName in Hs.
      rewrite Hpa, Hnone in Hs.
      eexists. eexists. split; [exact Hs|].
      unfold patternAnyOf.
      cbn [onLUIS LUISJsonStructure set_patternAnyEntities patternAnyEntities].
      rewrite Hpa.
      split; [|split; [|split]].
      * unfold findByName. apply find_app_new; [exact Hnone|].
        unfold hasName. apply String.eqb_refl.
      * reflexivity.
      * apply uniq_push.
        -- unfold uniq in *. rewrite Hsplit, map_app in Huniq. simpl in Huniq.
           apply NoDup_remove_1 in Huniq. now rewrite map_app.
        -- apply existsb_hasName_false. rewrite existsb_find.
           match goal with
           | |- match ?f with Some _ => true | None => false end = false =>
               replace f with (@None patternAnyEntity.t) by (symmetry; exact Hnone)
           end.
           reflexivity.
      * unfold patternAnyOf in Hsplit. rewrite Hsplit, !length_app. simpl. lia.
    + exists pc3. split; [exact Hs|].
      change (patternAnyOf promoted) with (before ++ after) in Hpa.
      unfold findByName. rewrite Hpa. exact Hnone.
Qed.

(** [@ patternany city hasRoles from] followed by
    [@ patternany city hasRoles to] on a new parser object: the record has
    the roles [to] and [from]. *)
Lemma pattern_any_redeclared_absorbs_roles_when_accepted_witness :
  let pc := snd (handleNewEntity sampleExternals [] false None
                   (patternAnyDeclaration "city" "from") newParserObj) in
  let run := handleNewEntity sampleExternals [] false None
               (patternAnyDeclaration "city" "to") pc in
  exists pc' PA',
    run = (Returned tt, pc')
    /\ findByName "city" (patternAnyOf pc') = Some PA'
    /\ patternAnyEntity.roles PA' = ["to"; "from"]
    /\ uniq (patternAnyOf pc')
    /\ List.length (patternAnyOf pc') = List.length (patternAnyOf pc).
Proof.
  intros pc run.
  assert (Hnot : ~ refusedByRoleValidation (LUISJsonStructure pc) "city"
                     EntityTypeEnum.PATTERNANY (newRolesOf (Some "to"))).
  { intros Hc.
    destruct (proj1 (validateAndGetRoles_decides sampleExternals (Some "to")
                       "@ patternany city hasRoles to" "city"
                       EntityTypeEnum.PATTERNANY pc) Hc) as [text H].
    vm_compute in H. discriminate H. }
  assert (Huniq : uniq (patternAnyOf pc)).
  { unfold uniq. vm_compute. repeat constructor. simpl. tauto. }
  exact (proj2 (@pattern_any_redeclared_absorbs_roles_when_accepted
                  sampleExternals [] false None
                  (patternAnyDeclaration "city" "to") pc
                  (patternAnyEntity.mk "city" [] ["from"])
                  eq_refl Huniq eq_refl)
           ltac:(discriminate) Hnot).
Defined.

(** C7, as stated, fails when the declaration repeats a role.  On a new
    parser object, [@ patternany city hasRoles from] followed by
    [@ patternany city hasRoles from, to]: the second declaration is
    refused because the role [from] is listed, and the role [to] is not
    added to the record.  The same declaration twice: the second one is
    refused. *)
Lemma pattern_any_redeclared_is_not_always_absorbed :
  let pc := snd (handleNewEntity sampleExternals [] false None
                   (patternAnyDeclaration "city" "from") newParserObj) in
  patternAnyOf pc = [patternAnyEntity.mk "city" [] ["from"]]
  /\ (exists text,
         handleNewEntity sampleExternals [] false None
           (patternAnyDeclaration "city" "from, to") pc
         = (Threw (exception INVALID_INPUT text), pc))
  /\ (exists text,
         handleNewEntity sampleExternals [] false None
           (patternAnyDeclaration "city" "from") pc
         = (Threw (exception INVALID_INPUT text), pc)).
Proof.
  intros pc. split; [|split].
  - vm_compute. reflexivity.
  - eexists. vm_compute. reflexivity.
  - eexists. vm_compute. reflexivity.
Qed.
